(** * A verified model of the paginated, cached data API

    The development follows the layout of the backend package
    [backend/app]: one Rocq module per Python module ([schemas], [models],
    [seed_data], [database], [cache], [crud], [main]), and each Python
    function is embedded as a Rocq function of the same name.  Stateful
    code runs in a small state-and-exception monad [py.M].  The two
    external services, the Redis server behind [cache.py] and the
    relational store behind the SQLAlchemy session, are explicit in-memory
    states that carry a fault schedule, so that a backend failure is an
    input of the model.

    Library functions that the package only calls (hashlib's MD5, the
    [json] codec, [str] of a float, [datetime.isoformat], the attributes a
    mapped class inherits from the declarative base) are interfaces, given
    as type classes in [py] and [models]; [runtime] instantiates them so
    that the model runs.  [spec] holds the vocabulary of the properties and
    [sample] a small data set.  The properties follow the definitions. *)

From Stdlib Require Import ZArith QArith Qround Ascii String List Permutation Sorted.
From Stdlib Require OrderedTypeEx.
From stdpp Require Import base tactics option list sorting strings pretty gmap.

Local Open Scope Z_scope.


(** ** Python values, exceptions and the effect monad *)

Set Warnings "-register-all".

Module py.

(** The exceptions that the package raises or catches. *)
Inductive exn : Type :=
| AttributeError (msg : string)
| ZeroDivisionError (msg : string)
| JSONDecodeError
| RedisError (msg : string)
| SQLAlchemyError (msg : string)
| HTTPException (status_code : Z) (detail : string).

Inductive exc (A : Type) : Type :=
| Ok (a : A)
| Raise (e : exn).
Arguments Ok {A} a.
Arguments Raise {A} e.

(** [str(e)] for an exception [e]. *)
Definition exn_str (e : exn) : string :=
  match e with
  | AttributeError msg => msg
  | ZeroDivisionError msg => msg
  | JSONDecodeError => "Expecting value"
  | RedisError msg => msg
  | SQLAlchemyError msg => msg
  | HTTPException code detail => pretty code +:+ ": " +:+ detail
  end.

(** Stateful, fallible code: the state survives a raised exception. *)
Definition M (S A : Type) : Type := S → exc A * S.

Definition ret {S A} (a : A) : M S A := λ s, (Ok a, s).
Definition raise {S A} (e : exn) : M S A := λ s, (Raise e, s).
Definition bind {S A B} (m : M S A) (f : A → M S B) : M S B :=
  λ s, match m s with
       | (Ok a, s') => f a s'
       | (Raise e, s') => (Raise e, s')
       end.
(** [try: m except Exception as e: h e] *)
Definition try_except {S A} (m : M S A) (h : exn → M S A) : M S A :=
  λ s, match m s with
       | (Ok a, s') => (Ok a, s')
       | (Raise e, s') => h e s'
       end.
Definition gets {S A} (f : S → A) : M S A := λ s, (Ok (f s), s).
Definition modify {S} (f : S → S) : M S unit := λ s, (Ok tt, f s).

(** Values that travel through the cache and the HTTP responses: the JSON
    data model of Python ([None], [bool], [int], [float], [str], [list],
    [dict] with string keys).  Floats are the rationals they denote. *)
Inductive pyval : Type :=
| PNone
| PBool (b : bool)
| PInt (z : Z)
| PFloat (q : Q)
| PStr (s : string)
| PList (l : list pyval)
| PDict (d : list (string * pyval)).

(** Truth value testing, as in [if x:]. *)
Definition truthy (v : pyval) : bool :=
  match v with
  | PNone => false
  | PBool b => b
  | PInt z => negb (Z.eqb z 0)
  | PFloat q => negb (Qeq_bool q 0)
  | PStr s => negb (String.eqb s EmptyString)
  | PList l => match l with [] => false | _ => true end
  | PDict d => match d with [] => false | _ => true end
  end.

Definition truthy_str (o : option string) : bool :=
  match o with Some s => negb (String.eqb s EmptyString) | None => false end.
Definition truthy_int (o : option Z) : bool :=
  match o with Some z => negb (Z.eqb z 0) | None => false end.

(** [d[k]] on a dict literal; later bindings of a key do not occur in the
    literals of this package. *)
Fixpoint dict_get (d : list (string * pyval)) (k : string) : option pyval :=
  match d with
  | [] => None
  | (k', v) :: d' => if String.eqb k' k then Some v else dict_get d' k
  end.
Definition getitem (v : pyval) (k : string) : option pyval :=
  match v with PDict d => dict_get d k | _ => None end.

(** Scalars passed as keyword arguments to the key encoder. *)
Inductive scalar : Type :=
| SInt (z : Z)
| SFloat (q : Q)
| SStr (s : string)
| SBool (b : bool).

(** Interfaces of the Python libraries the package calls. *)
Class Hashlib := { md5_hexdigest : string → string }.
Class FloatStr := { float_str : Q → string }.
Class Json := { json_dumps : pyval → string; json_loads : string → option pyval }.
Class Datetime := { isoformat : Z → string }.

(** [str(v)], as used by an f-string replacement field. *)
Definition str `{FloatStr} (v : scalar) : string :=
  match v with
  | SInt z => pretty z
  | SFloat q => float_str q
  | SStr s => s
  | SBool b => if b then "True" else "False"
  end.

(** [sep.join(l)] *)
Fixpoint join (sep : string) (l : list string) : string :=
  match l with
  | [] => EmptyString
  | [x] => x
  | x :: l' => x +:+ sep +:+ join sep l'
  end.

(** [s.lower()] on ASCII letters. *)
Definition lower_ascii (c : ascii) : ascii :=
  let n := nat_of_ascii c in
  if (Nat.leb 65 n && Nat.leb n 90)%bool then ascii_of_nat (n + 32) else c.
Fixpoint lower (s : string) : string :=
  match s with
  | EmptyString => EmptyString
  | String c s' => String (lower_ascii c) (lower s')
  end.

(** Integer floor division [a // b], true division [a / b] and
    [math.ceil].  The quotient of [a / b] is a float in Python; for
    operands below 2^53, which row counts and page sizes are, rounding it
    up gives the ceiling of the exact quotient, and that is what the model
    computes. *)
Definition floordiv {S} (a b : Z) : M S Z :=
  if Z.eqb b 0
  then raise (ZeroDivisionError "integer division or modulo by zero")
  else ret (a / b).
Definition truediv {S} (a b : Z) : M S Q :=
  if Z.eqb b 0 then raise (ZeroDivisionError "division by zero")
  else ret (inject_Z a / inject_Z b)%Q.
Definition ceil (q : Q) : Z := Qceiling q.

End py.

Declare Scope py_scope.
Delimit Scope py_scope with py.
Notation "'let*' x ':=' m 'in' k" := (py.bind m (λ x, k))
  (at level 10, x name, m at level 100, k at level 200, only parsing) : py_scope.

(** ** schemas.py: enumerations and query-parameter objects *)

Module schemas.

Module ProductSortFields.
Inductive t : Type :=
| id | name | price | category | brand | stock_quantity | rating
| created_at | updated_at.
Definition value (f : t) : string :=
  match f with
  | id => "id" | name => "name" | price => "price" | category => "category"
  | brand => "brand" | stock_quantity => "stock_quantity"
  | rating => "rating" | created_at => "created_at"
  | updated_at => "updated_at"
  end.
Definition members : list t :=
  [id; name; price; category; brand; stock_quantity; rating; created_at;
   updated_at].
End ProductSortFields.

Module UserSortFields.
Inductive t : Type :=
| id | email | first_name | last_name | city | country | created_at.
Definition value (f : t) : string :=
  match f with
  | id => "id" | email => "email" | first_name => "first_name"
  | last_name => "last_name" | city => "city" | country => "country"
  | created_at => "created_at"
  end.
Definition members : list t :=
  [id; email; first_name; last_name; city; country; created_at].
End UserSortFields.

Module OrderSortFields.
Inductive t : Type :=
| id | user_id | product_id | quantity | unit_price | total_amount | status
| order_date.
Definition value (f : t) : string :=
  match f with
  | id => "id" | user_id => "user_id" | product_id => "product_id"
  | quantity => "quantity" | unit_price => "unit_price"
  | total_amount => "total_amount" | status => "status"
  | order_date => "order_date"
  end.
Definition members : list t :=
  [id; user_id; product_id; quantity; unit_price; total_amount; status;
   order_date].
End OrderSortFields.

Module SortOrder.
Inductive t : Type := asc | desc.
Definition value (o : t) : string :=
  match o with asc => "asc" | desc => "desc" end.
Definition members : list t := [asc; desc].
End SortOrder.

Module OrderStatus.
Inductive t : Type := pending | confirmed | shipped | delivered | cancelled.
Definition value (st : t) : string :=
  match st with
  | pending => "pending" | confirmed => "confirmed" | shipped => "shipped"
  | delivered => "delivered" | cancelled => "cancelled"
  end.
Definition members : list t :=
  [pending; confirmed; shipped; delivered; cancelled].
End OrderStatus.

(** Enum validation of a raw string: the member with that value, if any. *)
Definition enum_of_value {E} (value : E → string) (members : list E)
    (raw : string) : option E :=
  List.find (λ m, String.eqb (value m) raw) members.

Definition opt_all {A} (p : A → bool) (o : option A) : bool :=
  match o with Some a => p a | None => true end.
Definition max_length (n : nat) (s : string) : bool :=
  Nat.leb (String.length s) n.
Definition ge0 (q : Q) : bool := Qle_bool 0 q.

Module ProductQueryParams.
Record t : Type := mk {
  page : Z;
  size : Z;
  search : option string;
  category : option string;
  brand : option string;
  min_price : option Q;
  max_price : option Q;
  sort_by : ProductSortFields.t;
  sort_order : SortOrder.t }.
(** [validate_price_range] *)
Definition validate_price_range (p : t) : bool :=
  match max_price p, min_price p with
  | Some hi, Some lo => Qle_bool lo hi
  | _, _ => true
  end.
(** The [Field] constraints and the validators of the class. *)
Definition valid (p : t) : bool :=
  (1 <=? page p) && (1 <=? size p) && (size p <=? 1000)
  && opt_all (max_length 255) (search p)
  && opt_all (max_length 100) (category p)
  && opt_all (max_length 100) (brand p)
  && opt_all ge0 (min_price p) && opt_all ge0 (max_price p)
  && validate_price_range p.
End ProductQueryParams.

Module UserQueryParams.
Record t : Type := mk {
  page : Z;
  size : Z;
  search : option string;
  city : option string;
  country : option string;
  sort_by : UserSortFields.t;
  sort_order : SortOrder.t }.
Definition valid (p : t) : bool :=
  (1 <=? page p) && (1 <=? size p) && (size p <=? 1000)
  && opt_all (max_length 255) (search p)
  && opt_all (max_length 100) (city p)
  && opt_all (max_length 100) (country p).
End UserQueryParams.

Module OrderQueryParams.
Record t : Type := mk {
  page : Z;
  size : Z;
  user_id : option Z;
  status : option OrderStatus.t;
  sort_by : OrderSortFields.t;
  sort_order : SortOrder.t }.
Definition valid (p : t) : bool :=
  (1 <=? page p) && (1 <=? size p) && (size p <=? 1000)
  && opt_all (Z.leb 1) (user_id p).
End OrderQueryParams.

End schemas.

(** ** models.py: the mapped classes *)

Module models.

(** A column value as the store holds it.  Every column other than a
    primary key is nullable; [Float] columns hold the rational they denote,
    [DateTime] columns a count of microseconds. *)
Inductive cell : Type :=
| CNull
| CInt (z : Z)
| CFloat (q : Q)
| CStr (s : string)
| CBool (b : bool)
| CTime (t : Z).

Definition of_int (o : option Z) : cell := from_option CInt CNull o.
Definition of_float (o : option Q) : cell := from_option CFloat CNull o.
Definition of_str (o : option string) : cell := from_option CStr CNull o.
Definition of_bool (o : option bool) : cell := from_option CBool CNull o.
Definition of_time (o : option Z) : cell := from_option CTime CNull o.

Definition cell_rank (c : cell) : nat :=
  match c with
  | CInt _ => 0 | CFloat _ => 1 | CStr _ => 2 | CBool _ => 3 | CTime _ => 4
  | CNull => 5
  end.

(** The order of [ORDER BY]: values of one column compare by their type's
    order (text by code point), and NULL sorts as larger than every value,
    which is the default of the deployed store (NULLS LAST ascending, NULLS
    FIRST descending). *)
Definition cell_compare (a b : cell) : comparison :=
  match a, b with
  | CInt x, CInt y => Z.compare x y
  | CFloat x, CFloat y => Qcompare x y
  | CStr x, CStr y => String.compare x y
  | CBool x, CBool y => Bool.compare x y
  | CTime x, CTime y => Z.compare x y
  | _, _ => Nat.compare (cell_rank a) (cell_rank b)
  end.

Definition cell_leb (a b : cell) : bool :=
  match cell_compare a b with Gt => false | _ => true end.

(** What [getattr(Model, name, default)] finds on a mapped class: a column,
    or some other attribute (a relationship, [__tablename__], or anything
    inherited from the declarative base and [object]). *)
Inductive attr (C : Type) : Type :=
| Column (c : C)
| NotColumn.
Arguments Column {C} c.
Arguments NotColumn {C}.

(** The names every mapped class inherits from [Base] and [object]
    ([metadata], [registry], [__init__], ...); they are not declared in this
    package. *)
Class DeclarativeBase := { inherited_attr : string → bool }.

Definition class_getattr `{DeclarativeBase} {C} (columns : list (string * C))
    (others : list string) (name : string) : option (attr C) :=
  match List.find (λ nc, String.eqb nc.1 name) columns with
  | Some nc => Some (Column nc.2)
  | None =>
      if existsb (String.eqb name) others || inherited_attr name
      then Some NotColumn else None
  end.

Module Product.
Record t : Type := mk {
  id : Z;
  name : option string;
  description : option string;
  price : option Q;
  category : option string;
  brand : option string;
  stock_quantity : option Z;
  rating : option Q;
  is_active : option bool;
  created_at : option Z;
  updated_at : option Z }.
Inductive column : Type :=
| c_id | c_name | c_description | c_price | c_category | c_brand
| c_stock_quantity | c_rating | c_is_active | c_created_at | c_updated_at.
Definition columns : list (string * column) :=
  [("id", c_id); ("name", c_name); ("description", c_description);
   ("price", c_price); ("category", c_category); ("brand", c_brand);
   ("stock_quantity", c_stock_quantity); ("rating", c_rating);
   ("is_active", c_is_active); ("created_at", c_created_at);
   ("updated_at", c_updated_at)].
Definition others : list string := ["__tablename__"; "orders"].
Definition get (c : column) (r : t) : cell :=
  match c with
  | c_id => CInt (id r)
  | c_name => of_str (name r)
  | c_description => of_str (description r)
  | c_price => of_float (price r)
  | c_category => of_str (category r)
  | c_brand => of_str (brand r)
  | c_stock_quantity => of_int (stock_quantity r)
  | c_rating => of_float (rating r)
  | c_is_active => of_bool (is_active r)
  | c_created_at => of_time (created_at r)
  | c_updated_at => of_time (updated_at r)
  end.
Definition getattr `{DeclarativeBase} (attr_name : string)
    (default : attr column) : attr column :=
  from_option (λ a, a) default (class_getattr columns others attr_name).
End Product.

Module User.
Record t : Type := mk {
  id : Z;
  email : option string;
  first_name : option string;
  last_name : option string;
  phone : option string;
  address : option string;
  city : option string;
  country : option string;
  is_active : option bool;
  created_at : option Z;
  updated_at : option Z }.
Inductive column : Type :=
| c_id | c_email | c_first_name | c_last_name | c_phone | c_address | c_city
| c_country | c_is_active | c_created_at | c_updated_at.
Definition columns : list (string * column) :=
  [("id", c_id); ("email", c_email); ("first_name", c_first_name);
   ("last_name", c_last_name); ("phone", c_phone); ("address", c_address);
   ("city", c_city); ("country", c_country); ("is_active", c_is_active);
   ("created_at", c_created_at); ("updated_at", c_updated_at)].
Definition others : list string := ["__tablename__"; "orders"].
Definition get (c : column) (r : t) : cell :=
  match c with
  | c_id => CInt (id r)
  | c_email => of_str (email r)
  | c_first_name => of_str (first_name r)
  | c_last_name => of_str (last_name r)
  | c_phone => of_str (phone r)
  | c_address => of_str (address r)
  | c_city => of_str (city r)
  | c_country => of_str (country r)
  | c_is_active => of_bool (is_active r)
  | c_created_at => of_time (created_at r)
  | c_updated_at => of_time (updated_at r)
  end.
Definition getattr `{DeclarativeBase} (attr_name : string)
    (default : attr column) : attr column :=
  from_option (λ a, a) default (class_getattr columns others attr_name).
End User.

Module Order.
Record t : Type := mk {
  id : Z;
  user_id : option Z;
  product_id : option Z;
  quantity : option Z;
  unit_price : option Q;
  total_amount : option Q;
  status : option string;
  order_date : option Z }.
Inductive column : Type :=
| c_id | c_user_id | c_product_id | c_quantity | c_unit_price
| c_total_amount | c_status | c_order_date.
Definition columns : list (string * column) :=
  [("id", c_id); ("user_id", c_user_id); ("product_id", c_product_id);
   ("quantity", c_quantity); ("unit_price", c_unit_price);
   ("total_amount", c_total_amount); ("status", c_status);
   ("order_date", c_order_date)].
Definition others : list string := ["__tablename__"; "user"; "product"].
Definition get (c : column) (r : t) : cell :=
  match c with
  | c_id => CInt (id r)
  | c_user_id => of_int (user_id r)
  | c_product_id => of_int (product_id r)
  | c_quantity => of_int (quantity r)
  | c_unit_price => of_float (unit_price r)
  | c_total_amount => of_float (total_amount r)
  | c_status => of_str (status r)
  | c_order_date => of_time (order_date r)
  end.
Definition getattr `{DeclarativeBase} (attr_name : string)
    (default : attr column) : attr column :=
  from_option (λ a, a) default (class_getattr columns others attr_name).
End Order.

End models.

(** ** seed_data.py: the statuses the loader writes *)

Module seed_data.

(** [statuses] of [seed_orders]: every seeded order takes its status from
    this list. *)
Definition statuses : list string :=
  ["pending"; "processing"; "shipped"; "delivered"; "cancelled"].

End seed_data.

(** ** database.py and the SQLAlchemy session *)

Module database.
Import py models.
Local Open Scope py_scope.

(** The three tables, in primary-key order. *)
Record Database : Type := mkDatabase {
  products : list Product.t;
  users : list User.t;
  orders : list Order.t }.

Inductive statement : Type :=
| Count (table : string)
| Select (table : string)
| Delete (table : string)
| Commit
| Rollback.

(** A session: the committed tables, the tables as the open transaction sees
    them, the fault schedule of the store (one flag per statement still to
    come, [true] meaning that the statement fails; an exhausted schedule
    means no further failure) and the statements sent so far. *)
Record Session : Type := mkSession {
  committed : Database;
  pending : Database;
  faults : list bool;
  log : list statement }.

(** [SessionLocal()] *)
Definition SessionLocal (d : Database) (schedule : list bool) : Session :=
  mkSession d d schedule [].

(** [db.close()]: an open transaction is abandoned. *)
Definition close (s : Session) : Database := committed s.

(** Sending one statement to the store. *)
Definition execute {A} (st : statement) (m : M Session A) : M Session A :=
  λ s,
    let s1 := mkSession (committed s) (pending s) (tail (faults s))
                        (log s ++ [st]) in
    match faults s with
    | true :: _ => (Raise (SQLAlchemyError "storage failure"), s1)
    | _ => m s1
    end.

(** A [Query] object under construction. *)
Record Query (R : Type) : Type := mkQuery {
  table : string;
  source : Database → list R;
  criteria : list (R → bool);
  ordering : option (R → R → bool);
  offset_ : option Z;
  limit_ : option Z }.
Arguments mkQuery {R}.
Arguments table {R}.
Arguments source {R}.
Arguments criteria {R}.
Arguments ordering {R}.
Arguments offset_ {R}.
Arguments limit_ {R}.

(** Column expressions.  A comparison with NULL is not true, so a criterion
    holds of a row exactly when the SQL expression evaluates to TRUE. *)
Definition and_ {R} (fs : list (R → bool)) : R → bool :=
  λ r, forallb (λ f, f r) fs.
Definition or_ {R} (fs : list (R → bool)) : R → bool :=
  λ r, existsb (λ f, f r) fs.

(** [LIKE] matching: [%] matches any run of characters, [_] any single
    character, and a backslash makes the next pattern character literal. *)
Fixpoint like_suffixes (k : string → bool) (s : string) : bool :=
  k s || match s with
         | EmptyString => false
         | String _ s' => like_suffixes k s'
         end.
Fixpoint like (pat : string) : string → bool :=
  match pat with
  | EmptyString => λ s, String.eqb s EmptyString
  | String "%" pat' => like_suffixes (like pat')
  | String "_" pat' =>
      λ s, match s with String _ s' => like pat' s' | EmptyString => false end
  | String "\" (String c pat') =>
      λ s, match s with
           | String d s' => Ascii.eqb c d && like pat' s'
           | EmptyString => false
           end
  | String c pat' =>
      λ s, match s with
           | String d s' => Ascii.eqb c d && like pat' s'
           | EmptyString => false
           end
  end.
(** [column.ilike(pattern)]: [LIKE] on the lower-cased operands. *)
Definition ilike (col : option string) (pattern : string) : bool :=
  match col with
  | Some s => like (lower pattern) (lower s)
  | None => false
  end.
Definition eq_str (col : option string) (v : string) : bool :=
  match col with Some s => String.eqb s v | None => false end.
Definition eq_int (col : option Z) (v : Z) : bool :=
  match col with Some z => Z.eqb z v | None => false end.
Definition ge_float (col : option Q) (v : Q) : bool :=
  match col with Some q => Qle_bool v q | None => false end.
Definition le_float (col : option Q) (v : Q) : bool :=
  match col with Some q => Qle_bool q v | None => false end.

(** Ascending and descending row orders on a sort key. *)
Definition ascending {R} (key : R → cell) : R → R → bool :=
  λ a b, cell_leb (key a) (key b).
Definition descending {R} (key : R → cell) : R → R → bool :=
  λ a b, cell_leb (key b) (key a).
(** [sort_column.asc()] and [sort_column.desc()]: only a column has these
    methods. *)
Definition asc {S R C} (get : C → R → cell) (sort_column : attr C)
    : M S (R → R → bool) :=
  match sort_column with
  | Column c => ret (ascending (get c))
  | NotColumn => raise (AttributeError "object has no attribute 'asc'")
  end.
Definition desc {S R C} (get : C → R → cell) (sort_column : attr C)
    : M S (R → R → bool) :=
  match sort_column with
  | Column c => ret (descending (get c))
  | NotColumn => raise (AttributeError "object has no attribute 'desc'")
  end.

Definition query {R} (tbl : string) (src : Database → list R) : Query R :=
  mkQuery tbl src [] None None None.
Definition filter {R} (q : Query R) (f : R → bool) : Query R :=
  mkQuery (table q) (source q) (criteria q ++ [f]) (ordering q) (offset_ q)
          (limit_ q).
Definition order_by {R} (q : Query R) (o : R → R → bool) : Query R :=
  mkQuery (table q) (source q) (criteria q) (Some o) (offset_ q) (limit_ q).
Definition offset {R} (q : Query R) (n : Z) : Query R :=
  mkQuery (table q) (source q) (criteria q) (ordering q) (Some n) (limit_ q).
Definition limit {R} (q : Query R) (n : Z) : Query R :=
  mkQuery (table q) (source q) (criteria q) (ordering q) (offset_ q) (Some n).

(** The rows a query selects, before ordering and slicing. *)
Definition matching {R} (q : Query R) (d : Database) : list R :=
  List.filter (and_ (criteria q)) (source q d).

(** The store's [ORDER BY].  The rows come back, each once, in the
    requested order.  The order of rows that compare equal is the store's
    choice, and the choice may differ from one statement to the next: it is
    a function of the statement (its order, its OFFSET and its LIMIT) and of
    the rows.  No such function is fixed here: the package is verified for
    every store that keeps these two laws. *)
Class Engine := {
  order_by_rows :
    ∀ {R : Type}, (R → R → bool) → option Z → option Z → list R → list R;
  order_by_rows_Permutation :
    ∀ {R : Type} (le : R → R → bool) off lim rows,
      order_by_rows le off lim rows ≡ₚ rows;
  order_by_rows_Sorted :
    ∀ {R : Type} (le : R → R → bool) off lim rows,
      Total (λ a b, Is_true (le a b)) →
      Sorted (λ a b, Is_true (le a b)) (order_by_rows le off lim rows) }.

(** The rows of a statement with the given order, OFFSET and LIMIT, before
    the slice is cut out. *)
Definition ordered `{Engine} {R} (o : option (R → R → bool))
    (off lim : option Z) (rows : list R) : list R :=
  match o with
  | Some le => order_by_rows le off lim rows
  | None => rows
  end.

Definition negative (o : option Z) : bool :=
  match o with Some n => n <? 0 | None => false end.
Definition slice {R} (off lim : option Z) (rows : list R) : list R :=
  let rows := match off with Some n => drop (Z.to_nat n) rows | None => rows end in
  match lim with Some n => take (Z.to_nat n) rows | None => rows end.

(** [query.count()] *)
Definition count {R} (q : Query R) : M Session Z :=
  execute (Count (table q))
    (gets (λ s, Z.of_nat (length (matching q (pending s))))).

(** [query.all()]; the store rejects a negative OFFSET or LIMIT. *)
Definition all `{Engine} {R} (q : Query R) : M Session (list R) :=
  execute (Select (table q))
    (if negative (offset_ q) || negative (limit_ q)
     then raise (SQLAlchemyError "OFFSET and LIMIT must not be negative")
     else gets (λ s, slice (offset_ q) (limit_ q)
                       (ordered (ordering q) (offset_ q) (limit_ q)
                          (matching q (pending s))))).

(** [query.delete()]: removes every row of a table, given the update of
    the tables. *)
Definition delete (tbl : string) (clear : Database → Database) : M Session unit :=
  execute (Delete tbl)
    (modify (λ s, mkSession (committed s) (clear (pending s)) (faults s) (log s))).

(** [db.commit()] and [db.rollback()] *)
Definition commit : M Session unit :=
  execute Commit
    (modify (λ s, mkSession (pending s) (pending s) (faults s) (log s))).
Definition rollback : M Session unit :=
  execute Rollback
    (modify (λ s, mkSession (committed s) (committed s) (faults s) (log s))).

(** The tables as queried through the mapped classes. *)
Definition Product_rows : Database → list Product.t := products.
Definition User_rows : Database → list User.t := users.

(** An order together with its two relationships as [joinedload] resolves
    them: the referenced row, or nothing when the reference is dangling. *)
Record LoadedOrder : Type := mkLoaded {
  order : Order.t;
  user : option User.t;
  product : option Product.t }.
Definition load_order (d : Database) (o : Order.t) : LoadedOrder :=
  mkLoaded o
    (uid ← Order.user_id o; List.find (λ u, Z.eqb (User.id u) uid) (users d))
    (pid ← Order.product_id o;
     List.find (λ p, Z.eqb (Product.id p) pid) (products d)).
Definition Order_rows (d : Database) : list LoadedOrder :=
  List.map (load_order d) (orders d).

End database.

(** ** cache.py: the look-aside cache over a Redis client *)

Module cache.
Import py.
Local Open Scope py_scope.

(** A stored string with its absolute expiry time (seconds). *)
Record entry : Type := mkEntry {
  payload : string;
  expires_at : Z }.

Inductive command : Type :=
| GET (key : string)
| SETEX (key : string) (ttl : Z) (value : string)
| DEL (keys : list string)
| KEYS (pattern : string).

(** The Redis server as the client sees it: the key space, the server
    clock, the fault schedule of the connection (as for the store: one flag
    per command still to come) and the commands sent so far. *)
Record Redis : Type := mkRedis {
  store : gmap string entry;
  now : Z;
  faults : list bool;
  log : list command }.

(** Time passes on the server. *)
Definition tick (seconds : Z) (r : Redis) : Redis :=
  mkRedis (store r) (now r + seconds) (faults r) (log r).

(** The value a key holds at the current time; an expired entry is gone. *)
Definition live (r : Redis) (key : string) : option string :=
  match store r !! key with
  | Some e => if now r <? expires_at e then Some (payload e) else None
  | None => None
  end.

(** Sending one command over the connection. *)
Definition call {A} (c : command) (m : M Redis A) : M Redis A :=
  λ r,
    let r1 := mkRedis (store r) (now r) (tail (faults r)) (log r ++ [c]) in
    match faults r with
    | true :: _ => (Raise (RedisError "connection failure"), r1)
    | _ => m r1
    end.

(** Glob matching of [KEYS], as the server's [stringmatchlen] does it on
    ASCII keys: [*] matches any run of characters, [?] any single
    character, [[...]] one character of a class and a backslash makes the
    next pattern character literal.  A class lists characters and ranges
    [a-z] (read in either direction), a leading [^] negates it, a backslash
    inside it makes the next character a member, and a class that the
    pattern does not close ends the pattern.  [glob_from] is the matcher
    on a key that has a character left or has been read to its end;
    [stringmatch] and [glob] below add what the server does with the empty
    key and with the pattern [*]. *)
Fixpoint glob_suffixes (k : string → bool) (s : string) : bool :=
  k s || match s with
         | EmptyString => false
         | String _ s' => glob_suffixes k s'
         end.
Definition in_range (lo hi c : ascii) : bool :=
  let lo := nat_of_ascii lo in
  let hi := nat_of_ascii hi in
  let c := nat_of_ascii c in
  Nat.leb (Nat.min lo hi) c && Nat.leb c (Nat.max lo hi).
(** Where the matcher stands: outside a class, or inside one, held against
    the character [c] of the string, with the class negated or not and a
    member found or not so far. *)
Inductive glob_state : Type :=
| Outside
| InClass (negated found : bool) (c : ascii).
Fixpoint glob_from (st : glob_state) (pat : string) : string → bool :=
  match st with
  | Outside =>
      match pat with
      | EmptyString => λ s, String.eqb s EmptyString
      | String "*" pat' => glob_suffixes (glob_from Outside pat')
      | String "?" pat' =>
          λ s, match s with
               | String _ s' => glob_from Outside pat' s'
               | EmptyString => false
               end
      | String "[" pat' =>
          λ s, match s with
               | String c s' =>
                   match pat' with
                   | String "^" pat'' => glob_from (InClass true false c) pat'' s'
                   | _ => glob_from (InClass false false c) pat' s'
                   end
               | EmptyString => false
               end
      | String "\" (String c pat') =>
          λ s, match s with
               | String d s' => Ascii.eqb c d && glob_from Outside pat' s'
               | EmptyString => false
               end
      | String c pat' =>
          λ s, match s with
               | String d s' => Ascii.eqb c d && glob_from Outside pat' s'
               | EmptyString => false
               end
      end
  | InClass negated found c =>
      match pat with
      | EmptyString => λ s, xorb negated found && String.eqb s EmptyString
      | String "\" (String x pat') =>
          glob_from (InClass negated (found || Ascii.eqb x c) c) pat'
      | String "]" pat' => λ s, xorb negated found && glob_from Outside pat' s
      | String lo (String "-" (String hi pat')) =>
          glob_from (InClass negated (found || in_range lo hi c) c) pat'
      | String x pat' =>
          glob_from (InClass negated (found || Ascii.eqb x c) c) pat'
      end
  end.
(** [stringmatchlen(pattern, key)]: the matcher takes a step only while
    both the pattern and the key have a character left, so the empty key
    matches the empty pattern and no other. *)
Definition stringmatch (pat s : string) : bool :=
  match s with
  | EmptyString => String.eqb pat EmptyString
  | String _ _ => glob_from Outside pat s
  end.
(** The keys that [KEYS pattern] selects: every key for the pattern [*],
    which the command does not run the matcher for, and the keys that match
    for any other pattern. *)
Definition glob (pat : string) (s : string) : bool :=
  String.eqb pat "*" || stringmatch pat s.

(** [client.get(key)] *)
Definition client_get (key : string) : M Redis (option string) :=
  call (GET key) (gets (λ r, live r key)).

(** [client.setex(key, ttl, value)]; the server rejects an expiry that is
    not positive. *)
Definition client_setex (key : string) (ttl : Z) (value : string) : M Redis bool :=
  call (SETEX key ttl value)
    (if ttl <=? 0
     then raise (RedisError "invalid expire time in 'setex' command")
     else let* _ := modify (λ r, mkRedis (<[key := mkEntry value (now r + ttl)]> (store r))
                                         (now r) (faults r) (log r)) in
          ret true).

(** [client.delete( *keys)]: the number of keys that were removed. *)
Fixpoint delete_keys (keys : list string) (r : Redis) : Z * Redis :=
  match keys with
  | [] => (0, r)
  | k :: keys' =>
      let r' := mkRedis (delete k (store r)) (now r) (faults r) (log r) in
      let '(n, r'') := delete_keys keys' r' in
      (match live r k with Some _ => 1 | None => 0 end + n, r'')
  end.
Definition client_delete (keys : list string) : M Redis Z :=
  call (DEL keys) (λ r, let '(n, r') := delete_keys keys r in (Ok n, r')).

(** [client.keys(pattern)] *)
Definition client_keys (pattern : string) : M Redis (list string) :=
  call (KEYS pattern)
    (gets (λ r, List.filter (λ k, bool_decide (is_Some (live r k)) && glob pattern k)
                  (map_to_list (store r)).*1)).

Record CacheManager : Type := mkCacheManager { default_ttl : Z }.

Section CacheManager.
Context `{Json}.
Variable self : CacheManager.

Definition get (key : string) : M Redis pyval :=
  try_except
    (let* value := client_get key in
     if truthy_str value
     then match json_loads (default EmptyString value) with
          | Some v => ret v
          | None => raise JSONDecodeError
          end
     else ret PNone)
    (λ _, ret PNone).

Definition set (key : string) (value : pyval) (ttl : option Z) : M Redis bool :=
  try_except
    (let ttl := if truthy_int ttl then default 0 ttl else default_ttl self in
     let serialized_value := json_dumps value in
     client_setex key ttl serialized_value)
    (λ _, ret false).

Definition delete (key : string) : M Redis bool :=
  try_except
    (let* n := client_delete [key] in ret (negb (Z.eqb n 0)))
    (λ _, ret false).

Definition clear_pattern (pattern : string) : M Redis Z :=
  try_except
    (let* keys := client_keys pattern in
     match keys with
     | _ :: _ => client_delete keys
     | [] => ret 0
     end)
    (λ _, ret 0).

End CacheManager.

(** [cache = CacheManager()] *)
Definition cache : CacheManager := mkCacheManager 300.

End cache.

(** ** crud.py: the query engine *)

Module crud.
Import py models database.
Local Open Scope py_scope.

Record PageResult (R : Type) : Type := mkPage {
  items : list R;
  total : Z;
  page : Z;
  size : Z;
  pages : Z }.
Arguments mkPage {R}.
Arguments items {R}.
Arguments total {R}.
Arguments page {R}.
Arguments size {R}.
Arguments pages {R}.

Record DeletedCounts : Type := mkCounts {
  orders_deleted : Z;
  users_deleted : Z;
  products_deleted : Z }.
Record TruncateResult : Type := mkTruncate {
  success : bool;
  message : string;
  deleted_counts : DeletedCounts }.

Section crud.
Context `{DeclarativeBase, Engine}.

Definition get_products (skip limit : Z) (search category brand : option string)
    (min_price max_price : option Q) (sort_by sort_order : string)
    : M Session (PageResult Product.t) :=
  let query := database.query "products" Product_rows in
  (* Apply filters *)
  let filters := [] in
  let filters :=
    if truthy_str search then
      let pattern := "%" +:+ default EmptyString search +:+ "%" in
      filters ++ [or_ [λ r, ilike (Product.name r) pattern;
                       λ r, ilike (Product.description r) pattern;
                       λ r, ilike (Product.brand r) pattern]]
    else filters in
  let filters :=
    if truthy_str category
    then filters ++ [λ r, eq_str (Product.category r) (default EmptyString category)]
    else filters in
  let filters :=
    if truthy_str brand
    then filters ++ [λ r, eq_str (Product.brand r) (default EmptyString brand)]
    else filters in
  let filters :=
    match min_price with
    | Some lo => filters ++ [λ r, ge_float (Product.price r) lo]
    | None => filters
    end in
  let filters :=
    match max_price with
    | Some hi => filters ++ [λ r, le_float (Product.price r) hi]
    | None => filters
    end in
  let query :=
    match filters with
    | _ :: _ => database.filter query (and_ filters)
    | [] => query
    end in
  (* Get total count for pagination *)
  let* total := count query in
  (* Apply sorting *)
  let sort_column := Product.getattr sort_by (Column Product.c_id) in
  let* order :=
    if String.eqb (lower sort_order) "desc"
    then desc Product.get sort_column
    else asc Product.get sort_column in
  let query := order_by query order in
  (* Apply pagination *)
  let* items := all (database.limit (offset query skip) limit) in
  let* page := floordiv skip limit in
  let* quotient := truediv total limit in
  ret (mkPage items total (page + 1) limit (ceil quotient)).

Definition get_users (skip limit : Z) (search city country : option string)
    (sort_by sort_order : string) : M Session (PageResult User.t) :=
  let query := database.query "users" User_rows in
  let filters := [] in
  let filters :=
    if truthy_str search then
      let pattern := "%" +:+ default EmptyString search +:+ "%" in
      filters ++ [or_ [λ r, ilike (User.first_name r) pattern;
                       λ r, ilike (User.last_name r) pattern;
                       λ r, ilike (User.email r) pattern]]
    else filters in
  let filters :=
    if truthy_str city
    then filters ++ [λ r, eq_str (User.city r) (default EmptyString city)]
    else filters in
  let filters :=
    if truthy_str country
    then filters ++ [λ r, eq_str (User.country r) (default EmptyString country)]
    else filters in
  let query :=
    match filters with
    | _ :: _ => database.filter query (and_ filters)
    | [] => query
    end in
  let* total := count query in
  let sort_column := User.getattr sort_by (Column User.c_id) in
  let* order :=
    if String.eqb (lower sort_order) "desc"
    then desc User.get sort_column
    else asc User.get sort_column in
  let query := order_by query order in
  let* items := all (database.limit (offset query skip) limit) in
  let* page := floordiv skip limit in
  let* quotient := truediv total limit in
  ret (mkPage items total (page + 1) limit (ceil quotient)).

Definition get_orders (skip limit : Z) (user_id : option Z)
    (status : option string) (sort_by sort_order : string)
    : M Session (PageResult LoadedOrder) :=
  let query := database.query "orders" Order_rows in
  let filters := [] in
  let filters :=
    if truthy_int user_id
    then filters ++ [λ r, eq_int (Order.user_id (order r)) (default 0 user_id)]
    else filters in
  let filters :=
    if truthy_str status
    then filters ++ [λ r, eq_str (Order.status (order r)) (default EmptyString status)]
    else filters in
  let query :=
    match filters with
    | _ :: _ => database.filter query (and_ filters)
    | [] => query
    end in
  let* total := count query in
  let sort_column := Order.getattr sort_by (Column Order.c_id) in
  let* order :=
    if String.eqb (lower sort_order) "desc"
    then desc (λ c r, Order.get c (order r)) sort_column
    else asc (λ c r, Order.get c (order r)) sort_column in
  let query := order_by query order in
  let* items := all (database.limit (offset query skip) limit) in
  let* page := floordiv skip limit in
  let* quotient := truediv total limit in
  ret (mkPage items total (page + 1) limit (ceil quotient)).

End crud.

Definition truncate_all_data : M Session TruncateResult :=
  try_except
    ((* Orders first (has foreign keys to users and products) *)
     let* orders_deleted := count (database.query "orders" orders) in
     let* _ := delete "orders" (λ d, mkDatabase (products d) (users d) []) in
     (* Then users and products *)
     let* users_deleted := count (database.query "users" users) in
     let* _ := delete "users" (λ d, mkDatabase (products d) [] (orders d)) in
     let* products_deleted := count (database.query "products" products) in
     let* _ := delete "products" (λ d, mkDatabase [] (users d) (orders d)) in
     (* Commit the transaction *)
     let* _ := commit in
     ret (mkTruncate true "All data truncated successfully"
            (mkCounts orders_deleted users_deleted products_deleted)))
    (λ e,
     let* _ := rollback in
     ret (mkTruncate false ("Error truncating data: " +:+ exn_str e)
            (mkCounts 0 0 0))).

End crud.

(** ** main.py: the key encoder and the endpoints *)

Module main.
Import py models database schemas.
Local Open Scope py_scope.

(** What a request handler works on: the session that [Depends(get_db)]
    hands it and the Redis server behind the module-level [cache]. *)
Record App : Type := mkApp {
  db : Session;
  redis : cache.Redis }.

Definition with_db {A} (m : M Session A) : M App A :=
  λ a, let '(r, s) := m (db a) in (r, mkApp s (redis a)).
Definition with_cache {A} (m : M cache.Redis A) : M App A :=
  λ a, let '(r, c) := m (redis a) in (r, mkApp (db a) c).

(** The state that outlives a request. *)
Record World : Type := mkWorld {
  tables : Database;
  server : cache.Redis }.

(** One request: [get_db] opens a session on the store, the handler runs,
    and the session is closed whatever the outcome. *)
Definition serve {A} (handler : M App A) (schedule : list bool) (w : World)
    : exc A * World :=
  let '(r, a) := handler (mkApp (SessionLocal (tables w) schedule) (server w)) in
  (r, mkWorld (close (db a)) (redis a)).

(** [[f x for x in l]] where [f] may raise. *)
Fixpoint for_each {S A B} (f : A → M S B) (l : list A) : M S (list B) :=
  match l with
  | [] => ret []
  | x :: l' =>
      let* y := f x in
      let* ys := for_each f l' in
      ret (y :: ys)
  end.

Definition opt_str (o : option string) : pyval := from_option PStr PNone o.
Definition opt_int (o : option Z) : pyval := from_option PInt PNone o.
Definition opt_float (o : option Q) : pyval := from_option PFloat PNone o.
Definition opt_bool (o : option bool) : pyval := from_option PBool PNone o.

Section main.
Context `{Hashlib, FloatStr, Json, Datetime, DeclarativeBase, Engine}.

(** [sorted(params.items())]: the keys of a dict are distinct, so the pairs
    are ordered by key alone. *)
Definition key_le (a b : string * option scalar) : Prop := String.le a.1 b.1.
Definition sorted_items (params : list (string * option scalar))
    : list (string * option scalar) :=
  merge_sort key_le params.

Definition generate_cache_key (endpoint : string)
    (params : list (string * option scalar)) : string :=
  let param_str :=
    join "&" (omap (λ kv, (λ v, kv.1 +:+ "=" +:+ str v) <$> kv.2)
                   (sorted_items params)) in
  let cache_string := endpoint +:+ "?" +:+ param_str in
  md5_hexdigest cache_string.

(** [value.isoformat()] on a nullable timestamp. *)
Definition isoformat_of {S} (o : option Z) : M S pyval :=
  match o with
  | Some t => ret (PStr (isoformat t))
  | None => raise (AttributeError "'NoneType' object has no attribute 'isoformat'")
  end.

Definition product_dict {S} (item : Product.t) : M S pyval :=
  let* created_at := isoformat_of (Product.created_at item) in
  let* updated_at := isoformat_of (Product.updated_at item) in
  ret (PDict
    [("id", PInt (Product.id item));
     ("name", opt_str (Product.name item));
     ("description", opt_str (Product.description item));
     ("price", opt_float (Product.price item));
     ("category", opt_str (Product.category item));
     ("brand", opt_str (Product.brand item));
     ("stock_quantity", opt_int (Product.stock_quantity item));
     ("rating", opt_float (Product.rating item));
     ("is_active", opt_bool (Product.is_active item));
     ("created_at", created_at);
     ("updated_at", updated_at)]).

Definition user_dict {S} (item : User.t) : M S pyval :=
  let* created_at := isoformat_of (User.created_at item) in
  ret (PDict
    [("id", PInt (User.id item));
     ("email", opt_str (User.email item));
     ("first_name", opt_str (User.first_name item));
     ("last_name", opt_str (User.last_name item));
     ("phone", opt_str (User.phone item));
     ("address", opt_str (User.address item));
     ("city", opt_str (User.city item));
     ("country", opt_str (User.country item));
     ("is_active", opt_bool (User.is_active item));
     ("created_at", created_at)]).

Definition order_dict {S} (item : LoadedOrder) : M S pyval :=
  let* order_date := isoformat_of (Order.order_date (order item)) in
  let* user :=
    match user item with
    | Some u => user_dict u
    | None => ret PNone
    end in
  let* product :=
    match product item with
    | Some p => product_dict p
    | None => ret PNone
    end in
  ret (PDict
    [("id", PInt (Order.id (order item)));
     ("user_id", opt_int (Order.user_id (order item)));
     ("product_id", opt_int (Order.product_id (order item)));
     ("quantity", opt_int (Order.quantity (order item)));
     ("unit_price", opt_float (Order.unit_price (order item)));
     ("total_amount", opt_float (Order.total_amount (order item)));
     ("status", opt_str (Order.status (order item)));
     ("order_date", order_date);
     ("user", user);
     ("product", product)]).

Definition response_data {R} (items_dict : list pyval)
    (result : crud.PageResult R) : pyval :=
  PDict
    [("items", PList items_dict);
     ("total", PInt (crud.total result));
     ("page", PInt (crud.page result));
     ("size", PInt (crud.size result));
     ("pages", PInt (crud.pages result))].

Definition sort_order_known (o : SortOrder.t) : bool :=
  existsb (String.eqb (SortOrder.value o)) ["asc"; "desc"].

Definition get_products (params : ProductQueryParams.t) : M App pyval :=
  let page := ProductQueryParams.page params in
  let size := ProductQueryParams.size params in
  let search := ProductQueryParams.search params in
  let category := ProductQueryParams.category params in
  let brand := ProductQueryParams.brand params in
  let min_price := ProductQueryParams.min_price params in
  let max_price := ProductQueryParams.max_price params in
  let sort_by := ProductSortFields.value (ProductQueryParams.sort_by params) in
  let sort_order := SortOrder.value (ProductQueryParams.sort_order params) in
  (* Additional validation for sort_order *)
  if negb (sort_order_known (ProductQueryParams.sort_order params)) then
    raise (HTTPException 400 "sort_order must be either 'asc' or 'desc'")
  (* Validate other parameters *)
  else if page <? 1 then
    raise (HTTPException 400 "Page must be greater than 0")
  else if (size <? 1) || (1000 <? size) then
    raise (HTTPException 400 "Size must be between 1 and 1000")
  else
    (* Generate cache key *)
    let cache_key :=
      generate_cache_key "products"
        [("page", Some (SInt page)); ("size", Some (SInt size));
         ("search", SStr <$> search); ("category", SStr <$> category);
         ("brand", SStr <$> brand); ("min_price", SFloat <$> min_price);
         ("max_price", SFloat <$> max_price); ("sort_by", Some (SStr sort_by));
         ("sort_order", Some (SStr sort_order))] in
    (* Try to get from cache *)
    let* cached_result := with_cache (cache.get cache_key) in
    if truthy cached_result then ret cached_result
    else
      let skip := (page - 1) * size in
      let* result :=
        with_db (crud.get_products skip size search category brand min_price
                   max_price sort_by sort_order) in
      let* items_dict := for_each product_dict (crud.items result) in
      let response_data := response_data items_dict result in
      (* Cache the result for 5 minutes *)
      let* _ := with_cache (cache.set cache.cache cache_key response_data (Some 300)) in
      ret response_data.

Definition get_users (params : UserQueryParams.t) : M App pyval :=
  let page := UserQueryParams.page params in
  let size := UserQueryParams.size params in
  let search := UserQueryParams.search params in
  let city := UserQueryParams.city params in
  let country := UserQueryParams.country params in
  let sort_by := UserSortFields.value (UserQueryParams.sort_by params) in
  let sort_order := SortOrder.value (UserQueryParams.sort_order params) in
  if negb (sort_order_known (UserQueryParams.sort_order params)) then
    raise (HTTPException 400 "sort_order must be either 'asc' or 'desc'")
  else if page <? 1 then
    raise (HTTPException 400 "Page must be greater than 0")
  else if (size <? 1) || (1000 <? size) then
    raise (HTTPException 400 "Size must be between 1 and 1000")
  else
    let cache_key :=
      generate_cache_key "users"
        [("page", Some (SInt page)); ("size", Some (SInt size));
         ("search", SStr <$> search); ("city", SStr <$> city);
         ("country", SStr <$> country); ("sort_by", Some (SStr sort_by));
         ("sort_order", Some (SStr sort_order))] in
    let* cached_result := with_cache (cache.get cache_key) in
    if truthy cached_result then ret cached_result
    else
      let skip := (page - 1) * size in
      let* result :=
        with_db (crud.get_users skip size search city country sort_by
                   sort_order) in
      let* items_dict := for_each user_dict (crud.items result) in
      let response_data := response_data items_dict result in
      let* _ := with_cache (cache.set cache.cache cache_key response_data (Some 300)) in
      ret response_data.

Definition get_orders (params : OrderQueryParams.t) : M App pyval :=
  let page := OrderQueryParams.page params in
  let size := OrderQueryParams.size params in
  let user_id := OrderQueryParams.user_id params in
  let status := OrderStatus.value <$> OrderQueryParams.status params in
  let sort_by := OrderSortFields.value (OrderQueryParams.sort_by params) in
  let sort_order := SortOrder.value (OrderQueryParams.sort_order params) in
  if negb (sort_order_known (OrderQueryParams.sort_order params)) then
    raise (HTTPException 400 "sort_order must be either 'asc' or 'desc'")
  else if page <? 1 then
    raise (HTTPException 400 "Page must be greater than 0")
  else if (size <? 1) || (1000 <? size) then
    raise (HTTPException 400 "Size must be between 1 and 1000")
  else if match user_id with Some u => u <? 1 | None => false end then
    raise (HTTPException 400 "User ID must be greater than 0")
  else
    let cache_key :=
      generate_cache_key "orders"
        [("page", Some (SInt page)); ("size", Some (SInt size));
         ("user_id", SInt <$> user_id); ("status", SStr <$> status);
         ("sort_by", Some (SStr sort_by));
         ("sort_order", Some (SStr sort_order))] in
    let* cached_result := with_cache (cache.get cache_key) in
    if truthy cached_result then ret cached_result
    else
      let skip := (page - 1) * size in
      let* result :=
        with_db (crud.get_orders skip size user_id status sort_by
                   sort_order) in
      let* items_dict := for_each order_dict (crud.items result) in
      let response_data := response_data items_dict result in
      let* _ := with_cache (cache.set cache.cache cache_key response_data (Some 300)) in
      ret response_data.

Definition truncate_all_data_endpoint : M App pyval :=
  try_except
    (let* result := with_db crud.truncate_all_data in
     (* Clear all Redis cache after truncating data *)
     let* _ := with_cache (cache.clear_pattern "*") in
     if crud.success result then
       let counts := crud.deleted_counts result in
       ret (PDict
         [("message", PStr (crud.message result));
          ("deleted_counts",
           PDict [("orders", PInt (crud.orders_deleted counts));
                  ("users", PInt (crud.users_deleted counts));
                  ("products", PInt (crud.products_deleted counts))]);
          ("cache_cleared", PBool true)])
     else raise (HTTPException 500 (crud.message result)))
    (λ e, raise (HTTPException 500 ("Failed to truncate data: " +:+ exn_str e))).

(** The routes that [app] registers for the handlers above. *)
Inductive Request : Type :=
| GET_products (params : ProductQueryParams.t)
| GET_users (params : UserQueryParams.t)
| GET_orders (params : OrderQueryParams.t)
| DELETE_truncate_all.

Definition app (request : Request) : M App pyval :=
  match request with
  | GET_products params => get_products params
  | GET_users params => get_users params
  | GET_orders params => get_orders params
  | DELETE_truncate_all => truncate_all_data_endpoint
  end.

End main.

End main.

(** ** An executable Python runtime

    Instances of the library interfaces, so that the model runs on concrete
    requests.  No theorem about the package depends on them. *)

Module runtime.
Import py models.

Definition hex_digit (n : Z) : ascii :=
  ascii_of_nat (Z.to_nat (if n <? 10 then 48 + n else 87 + n)).
Definition hex_byte (b : Z) : string :=
  String (hex_digit (b / 16)) (String (hex_digit (b mod 16)) EmptyString).

(** *** hashlib.md5 (RFC 1321) *)

Definition w32 (x : Z) : Z := Z.land x (Z.ones 32).
Definition rotl (x c : Z) : Z :=
  w32 (Z.lor (Z.shiftl x c) (Z.shiftr x (32 - c))).
Definition md5_shifts : list Z :=
  [7; 12; 17; 22; 7; 12; 17; 22; 7; 12; 17; 22; 7; 12; 17; 22;
   5; 9; 14; 20; 5; 9; 14; 20; 5; 9; 14; 20; 5; 9; 14; 20;
   4; 11; 16; 23; 4; 11; 16; 23; 4; 11; 16; 23; 4; 11; 16; 23;
   6; 10; 15; 21; 6; 10; 15; 21; 6; 10; 15; 21; 6; 10; 15; 21].
Definition md5_sines : list Z :=
  [3614090360; 3905402710; 606105819; 3250441966; 4118548399; 1200080426;
   2821735955; 4249261313; 1770035416; 2336552879; 4294925233; 2304563134;
   1804603682; 4254626195; 2792965006; 1236535329; 4129170786; 3225465664;
   643717713; 3921069994; 3593408605; 38016083; 3634488961; 3889429448;
   568446438; 3275163606; 4107603335; 1163531501; 2850285829; 4243563512;
   1735328473; 2368359562; 4294588738; 2272392833; 1839030562; 4259657740;
   2763975236; 1272893353; 4139469664; 3200236656; 681279174; 3936430074;
   3572445317; 76029189; 3654602809; 3873151461; 530742520; 3299628645;
   4096336452; 1126891415; 2878612391; 4237533241; 1700485571; 2399980690;
   4293915773; 2240044497; 1873313359; 4264355552; 2734768916; 1309151649;
   4149444226; 3174756917; 718787259; 3951481745].

Definition md5_pad (msg : list Z) : list Z :=
  let n := Z.of_nat (length msg) in
  let zeros := Z.to_nat ((55 - n) mod 64) in
  msg ++ [128] ++ replicate zeros 0
      ++ List.map (λ i, Z.shiftr (8 * n) (8 * Z.of_nat i) mod 256) (seq 0 8).

Fixpoint chunks (fuel : nat) (size : nat) (l : list Z) : list (list Z) :=
  match fuel, l with
  | _, [] => []
  | O, _ => []
  | S fuel', _ => take size l :: chunks fuel' size (drop size l)
  end.
Definition le_word (bytes : list Z) : Z :=
  foldr (λ b acc, b + 256 * acc) 0 bytes.
Definition le_bytes (w : Z) : list Z :=
  List.map (λ i, Z.shiftr w (8 * Z.of_nat i) mod 256) (seq 0 4).

Definition md5_round (words : list Z) (st : Z * Z * Z * Z) (i : nat)
    : Z * Z * Z * Z :=
  let '(a, b, c, d) := st in
  let j := Z.of_nat i in
  let '(f, g) :=
    if j <? 16 then (Z.lor (Z.land b c) (Z.land (Z.lxor b (Z.ones 32)) d), j)
    else if j <? 32 then
      (Z.lor (Z.land d b) (Z.land (Z.lxor d (Z.ones 32)) c), (5 * j + 1) mod 16)
    else if j <? 48 then (Z.lxor b (Z.lxor c d), (3 * j + 5) mod 16)
    else (Z.lxor c (Z.lor b (Z.lxor d (Z.ones 32))), (7 * j) mod 16) in
  let f := w32 (f + a + nth i md5_sines 0 + nth (Z.to_nat g) words 0) in
  (d, w32 (b + rotl f (nth i md5_shifts 0)), b, c).

Definition md5_chunk (st : Z * Z * Z * Z) (chunk : list Z) : Z * Z * Z * Z :=
  let words := List.map le_word (chunks 16 4 chunk) in
  let '(a0, b0, c0, d0) := st in
  let '(a, b, c, d) := fold_left (md5_round words) (seq 0 64) st in
  (w32 (a0 + a), w32 (b0 + b), w32 (c0 + c), w32 (d0 + d)).

Definition md5 (msg : string) : string :=
  let bytes := List.map (λ c, Z.of_nat (nat_of_ascii c)) (list_ascii_of_string msg) in
  let padded := md5_pad bytes in
  let '(a, b, c, d) :=
    fold_left md5_chunk (chunks (length padded) 64 padded)
      (1732584193, 4023233417, 2562383102, 271733878) in
  String.concat EmptyString (List.map hex_byte (le_bytes a ++ le_bytes b ++ le_bytes c ++ le_bytes d)).

Definition hashlib : Hashlib := {| md5_hexdigest := md5 |}.

(** *** str(float)

    The exact decimal expansion of a rational whose denominator divides a
    power of ten, with at least one fractional digit.  This agrees with
    Python on the floats whose shortest representation is exact, such as
    [12.5]. *)
Fixpoint decimal_places (fuel : nat) (num den : Z) : Z * nat :=
  match fuel with
  | O => (num / den, O)
  | S fuel' =>
      if Z.eqb (num mod den) 0 then (num / den, O)
      else let '(digits, k) := decimal_places fuel' (10 * num) den in (digits, S k)
  end.
Fixpoint zero_pad (width : nat) (s : string) : string :=
  match width - String.length s with
  | O => s
  | S _ => match width with
           | O => s
           | S w => String "0" (zero_pad w s)
           end
  end%nat.
Definition float_repr (q : Q) : string :=
  let den := Z.pos (Qden q) in
  let '(digits, k) := decimal_places (Pos.to_nat (Pos.size (Qden q)) * 4) (Z.abs (Qnum q)) den in
  let sign := if Qnum q <? 0 then "-" else EmptyString in
  let whole := digits / 10 ^ Z.of_nat k in
  let frac := digits mod 10 ^ Z.of_nat k in
  sign +:+ pretty whole +:+ "." +:+
  (if Nat.eqb k 0 then "0" else zero_pad k (pretty frac)).

Definition floatstr : FloatStr := {| float_str := float_repr |}.

(** *** datetime.isoformat for a naive timestamp in microseconds since
    1970-01-01 *)
Definition civil (days : Z) : Z * Z * Z :=
  let z := days + 719468 in
  let era := z / 146097 in
  let doe := z - era * 146097 in
  let yoe := (doe - doe / 1460 + doe / 36524 - doe / 146096) / 365 in
  let doy := doe - (365 * yoe + yoe / 4 - yoe / 100) in
  let mp := (5 * doy + 2) / 153 in
  let d := doy - (153 * mp + 2) / 5 + 1 in
  let m := if mp <? 10 then mp + 3 else mp - 9 in
  let y := yoe + era * 400 + (if m <=? 2 then 1 else 0) in
  (y, m, d).
Definition iso (t : Z) : string :=
  let day := 86400000000 in
  let '(y, m, d) := civil (t / day) in
  let us := t mod day in
  let secs := us / 1000000 in
  zero_pad 4 (pretty y) +:+ "-" +:+ zero_pad 2 (pretty m) +:+ "-"
  +:+ zero_pad 2 (pretty d) +:+ "T" +:+ zero_pad 2 (pretty (secs / 3600))
  +:+ ":" +:+ zero_pad 2 (pretty (secs / 60 mod 60)) +:+ ":"
  +:+ zero_pad 2 (pretty (secs mod 60))
  +:+ (if Z.eqb (us mod 1000000) 0 then EmptyString
       else "." +:+ zero_pad 6 (pretty (us mod 1000000))).

Definition datetime : Datetime := {| isoformat := iso |}.

(** *** A sample of the attributes a mapped class inherits *)
Definition base : DeclarativeBase :=
  {| inherited_attr := λ name,
       existsb (String.eqb name)
         ["metadata"; "registry"; "__init__"; "__class__"; "__dict__";
          "__doc__"; "__module__"; "__table__"; "__mapper__"; "__eq__";
          "__hash__"; "__repr__"; "__str__"] |}.

(** A store that merge-sorts the rows as the table holds them, whatever the
    OFFSET and LIMIT. *)
Definition engine : database.Engine :=
  {| database.order_by_rows R le _ _ rows :=
       merge_sort (λ a b, Is_true (le a b)) rows;
     database.order_by_rows_Permutation R le _ _ rows :=
       merge_sort_Permutation (λ a b, Is_true (le a b)) rows;
     database.order_by_rows_Sorted R le _ _ rows total :=
       @Sorted_merge_sort R (λ a b, Is_true (le a b)) _ total rows |}.

(** *** json.dumps and json.loads

    The encoder writes what [json.dumps] writes for the JSON data model
    (separators [", "] and [": "], non-printable characters escaped); a
    character of a string is a code point below 256.  The decoder reads
    that syntax back, numbers without an exponent. *)
Definition dquote : ascii := ascii_of_nat 34.
Definition escape_char (c : ascii) : string :=
  let n := Z.of_nat (nat_of_ascii c) in
  if Ascii.eqb c dquote then String "\" (String dquote EmptyString) else
  if Ascii.eqb c "\" then "\\" else
  if Z.eqb n 10 then "\n" else
  if Z.eqb n 13 then "\r" else
  if Z.eqb n 9 then "\t" else
  if Z.eqb n 8 then "\b" else
  if Z.eqb n 12 then "\f" else
  if (n <? 32) || (126 <? n) then "\u00" +:+ hex_byte n
  else String c EmptyString.
Fixpoint escape (s : string) : string :=
  match s with
  | EmptyString => EmptyString
  | String c s' => escape_char c +:+ escape s'
  end.
Definition quote (s : string) : string :=
  String dquote (escape s +:+ String dquote EmptyString).

Fixpoint dumps (v : pyval) : string :=
  match v with
  | PNone => "null"
  | PBool b => if b then "true" else "false"
  | PInt z => pretty z
  | PFloat q => float_repr q
  | PStr s => quote s
  | PList l => "[" +:+ join ", " (List.map dumps l) +:+ "]"
  | PDict d =>
      "{" +:+ join ", " (List.map (λ kv, quote kv.1 +:+ ": " +:+ dumps kv.2) d)
      +:+ "}"
  end.

Definition is_space (c : ascii) : bool :=
  let n := nat_of_ascii c in
  Nat.eqb n 32 || Nat.eqb n 9 || Nat.eqb n 10 || Nat.eqb n 13.
Fixpoint skip_ws (s : string) : string :=
  match s with
  | String c s' => if is_space c then skip_ws s' else s
  | EmptyString => s
  end.
Definition digit_of (c : ascii) : option Z :=
  let n := Z.of_nat (nat_of_ascii c) in
  if (48 <=? n) && (n <=? 57) then Some (n - 48) else None.
Definition hex_of (c : ascii) : option Z :=
  let n := Z.of_nat (nat_of_ascii c) in
  if (48 <=? n) && (n <=? 57) then Some (n - 48)
  else if (97 <=? n) && (n <=? 102) then Some (n - 87)
  else if (65 <=? n) && (n <=? 70) then Some (n - 55)
  else None.
(** Digits read so far, their number, and the rest of the input. *)
Fixpoint read_digits (s : string) (acc : Z) (count : nat) : Z * nat * string :=
  match s with
  | String c s' =>
      match digit_of c with
      | Some d => read_digits s' (10 * acc + d) (S count)
      | None => (acc, count, s)
      end
  | EmptyString => (acc, count, s)
  end.
Definition read_number (s : string) : option (pyval * string) :=
  let '(negative, s) :=
    match s with String "-" s' => (true, s') | _ => (false, s) end in
  let sign := if negative : bool then (-1) else 1 in
  let '(whole, n, rest) := read_digits s 0 O in
  match n, rest with
  | O, _ => None
  | _, String "." rest' =>
      let '(digits, k, rest'') := read_digits rest' whole O in
      match k with
      | O => None
      | _ => Some (PFloat (Qred (Qmake (sign * digits) (Z.to_pos (10 ^ Z.of_nat k)))),
                   rest'')
      end
  | _, _ => Some (PInt (sign * whole), rest)
  end.
(** The body of a string literal, after the opening quote. *)
Fixpoint read_string (s : string) (acc : string) : option (string * string) :=
  match s with
  | EmptyString => None
  | String "\" (String "u" (String a (String b (String c (String d rest))))) =>
      match hex_of a, hex_of b, hex_of c, hex_of d with
      | Some 0, Some 0, Some x, Some y =>
          read_string rest (String (ascii_of_nat (Z.to_nat (16 * x + y))) acc)
      | _, _, _, _ => None
      end
  | String "\" (String e rest) =>
      let plain (n : nat) := read_string rest (String (ascii_of_nat n) acc) in
      if Ascii.eqb e dquote then plain 34%nat else
      if Ascii.eqb e "\" then plain 92%nat else
      if Ascii.eqb e "/" then plain 47%nat else
      if Ascii.eqb e "n" then plain 10%nat else
      if Ascii.eqb e "r" then plain 13%nat else
      if Ascii.eqb e "t" then plain 9%nat else
      if Ascii.eqb e "b" then plain 8%nat else
      if Ascii.eqb e "f" then plain 12%nat else None
  | String c rest =>
      if Ascii.eqb c dquote then Some (String.rev acc, rest)
      else read_string rest (String c acc)
  end.
Definition expect (word : string) (v : pyval) (s : string) : option (pyval * string) :=
  if String.prefix word s
  then Some (v, String.substring (String.length word)
                  (String.length s - String.length word) s)
  else None.
(** [d[k] = v] on a dict under construction. *)
Fixpoint dict_set (d : list (string * pyval)) (k : string) (v : pyval)
    : list (string * pyval) :=
  match d with
  | [] => [(k, v)]
  | (k', v') :: d' =>
      if String.eqb k' k then (k', v) :: d' else (k', v') :: dict_set d' k v
  end.

Fixpoint read_value (fuel : nat) (s : string) : option (pyval * string) :=
  match fuel with
  | O => None
  | S fuel' =>
      match skip_ws s with
      | String "n" _ as s' => expect "null" PNone s'
      | String "t" _ as s' => expect "true" (PBool true) s'
      | String "f" _ as s' => expect "false" (PBool false) s'
      | String "[" rest =>
          match skip_ws rest with
          | String "]" rest' => Some (PList [], rest')
          | _ => '(l, rest') ← read_elements fuel' rest; Some (PList l, rest')
          end
      | String "{" rest =>
          match skip_ws rest with
          | String "}" rest' => Some (PDict [], rest')
          | _ => '(d, rest') ← read_members fuel' rest []; Some (PDict d, rest')
          end
      | String c rest as s' =>
          if Ascii.eqb c dquote
          then '(str, rest') ← read_string rest EmptyString;
               Some (PStr str, rest')
          else read_number s'
      | EmptyString => None
      end
  end
with read_elements (fuel : nat) (s : string) : option (list pyval * string) :=
  match fuel with
  | O => None
  | S fuel' =>
      '(v, rest) ← read_value fuel' s;
      match skip_ws rest with
      | String "," rest' =>
          '(l, rest'') ← read_elements fuel' rest'; Some (v :: l, rest'')
      | String "]" rest' => Some ([v], rest')
      | _ => None
      end
  end
with read_members (fuel : nat) (s : string) (d : list (string * pyval))
    : option (list (string * pyval) * string) :=
  match fuel with
  | O => None
  | S fuel' =>
      match skip_ws s with
      | String c rest =>
          if Ascii.eqb c dquote then
            '(k, rest) ← read_string rest EmptyString;
            match skip_ws rest with
            | String ":" rest =>
                '(v, rest) ← read_value fuel' rest;
                let d := dict_set d k v in
                match skip_ws rest with
                | String "," rest' => read_members fuel' rest' d
                | String "}" rest' => Some (d, rest')
                | _ => None
                end
            | _ => None
            end
          else None
      | EmptyString => None
      end
  end.

Definition loads (s : string) : option pyval :=
  '(v, rest) ← read_value (2 * String.length s + 2) s;
  match skip_ws rest with
  | EmptyString => Some v
  | _ => None
  end.

Definition json : Json := {| json_dumps := dumps; json_loads := loads |}.

End runtime.

(** ** Vocabulary of the specification *)

Module spec.
Import py models database schemas.

(** *** Key encoder *)

(** The parameters of a mapping that are present, in the order of the
    list. *)
Definition present (params : list (string * option scalar))
    : list (string * scalar) :=
  omap (λ kv, (λ v, (kv.1, v)) <$> kv.2) params.

(** *** Backends *)

(** The Redis state after a command went over the connection. *)
Definition sent (c : cache.command) (r : cache.Redis) : cache.Redis :=
  cache.mkRedis (cache.store r) (cache.now r) (tail (cache.faults r))
    (cache.log r ++ [c]).
(** The connection carries the next command. *)
Definition reachable (r : cache.Redis) : Prop :=
  head (cache.faults r) ≠ Some true.

(** The session after a statement went to the store. *)
Definition issued (st : statement) (s : Session) : Session :=
  mkSession (committed s) (pending s) (tail (faults s)) (log s ++ [st]).
(** The next statement fails. *)
Definition failing (schedule : list bool) : bool :=
  match schedule with true :: _ => true | _ => false end.
(** None of the next [n] statements fails. *)
Definition healthy (n : nat) (schedule : list bool) : bool :=
  forallb negb (take n schedule).

Definition empty_tables : Database := mkDatabase [] [] [].
Definition row_counts (d : Database) : crud.DeletedCounts :=
  crud.mkCounts (Z.of_nat (length (orders d))) (Z.of_nat (length (users d)))
    (Z.of_nat (length (products d))).

(** *** Filter sets

    A filter set names, per filter, a value or nothing. *)
Record ProductFilters : Type := mkProductFilters {
  f_search : option string;
  f_category : option string;
  f_brand : option string;
  f_min_price : option Q;
  f_max_price : option Q }.
Record UserFilters : Type := mkUserFilters {
  u_search : option string;
  u_city : option string;
  u_country : option string }.

(** **** The filter sets as the specification reads them

    A row satisfies a filter set when it passes every filter that is
    given.  The search filter is a case-insensitive substring test, passed
    when one of the three text fields of the entity holds the term; a
    categorical filter is an equality; the price bounds are inclusive.  A
    field that is NULL holds no text, equals no value and lies in no
    range. *)
Fixpoint starts_with (term text : string) : bool :=
  match term, text with
  | EmptyString, _ => true
  | String a term', String b text' => Ascii.eqb a b && starts_with term' text'
  | String _ _, EmptyString => false
  end.
(** [term] occurs in [text] as a run of consecutive characters. *)
Fixpoint occurs (term text : string) : bool :=
  starts_with term text
  || match text with
     | EmptyString => false
     | String _ text' => occurs term text'
     end.
(** The field holds the term, letter case aside. *)
Definition holds (field : option string) (term : string) : bool :=
  match field with
  | Some text => occurs (lower term) (lower text)
  | None => false
  end.
Definition product_satisfies (F : ProductFilters) (r : Product.t) : bool :=
  opt_all (λ term, holds (Product.name r) term
                   || holds (Product.description r) term
                   || holds (Product.brand r) term) (f_search F)
  && opt_all (eq_str (Product.category r)) (f_category F)
  && opt_all (eq_str (Product.brand r)) (f_brand F)
  && opt_all (ge_float (Product.price r)) (f_min_price F)
  && opt_all (le_float (Product.price r)) (f_max_price F).
Definition user_satisfies (F : UserFilters) (r : User.t) : bool :=
  opt_all (λ term, holds (User.first_name r) term
                   || holds (User.last_name r) term
                   || holds (User.email r) term) (u_search F)
  && opt_all (eq_str (User.city r)) (u_city F)
  && opt_all (eq_str (User.country r)) (u_country F).

(** The characters that [LIKE] does not read literally, and the search
    terms that hold none of them. *)
Definition wildcard (c : ascii) : bool :=
  Ascii.eqb c "%" || Ascii.eqb c "_" || Ascii.eqb c "\".
Fixpoint literal (s : string) : bool :=
  match s with
  | EmptyString => true
  | String c s' => negb (wildcard c) && literal s'
  end.
Definition literal_search (search : option string) : bool :=
  opt_all literal search.

(** **** The criteria as the list functions build them

    crud.py: the conjunction of the filters that [get_products] and
    [get_users] append, as one predicate on rows.  The search filter is the
    pattern match of the store, [ILIKE '%search%'] on each of the three
    text fields, with the term put in the pattern as it is. *)
Definition product_criterion (F : ProductFilters) (r : Product.t) : bool :=
  opt_all (λ s, let p := "%" +:+ s +:+ "%" in
                ilike (Product.name r) p || ilike (Product.description r) p
                || ilike (Product.brand r) p) (f_search F)
  && opt_all (eq_str (Product.category r)) (f_category F)
  && opt_all (eq_str (Product.brand r)) (f_brand F)
  && opt_all (ge_float (Product.price r)) (f_min_price F)
  && opt_all (le_float (Product.price r)) (f_max_price F).
Definition user_criterion (F : UserFilters) (r : User.t) : bool :=
  opt_all (λ s, let p := "%" +:+ s +:+ "%" in
                ilike (User.first_name r) p || ilike (User.last_name r) p
                || ilike (User.email r) p) (u_search F)
  && opt_all (eq_str (User.city r)) (u_city F)
  && opt_all (eq_str (User.country r)) (u_country F).

(** Orders have no free-text search: a filter set holds the two
    equalities. *)
Record OrderFilters : Type := mkOrderFilters {
  o_user_id : option Z;
  o_status : option string }.
Definition order_satisfies (F : OrderFilters) (r : LoadedOrder) : bool :=
  opt_all (eq_int (Order.user_id (order r))) (o_user_id F)
  && opt_all (eq_str (Order.status (order r))) (o_status F).

(** A text filter that is the empty string, and a user id that is zero,
    count as not given. *)
Definition specified (o : option string) : option string :=
  if truthy_str o then o else None.
Definition specified_id (o : option Z) : option Z :=
  if truthy_int o then o else None.
Definition product_effective (F : ProductFilters) : ProductFilters :=
  mkProductFilters (specified (f_search F)) (specified (f_category F))
    (specified (f_brand F)) (f_min_price F) (f_max_price F).
Definition user_effective (F : UserFilters) : UserFilters :=
  mkUserFilters (specified (u_search F)) (specified (u_city F))
    (specified (u_country F)).
Definition order_effective (F : OrderFilters) : OrderFilters :=
  mkOrderFilters (specified_id (o_user_id F)) (specified (o_status F)).

(** *** Sorting *)

(** The row order a [sort_order] argument selects. *)
Definition direction {R} (sort_order : string)
    : (R → cell) → R → R → bool :=
  if String.eqb (lower sort_order) "desc" then descending else ascending.
(** Consecutive rows are in the given order. *)
Definition in_order {R} (le : R → R → bool) (rows : list R) : Prop :=
  Sorted (λ a b, Is_true (le a b)) rows.

(** The column an allowed sort field names. *)
Definition product_column (f : ProductSortFields.t) : Product.column :=
  match f with
  | ProductSortFields.id => Product.c_id
  | ProductSortFields.name => Product.c_name
  | ProductSortFields.price => Product.c_price
  | ProductSortFields.category => Product.c_category
  | ProductSortFields.brand => Product.c_brand
  | ProductSortFields.stock_quantity => Product.c_stock_quantity
  | ProductSortFields.rating => Product.c_rating
  | ProductSortFields.created_at => Product.c_created_at
  | ProductSortFields.updated_at => Product.c_updated_at
  end.
Definition user_column (f : UserSortFields.t) : User.column :=
  match f with
  | UserSortFields.id => User.c_id
  | UserSortFields.email => User.c_email
  | UserSortFields.first_name => User.c_first_name
  | UserSortFields.last_name => User.c_last_name
  | UserSortFields.city => User.c_city
  | UserSortFields.country => User.c_country
  | UserSortFields.created_at => User.c_created_at
  end.
Definition order_column (f : OrderSortFields.t) : Order.column :=
  match f with
  | OrderSortFields.id => Order.c_id
  | OrderSortFields.user_id => Order.c_user_id
  | OrderSortFields.product_id => Order.c_product_id
  | OrderSortFields.quantity => Order.c_quantity
  | OrderSortFields.unit_price => Order.c_unit_price
  | OrderSortFields.total_amount => Order.c_total_amount
  | OrderSortFields.status => Order.c_status
  | OrderSortFields.order_date => Order.c_order_date
  end.
Definition order_key (c : Order.column) (r : LoadedOrder) : cell :=
  Order.get c (order r).

(** The column that a [sort_by] argument selects: the column that an
    allowed sort field names, and the identity column for a name that is
    no attribute of the mapped class. *)
Definition sort_target `{DeclarativeBase} {C F} (columns : list (string * C))
    (others : list string) (value : F → string) (column : F → C) (id : C)
    (sort_by : string) (c : C) : Prop :=
  (class_getattr columns others sort_by = None ∧ c = id)
  ∨ (∃ f, sort_by = value f ∧ c = column f).
Definition product_sort_target `{DeclarativeBase} : string → Product.column → Prop :=
  sort_target Product.columns Product.others ProductSortFields.value
    product_column Product.c_id.
Definition user_sort_target `{DeclarativeBase} : string → User.column → Prop :=
  sort_target User.columns User.others UserSortFields.value user_column
    User.c_id.
Definition order_sort_target `{DeclarativeBase} : string → Order.column → Prop :=
  sort_target Order.columns Order.others OrderSortFields.value order_column
    Order.c_id.

(** [items] is the page at [skip], of at most [limit] rows, of [rows] put
    in the given order. *)
Definition sorted_page {R} (le : R → R → bool) (rows : list R)
    (skip limit : Z) (items : list R) : Prop :=
  ∃ sorted,
    sorted ≡ₚ rows ∧ in_order le sorted
    ∧ items = take (Z.to_nat limit) (drop (Z.to_nat skip) sorted).

(** *** The outcome of a list function

    What the three list functions do after the count went through: sort,
    slice and compute the page metadata of the matching rows. *)
Definition page_of_rows `{Engine} {R C} (tbl : string) (get : C → R → cell)
    (sort_column : attr C) (sort_order : string) (skip limit : Z)
    (rows : list R) (s1 : Session) : exc (crud.PageResult R) * Session :=
  let s2 := issued (Select tbl) s1 in
  match sort_column with
  | NotColumn =>
      (Raise (AttributeError (if String.eqb (lower sort_order) "desc"
                              then "object has no attribute 'desc'"
                              else "object has no attribute 'asc'")), s1)
  | Column c =>
      if failing (faults s1) then (Raise (SQLAlchemyError "storage failure"), s2)
      else if (skip <? 0) || (limit <? 0) then
        (Raise (SQLAlchemyError "OFFSET and LIMIT must not be negative"), s2)
      else if Z.eqb limit 0 then
        (Raise (ZeroDivisionError "integer division or modulo by zero"), s2)
      else (Ok (crud.mkPage
                  (slice (Some skip) (Some limit)
                     (ordered (Some (direction sort_order (get c)))
                        (Some skip) (Some limit) rows))
                  (Z.of_nat (length rows)) (skip / limit + 1) limit
                  (ceil (inject_Z (Z.of_nat (length rows)) / inject_Z limit))),
            s2)
  end.

(** *** Requests *)

(** The page number and page size of a list request. *)
Definition page_size (request : main.Request) : option (Z * Z) :=
  match request with
  | main.GET_products p =>
      Some (ProductQueryParams.page p, ProductQueryParams.size p)
  | main.GET_users p => Some (UserQueryParams.page p, UserQueryParams.size p)
  | main.GET_orders p =>
      Some (OrderQueryParams.page p, OrderQueryParams.size p)
  | main.DELETE_truncate_all => None
  end.
(** The user id of an order request, when given, is positive. *)
Definition user_id_ok (request : main.Request) : bool :=
  match request with
  | main.GET_orders p => opt_all (Z.leb 1) (OrderQueryParams.user_id p)
  | _ => true
  end.

(** The rows of the table that a list request reads can be put in a
    response: the timestamps that the handler formats are not NULL. *)
Definition product_renders (r : Product.t) : bool :=
  match Product.created_at r, Product.updated_at r with
  | Some _, Some _ => true
  | _, _ => false
  end.
Definition user_renders (r : User.t) : bool :=
  match User.created_at r with Some _ => true | None => false end.
Definition order_renders (r : LoadedOrder) : bool :=
  match Order.order_date (order r) with Some _ => true | None => false end
  && opt_all user_renders (user r) && opt_all product_renders (product r).

(** The request parameters meet the constraints that the schema declares
    for them. *)
Definition schema_valid (request : main.Request) : bool :=
  match request with
  | main.GET_products p => ProductQueryParams.valid p
  | main.GET_users p => UserQueryParams.valid p
  | main.GET_orders p => OrderQueryParams.valid p
  | main.DELETE_truncate_all => true
  end.

(** A computation that never raises an [HTTPException]. *)
Definition no_http {S A} (m : M S A) : Prop :=
  ∀ s code detail, (m s).1 ≠ Raise (HTTPException code detail).

End spec.

(** ** Sample data *)

Module sample.
Import py models database.

Definition t0 : Z := 1709211909000000.

Definition laptop : Product.t :=
  Product.mk 1 (Some "Laptop") (Some "A fast laptop") (Some (1200 # 1))
    (Some "Electronics") (Some "Dell") (Some 5) (Some (9 # 2)) (Some true)
    (Some t0) (Some t0).
Definition novel : Product.t :=
  Product.mk 2 (Some "Novel") (Some "A long book") (Some (25 # 2))
    (Some "Books") (Some "Canon") (Some 40) (Some (4 # 1)) (Some true)
    (Some t0) (Some t0).
Definition phone : Product.t :=
  Product.mk 3 (Some "Phone") (Some "A phone") (Some (300 # 1))
    (Some "Electronics") (Some "Apple") (Some 0) None (Some false)
    (Some t0) (Some t0).

Definition camera : Product.t :=
  Product.mk 4 (Some "Camera") None (Some (450 # 1)) (Some "Electronics")
    (Some "Canon") (Some 3) (Some (5 # 1)) (Some true) (Some t0) (Some t0).
Definition shoes : Product.t :=
  Product.mk 5 (Some "Shoes") (Some "Running shoes") (Some (80 # 1))
    (Some "Sports") (Some "Nike") (Some 12) (Some (7 # 2)) (Some true)
    (Some t0) (Some t0).

Definition ada : User.t :=
  User.mk 1 (Some "ada@example.org") (Some "Ada") (Some "Lovelace") None None
    (Some "London") (Some "UK") (Some true) (Some t0) (Some t0).
Definition alan : User.t :=
  User.mk 2 (Some "alan@example.org") (Some "Alan") (Some "Turing") None None
    (Some "Wilmslow") (Some "UK") (Some true) (Some t0) (Some t0).

Definition order1 : Order.t :=
  Order.mk 1 (Some 1) (Some 1) (Some 1) (Some (1200 # 1)) (Some (1200 # 1))
    (Some "pending") (Some t0).
Definition order2 : Order.t :=
  Order.mk 2 (Some 2) (Some 2) (Some 2) (Some (25 # 2)) (Some (25 # 1))
    (Some "processing") (Some t0).
(** An order whose user is gone. *)
Definition order3 : Order.t :=
  Order.mk 3 (Some 7) (Some 3) (Some 1) (Some (300 # 1)) (Some (300 # 1))
    (Some "shipped") (Some t0).

Definition tables : Database :=
  mkDatabase [laptop; novel; phone; camera; shoes] [ada; alan]
    [order1; order2; order3].
Definition session : Session := SessionLocal tables [].

(** An empty Redis server with a working connection. *)
Definition server : cache.Redis := cache.mkRedis ∅ 1000 [] [].
(** A Redis server that holds one entry and whose connection is down. *)
Definition unreachable : cache.Redis :=
  cache.mkRedis {[ "stats" := cache.mkEntry "{}" 2000 ]} 1000 [true; true] [].

Definition app : main.App := main.mkApp session server.
Definition world : main.World := main.mkWorld tables server.

End sample.

(** ** crud.py: the single-row functions *)

Module crud_item.
Import py models database.
Local Open Scope py_scope.

(** [query.first()]: the query with [LIMIT 1], and its first row or
    [None]. *)
Definition first `{Engine} {R} (q : Query R) : M Session (option R) :=
  let* rows := all (database.limit q 1) in
  ret (head rows).

Definition get_product `{Engine} (product_id : Z)
    : M Session (option Product.t) :=
  first (database.filter (database.query "products" Product_rows)
           (λ r, Z.eqb (Product.id r) product_id)).

Definition get_user `{Engine} (user_id : Z) : M Session (option User.t) :=
  first (database.filter (database.query "users" User_rows)
           (λ r, Z.eqb (User.id r) user_id)).

Definition get_order `{Engine} (order_id : Z)
    : M Session (option LoadedOrder) :=
  first (database.filter (database.query "orders" Order_rows)
           (λ r, Z.eqb (Order.id (order r)) order_id)).

End crud_item.

(** ** main.py: the single-row endpoints, the statistics and the loader
    endpoint *)

Module main_item.
Import py models database main.
Local Open Scope py_scope.

(** [column == True]; NULL is not true. *)
Definition is_true (col : option bool) : bool :=
  match col with Some b => b | None => false end.

Section main_item.
Context `{Json, Datetime, Engine}.

Definition get_product (product_id : Z) : M App pyval :=
  if product_id <? 1 then
    raise (HTTPException 400 "Product ID must be greater than 0")
  else
    let cache_key := "product_" +:+ pretty product_id in
    let* cached_result := with_cache (cache.get cache_key) in
    if truthy cached_result then ret cached_result
    else
      let* product := with_db (crud_item.get_product product_id) in
      match product with
      | None => raise (HTTPException 404 "Product not found")
      | Some product =>
          let* product_dict := product_dict product in
          let* _ := with_cache (cache.set cache.cache cache_key product_dict (Some 600)) in
          ret product_dict
      end.

Definition get_user (user_id : Z) : M App pyval :=
  if user_id <? 1 then
    raise (HTTPException 400 "User ID must be greater than 0")
  else
    let cache_key := "user_" +:+ pretty user_id in
    let* cached_result := with_cache (cache.get cache_key) in
    if truthy cached_result then ret cached_result
    else
      let* user := with_db (crud_item.get_user user_id) in
      match user with
      | None => raise (HTTPException 404 "User not found")
      | Some user =>
          let* user_dict := user_dict user in
          let* _ := with_cache (cache.set cache.cache cache_key user_dict (Some 600)) in
          ret user_dict
      end.

Definition get_order (order_id : Z) : M App pyval :=
  if order_id <? 1 then
    raise (HTTPException 400 "Order ID must be greater than 0")
  else
    let cache_key := "order_" +:+ pretty order_id in
    let* cached_result := with_cache (cache.get cache_key) in
    if truthy cached_result then ret cached_result
    else
      let* order := with_db (crud_item.get_order order_id) in
      match order with
      | None => raise (HTTPException 404 "Order not found")
      | Some order =>
          let* order_dict := order_dict order in
          let* _ := with_cache (cache.set cache.cache cache_key order_dict (Some 600)) in
          ret order_dict
      end.

(** [GET /stats] *)
Definition get_stats : M App pyval :=
  let cache_key := "stats" in
  let* cached_result := with_cache (cache.get cache_key) in
  if truthy cached_result then ret cached_result
  else
    let* total_products :=
      with_db (count (database.query "products" Product_rows)) in
    let* total_users := with_db (count (database.query "users" User_rows)) in
    let* total_orders := with_db (count (database.query "orders" orders)) in
    let* active_products :=
      with_db (count (database.filter (database.query "products" Product_rows)
                        (λ r, is_true (Product.is_active r)))) in
    let* active_users :=
      with_db (count (database.filter (database.query "users" User_rows)
                        (λ r, is_true (User.is_active r)))) in
    let stats :=
      PDict [("total_products", PInt total_products);
             ("total_users", PInt total_users);
             ("total_orders", PInt total_orders);
             ("active_products", PInt active_products);
             ("active_users", PInt active_users)] in
    (* Cache for 1 minute *)
    let* _ := with_cache (cache.set cache.cache cache_key stats (Some 60)) in
    ret stats.

(** [POST /seed-data], for a loader [seed_all_data] of any behaviour. *)
Definition seed_database (seed_all_data : M Session unit) : M App pyval :=
  try_except
    (let* _ := with_db seed_all_data in
     (* Clear all cached data *)
     let* _ := with_cache (cache.clear_pattern "*") in
     ret (PDict [("message", PStr "Database seeded successfully")]))
    (λ e, raise (HTTPException 500 (exn_str e))).

End main_item.

End main_item.

(** ** Vocabulary of the further properties *)

Module props.
Import py models database.

(** The items of the page that a list call returned; nothing when it
    raised. *)
Definition items_of {R} (outcome : exc (crud.PageResult R) * Session) : list R :=
  match outcome.1 with
  | Ok res => crud.items res
  | Raise _ => []
  end.

(** No two of the rows compare equal on the sort key. *)
Definition distinct_keys {R} (key : R → cell) (rows : list R) : Prop :=
  ∀ a b, a ∈ rows → b ∈ rows → cell_compare (key a) (key b) = Eq → a = b.

(** [distinct_keys], decided row by row. *)
Fixpoint keys_differ {R} (key : R → cell) (rows : list R) : bool :=
  match rows with
  | [] => true
  | r :: rows =>
      forallb (λ r', match cell_compare (key r) (key r') with
                     | Eq => false
                     | _ => true
                     end) rows
      && keys_differ key rows
  end.

(** [s] occurs in [t]. *)
Definition substring (s t : string) : Prop := ∃ a b, t = a +:+ s +:+ b.
(** A text column holds a value in which the term occurs, letter case
    aside; a NULL holds nothing. *)
Definition contains (col : option string) (term : string) : Prop :=
  ∃ t, col = Some t ∧ substring (lower term) (lower t).

End props.

(** ** The read requests

    The seven handlers that answer from the cache or from the store, with
    the cache key, the ttl and the store computation of each as the
    handler's source has them. *)

Module reads.
Import py models database schemas main.
Local Open Scope py_scope.

Inductive Read : Type :=
| ListProducts (params : ProductQueryParams.t)
| ListUsers (params : UserQueryParams.t)
| ListOrders (params : OrderQueryParams.t)
| OneProduct (product_id : Z)
| OneUser (user_id : Z)
| OneOrder (order_id : Z)
| Stats.

(** The request passes the checks at the head of its handler. *)
Definition accepted (rq : Read) : bool :=
  match rq with
  | ListProducts p =>
      (1 <=? ProductQueryParams.page p) && (1 <=? ProductQueryParams.size p)
      && (ProductQueryParams.size p <=? 1000)
  | ListUsers p =>
      (1 <=? UserQueryParams.page p) && (1 <=? UserQueryParams.size p)
      && (UserQueryParams.size p <=? 1000)
  | ListOrders p =>
      (1 <=? OrderQueryParams.page p) && (1 <=? OrderQueryParams.size p)
      && (OrderQueryParams.size p <=? 1000)
      && opt_all (Z.leb 1) (OrderQueryParams.user_id p)
  | OneProduct id | OneUser id | OneOrder id => 1 <=? id
  | Stats => true
  end.

(** The seconds for which a handler caches its response. *)
Definition ttl (rq : Read) : Z :=
  match rq with
  | ListProducts _ | ListUsers _ | ListOrders _ => 300
  | OneProduct _ | OneUser _ | OneOrder _ => 600
  | Stats => 60
  end.

(** The tables are the same in both sessions. *)
Definition same_tables (s s' : Session) : Prop :=
  committed s' = committed s ∧ pending s' = pending s.

(** A computation on the application state that reads the store only: its
    outcome and the session it leaves are decided by the session it starts
    in, the tables stay what they are, and the cache is not touched. *)
Definition store_only {A} (m : M App A) : Prop :=
  ∀ s, ∃ x s', same_tables s s'
               ∧ ∀ r, m (mkApp s r) = (x, mkApp s' r).

Section reads.
Context `{Hashlib, FloatStr, Json, Datetime, DeclarativeBase, Engine}.

Definition handler (rq : Read) : M App pyval :=
  match rq with
  | ListProducts p => main.get_products p
  | ListUsers p => main.get_users p
  | ListOrders p => main.get_orders p
  | OneProduct id => main_item.get_product id
  | OneUser id => main_item.get_user id
  | OneOrder id => main_item.get_order id
  | Stats => main_item.get_stats
  end.

Definition cache_key (rq : Read) : string :=
  match rq with
  | ListProducts p =>
      generate_cache_key "products"
        [("page", Some (SInt (ProductQueryParams.page p)));
         ("size", Some (SInt (ProductQueryParams.size p)));
         ("search", SStr <$> ProductQueryParams.search p);
         ("category", SStr <$> ProductQueryParams.category p);
         ("brand", SStr <$> ProductQueryParams.brand p);
         ("min_price", SFloat <$> ProductQueryParams.min_price p);
         ("max_price", SFloat <$> ProductQueryParams.max_price p);
         ("sort_by",
          Some (SStr (ProductSortFields.value (ProductQueryParams.sort_by p))));
         ("sort_order",
          Some (SStr (SortOrder.value (ProductQueryParams.sort_order p))))]
  | ListUsers p =>
      generate_cache_key "users"
        [("page", Some (SInt (UserQueryParams.page p)));
         ("size", Some (SInt (UserQueryParams.size p)));
         ("search", SStr <$> UserQueryParams.search p);
         ("city", SStr <$> UserQueryParams.city p);
         ("country", SStr <$> UserQueryParams.country p);
         ("sort_by",
          Some (SStr (UserSortFields.value (UserQueryParams.sort_by p))));
         ("sort_order",
          Some (SStr (SortOrder.value (UserQueryParams.sort_order p))))]
  | ListOrders p =>
      generate_cache_key "orders"
        [("page", Some (SInt (OrderQueryParams.page p)));
         ("size", Some (SInt (OrderQueryParams.size p)));
         ("user_id", SInt <$> OrderQueryParams.user_id p);
         ("status", SStr <$> (OrderStatus.value <$> OrderQueryParams.status p));
         ("sort_by",
          Some (SStr (OrderSortFields.value (OrderQueryParams.sort_by p))));
         ("sort_order",
          Some (SStr (SortOrder.value (OrderQueryParams.sort_order p))))]
  | OneProduct id => "product_" +:+ pretty id
  | OneUser id => "user_" +:+ pretty id
  | OneOrder id => "order_" +:+ pretty id
  | Stats => "stats"
  end.

(** What a handler does between its cache read and its cache write. *)
Definition compute (rq : Read) : M App pyval :=
  match rq with
  | ListProducts p =>
      let skip := (ProductQueryParams.page p - 1) * ProductQueryParams.size p in
      let* result :=
        with_db (crud.get_products skip (ProductQueryParams.size p)
                   (ProductQueryParams.search p) (ProductQueryParams.category p)
                   (ProductQueryParams.brand p) (ProductQueryParams.min_price p)
                   (ProductQueryParams.max_price p)
                   (ProductSortFields.value (ProductQueryParams.sort_by p))
                   (SortOrder.value (ProductQueryParams.sort_order p))) in
      let* items_dict := for_each product_dict (crud.items result) in
      ret (response_data items_dict result)
  | ListUsers p =>
      let skip := (UserQueryParams.page p - 1) * UserQueryParams.size p in
      let* result :=
        with_db (crud.get_users skip (UserQueryParams.size p)
                   (UserQueryParams.search p) (UserQueryParams.city p)
                   (UserQueryParams.country p)
                   (UserSortFields.value (UserQueryParams.sort_by p))
                   (SortOrder.value (UserQueryParams.sort_order p))) in
      let* items_dict := for_each user_dict (crud.items result) in
      ret (response_data items_dict result)
  | ListOrders p =>
      let skip := (OrderQueryParams.page p - 1) * OrderQueryParams.size p in
      let* result :=
        with_db (crud.get_orders skip (OrderQueryParams.size p)
                   (OrderQueryParams.user_id p)
                   (OrderStatus.value <$> OrderQueryParams.status p)
                   (OrderSortFields.value (OrderQueryParams.sort_by p))
                   (SortOrder.value (OrderQueryParams.sort_order p))) in
      let* items_dict := for_each order_dict (crud.items result) in
      ret (response_data items_dict result)
  | OneProduct id =>
      let* product := with_db (crud_item.get_product id) in
      match product with
      | None => raise (HTTPException 404 "Product not found")
      | Some product => product_dict product
      end
  | OneUser id =>
      let* user := with_db (crud_item.get_user id) in
      match user with
      | None => raise (HTTPException 404 "User not found")
      | Some user => user_dict user
      end
  | OneOrder id =>
      let* order := with_db (crud_item.get_order id) in
      match order with
      | None => raise (HTTPException 404 "Order not found")
      | Some order => order_dict order
      end
  | Stats =>
      let* total_products :=
        with_db (count (database.query "products" Product_rows)) in
      let* total_users := with_db (count (database.query "users" User_rows)) in
      let* total_orders := with_db (count (database.query "orders" orders)) in
      let* active_products :=
        with_db (count (database.filter (database.query "products" Product_rows)
                          (λ r, main_item.is_true (Product.is_active r)))) in
      let* active_users :=
        with_db (count (database.filter (database.query "users" User_rows)
                          (λ r, main_item.is_true (User.is_active r)))) in
      ret (PDict [("total_products", PInt total_products);
                  ("total_users", PInt total_users);
                  ("total_orders", PInt total_orders);
                  ("active_products", PInt active_products);
                  ("active_users", PInt active_users)])
  end.

(** The look-aside protocol that the handlers follow. *)
Definition look_aside (key : string) (seconds : Z) (compute : M App pyval)
    : M App pyval :=
  let* cached_result := with_cache (cache.get key) in
  if truthy cached_result then ret cached_result
  else
    let* response := compute in
    let* _ := with_cache (cache.set cache.cache key response (Some seconds)) in
    ret response.

(** The cache answers a read of the key with a value that counts as a
    result, or with one that does not. *)
Definition hit (key : string) (r : cache.Redis) (v : pyval) : Prop :=
  (cache.get key r).1 = Ok v ∧ truthy v = true.
Definition miss (key : string) (r : cache.Redis) : Prop :=
  ∃ v, (cache.get key r).1 = Ok v ∧ truthy v = false.

(** The response to a read of empty tables that the cache does not
    answer. *)
Definition on_empty_tables (rq : Read) : exc pyval :=
  let page_of page size :=
    Ok (PDict [("items", PList []); ("total", PInt 0); ("page", PInt page);
               ("size", PInt size); ("pages", PInt 0)]) in
  match rq with
  | ListProducts p => page_of (ProductQueryParams.page p) (ProductQueryParams.size p)
  | ListUsers p => page_of (UserQueryParams.page p) (UserQueryParams.size p)
  | ListOrders p => page_of (OrderQueryParams.page p) (OrderQueryParams.size p)
  | OneProduct _ => Raise (HTTPException 404 "Product not found")
  | OneUser _ => Raise (HTTPException 404 "User not found")
  | OneOrder _ => Raise (HTTPException 404 "Order not found")
  | Stats =>
      Ok (PDict [("total_products", PInt 0); ("total_users", PInt 0);
                 ("total_orders", PInt 0); ("active_products", PInt 0);
                 ("active_users", PInt 0)])
  end.

End reads.

End reads.

(** ** Further sample data *)

Module fixture.
Import py models database schemas.

(** A Redis server with a working connection that holds three live
    entries and one that has expired. *)
Definition warm : cache.Redis :=
  cache.mkRedis
    (<["product_1" := cache.mkEntry "[1]" 2000]>
       (<["product_2" := cache.mkEntry "[2]" 1500]>
          (<["stats" := cache.mkEntry "[3]" 1060]>
             (<["users_old" := cache.mkEntry "[4]" 900]> ∅))))
    1000 [] [].

(** A store that reads the table backwards for a statement with a
    positive OFFSET, and merge-sorts what it read: the order of rows that
    compare equal follows the direction of the scan. *)
Definition backwards (off : option Z) : bool :=
  match off with
  | Some (Z.pos _) => true
  | _ => false
  end.
Definition scan {R} (off : option Z) (rows : list R) : list R :=
  if backwards off then reverse rows else rows.

Definition backward_engine : Engine :=
  {| order_by_rows R le off _ rows :=
       merge_sort (λ a b, Is_true (le a b)) (scan off rows);
     order_by_rows_Permutation R le off _ rows :=
       transitivity
         (merge_sort_Permutation (λ a b, Is_true (le a b)) (scan off rows))
         (match backwards off as b
                return (if b then reverse rows else rows) ≡ₚ rows with
          | true => reverse_Permutation rows
          | false => reflexivity rows
          end);
     order_by_rows_Sorted R le off _ rows total :=
       @Sorted_merge_sort R (λ a b, Is_true (le a b)) _ total (scan off rows) |}.

(** The second page of two products, dearest first. *)
Definition products_page : reads.Read :=
  reads.ListProducts
    (ProductQueryParams.mk 2 2 None None None None None
       ProductSortFields.price SortOrder.desc).

(** The statistics of the sample tables. *)
Definition stats : pyval :=
  PDict [("total_products", PInt 5); ("total_users", PInt 2);
         ("total_orders", PInt 3); ("active_products", PInt 4);
         ("active_users", PInt 2)].

(** A product whose creation time is NULL, and the sample tables with
    it. *)
Definition undated : Product.t :=
  Product.mk 6 (Some "Tablet") None (Some (200 # 1)) (Some "Electronics")
    (Some "Apple") (Some 1) None (Some true) None (Some sample.t0).
Definition undated_tables : Database :=
  mkDatabase (products sample.tables ++ [undated]) (users sample.tables)
    (orders sample.tables).

(** The first page of ten products, and a request within the bounds of
    the schema. *)
Definition first_page : ProductQueryParams.t :=
  ProductQueryParams.mk 1 10 None None None None None ProductSortFields.id
    SortOrder.asc.
Definition priced : ProductQueryParams.t :=
  ProductQueryParams.mk 1 10 None None None (Some (10 # 1)) (Some (20 # 1))
    ProductSortFields.id SortOrder.asc.

(** A loader that commits one more user and then fails. *)
Definition failing_loader : M Session unit :=
  λ s,
    let d := mkDatabase (products (pending s))
               (users (pending s) ++
                [User.mk 3 (Some "grace@example.org") (Some "Grace")
                   (Some "Hopper") None None (Some "Arlington") (Some "US")
                   (Some true) (Some sample.t0) (Some sample.t0)])
               (orders (pending s)) in
    (Raise (SQLAlchemyError "connection lost"),
     mkSession d d (faults s) (log s ++ [Commit])).

End fixture.

(** * Properties *)

Import py models database.

(** ** The effect monad *)

Lemma bind_Ok_inv {S A B} (m : M S A) (f : A → M S B) s b s' :
  bind m f s = (Ok b, s') → ∃ a s1, m s = (Ok a, s1) ∧ f a s1 = (Ok b, s').
Proof. unfold bind. destruct (m s) as [[a|e] s1]; naive_solver. Qed.

Lemma bind_Ok {S A B} (m : M S A) (f : A → M S B) s a s1 :
  m s = (Ok a, s1) → bind m f s = f a s1.
Proof. unfold bind. by intros ->. Qed.

Lemma bind_Raise {S A B} (m : M S A) (f : A → M S B) s e s1 :
  m s = (Raise e, s1) → bind m f s = (Raise e, s1).
Proof. unfold bind. by intros ->. Qed.

(** ** Key encoder *)

Section key_encoder.
Context `{Hashlib, FloatStr}.

Lemma elem_of_present params k v :
  (k, v) ∈ spec.present params ↔ (k, Some v) ∈ params.
Proof.
  unfold spec.present. rewrite list_elem_of_omap. split.
  - intros [[k' [v'|]] [Hin Heq]]; simplify_eq/=. done.
  - intros Hin. by exists (k, Some v).
Qed.

Lemma present_keys_sublist params :
  (spec.present params).*1 `sublist_of` params.*1.
Proof. induction params as [|[k [v|]] params IH]; simpl; by constructor. Qed.

Lemma present_NoDup params : NoDup params.*1 → NoDup (spec.present params).
Proof.
  intros Hnd. apply (NoDup_fmap_1 fst).
  eapply sublist_NoDup; [done|apply present_keys_sublist].
Qed.

Lemma present_sorted params :
  StronglySorted main.key_le params →
  StronglySorted (λ a b : string * scalar, String.le a.1 b.1)
    (spec.present params).
Proof.
  induction 1 as [|[k [v|]] params Hs IH Hall]; simpl; [constructor| |done].
  constructor; [done|].
  apply Forall_forall. intros [k' v'] Hin%elem_of_present.
  rewrite Forall_forall in Hall. apply (Hall _ Hin).
Qed.

#[local] Instance key_le_trans : Transitive main.key_le.
Proof. intros a b c. unfold main.key_le. apply transitivity. Qed.
#[local] Instance key_le_total : Total main.key_le.
Proof. intros a b. unfold main.key_le. apply total, _. Qed.

Lemma sorted_items_sorted params :
  StronglySorted main.key_le (main.sorted_items params).
Proof. apply StronglySorted_merge_sort; apply _. Qed.

Lemma sorted_items_perm params : main.sorted_items params ≡ₚ params.
Proof. apply merge_sort_Permutation. Qed.

(** A dict binds a key once. *)
Lemma key_value_unique (params : list (string * option scalar)) k v1 v2 :
  NoDup params.*1 → (k, v1) ∈ params → (k, v2) ∈ params → v1 = v2.
Proof.
  induction params as [|[k' v'] params IH]; simpl; intros Hnd H1 H2.
  - by apply elem_of_nil in H1.
  - apply NoDup_cons in Hnd as [Hk Hnd].
    apply elem_of_cons in H1 as [?|H1]; apply elem_of_cons in H2 as [?|H2];
      simplify_eq; auto.
    + destruct Hk. apply list_elem_of_fmap. by eexists (_, v2).
    + destruct Hk. apply list_elem_of_fmap. by eexists (_, v1).
Qed.

(** The sorted present parameters are a canonical form of the mapping. *)
Lemma present_sorted_items_eq (p1 p2 : list (string * option scalar)) :
  NoDup p1.*1 → NoDup p2.*1 →
  (∀ k v, (k, Some v) ∈ p1 ↔ (k, Some v) ∈ p2) →
  spec.present (main.sorted_items p1) = spec.present (main.sorted_items p2).
Proof.
  intros Hnd1 Hnd2 Hsame.
  assert (Hin : ∀ p k v,
    (k, v) ∈ spec.present (main.sorted_items p) ↔ (k, Some v) ∈ p).
  { intros p k v. by rewrite elem_of_present, sorted_items_perm. }
  assert (Hnd : ∀ p, NoDup p.*1 → NoDup (spec.present (main.sorted_items p))).
  { intros p Hp. apply present_NoDup. by rewrite sorted_items_perm. }
  eapply StronglySorted_unique_strong;
    [|apply present_sorted, sorted_items_sorted..|].
  - intros [k1 v1] [k2 v2] H1%Hin H2%Hin Hle Hge; simpl in *.
    assert (k1 = k2) as -> by (by apply (anti_symm String.le)).
    f_equal. apply Hsame in H1.
    assert (Some v1 = Some v2) by eauto using key_value_unique. congruence.
  - apply NoDup_Permutation; auto.
    intros [k v]. by rewrite !Hin.
Qed.

(** C1. The cache key depends only on the endpoint and on the parameters
    that are present: two keyword mappings (each binding a key once) that
    hold the same present key/value pairs get the same key, whatever the
    order of their entries and whatever parameters they carry with an
    absent value.  The key is the hash of the endpoint followed by the
    present parameters, each written [key=value], in ascending order of the
    key names. *)
Theorem generate_cache_key_canonical endpoint
    (p1 p2 : list (string * option scalar)) :
  NoDup p1.*1 → NoDup p2.*1 →
  (∀ k v, (k, Some v) ∈ p1 ↔ (k, Some v) ∈ p2) →
  main.generate_cache_key endpoint p1 = main.generate_cache_key endpoint p2
  ∧ ∃ canonical : list (string * scalar),
      (∀ k v, (k, v) ∈ canonical ↔ (k, Some v) ∈ p1)
      ∧ StronglySorted (λ a b, String.le a.1 b.1) canonical
      ∧ main.generate_cache_key endpoint p1
        = md5_hexdigest
            (endpoint +:+ "?" +:+
             join "&" ((λ kv, kv.1 +:+ "=" +:+ str kv.2) <$> canonical)).
Proof.
  intros Hnd1 Hnd2 Hsame. unfold main.generate_cache_key.
  assert (Hfmap : ∀ l,
    omap (λ kv : string * option scalar,
            (λ v, kv.1 +:+ "=" +:+ str v) <$> kv.2) l
    = (λ kv, kv.1 +:+ "=" +:+ str kv.2) <$> spec.present l).
  { unfold spec.present.
    induction l as [|[k [v|]] l IH]; csimpl; rewrite ?IH; done. }
  rewrite !Hfmap, (present_sorted_items_eq p1 p2) by done.
  split; [done|]. exists (spec.present (main.sorted_items p2)).
  split_and!; [|apply present_sorted, sorted_items_sorted|done].
  intros k v. by rewrite elem_of_present, sorted_items_perm, Hsame.
Qed.

End key_encoder.


(** ** Cache store *)

Section cache_store.
Context `{Json}.

Lemma call_fault {A} c (m : M cache.Redis A) r :
  head (cache.faults r) = Some true →
  cache.call c m r = (Raise (RedisError "connection failure"), spec.sent c r).
Proof.
  unfold cache.call, spec.sent.
  destruct (cache.faults r) as [|[] ?]; intros ?; simplify_eq/=; done.
Qed.

Lemma call_reachable {A} c (m : M cache.Redis A) r :
  spec.reachable r → cache.call c m r = m (spec.sent c r).
Proof.
  unfold cache.call, spec.reachable, spec.sent.
  destruct (cache.faults r) as [|[] ?]; intros ?; simplify_eq/=; done.
Qed.

(** [get] never raises: it answers with the decoded value of a live,
    non-empty, well-formed entry, and with [None] in every other case. *)
Lemma get_eq key r :
  cache.get key r =
  (Ok (if bool_decide (head (cache.faults r) = Some true) then PNone
       else match cache.live r key with
            | Some s => if String.eqb s EmptyString then PNone
                        else default PNone (json_loads s)
            | None => PNone
            end),
   spec.sent (cache.GET key) r).
Proof.
  unfold cache.get, try_except, bind, cache.client_get.
  case_bool_decide as Hf.
  - by rewrite call_fault.
  - rewrite call_reachable by done. unfold gets.
    change (cache.live (spec.sent (cache.GET key) r) key) with (cache.live r key).
    destruct (cache.live r key) as [s|]; simpl; [|done].
    destruct (String.eqb s EmptyString); simpl; [done|].
    by destruct (json_loads s).
Qed.

Lemma set_eq self key value ttl r :
  0 < ttl → spec.reachable r →
  cache.set self key value (Some ttl) r =
  (Ok true,
   cache.mkRedis
     (<[key := cache.mkEntry (json_dumps value) (cache.now r + ttl)]> (cache.store r))
     (cache.now r) (tail (cache.faults r))
     (cache.log r ++ [cache.SETEX key ttl (json_dumps value)])).
Proof.
  intros Httl Hr. unfold cache.set, try_except, cache.client_setex. simpl.
  assert (Z.eqb ttl 0 = false) as -> by lia. simpl.
  rewrite call_reachable by done.
  by assert ((ttl <=? 0) = false) as -> by lia.
Qed.

(** [set] never raises. *)
Lemma set_total self key value ttl r :
  ∃ stored r', cache.set self key value ttl r = (Ok stored, r').
Proof.
  unfold cache.set, try_except.
  destruct (cache.client_setex _ _ _ r) as [[b|e] r']; eauto.
Qed.

Lemma delete_keys_one key r :
  cache.delete_keys [key] r =
  (match cache.live r key with Some _ => 1 | None => 0 end,
   cache.mkRedis (base.delete key (cache.store r)) (cache.now r) (cache.faults r)
     (cache.log r)).
Proof. simpl. by rewrite Z.add_0_r. Qed.

(** C8 (amended). [delete] never raises, and it returns [True] exactly when
    the command reached the server and the key held a live entry; after a
    command that reached the server the key holds nothing.  In particular
    deleting a key that is not present returns [False]. *)
Theorem delete_reports_removal key r :
  ∃ removed r',
    cache.delete key r = (Ok removed, r')
    ∧ (removed = true ↔ spec.reachable r ∧ is_Some (cache.live r key))
    ∧ (spec.reachable r → cache.live r' key = None).
Proof.
  unfold cache.delete, try_except, bind, cache.client_delete.
  destruct (decide (head (cache.faults r) = Some true)) as [Hf|Hf].
  - rewrite call_fault by done. do 2 eexists. split_and!; [done| |done].
    unfold spec.reachable. split; [done|]. by intros [? _].
  - rewrite call_reachable by done. rewrite delete_keys_one.
    change (cache.live (spec.sent (cache.DEL [key]) r) key) with (cache.live r key).
    do 2 eexists. split_and!; [done| |].
    + unfold ret. simpl. destruct (cache.live r key) as [v|]; simpl.
      * split; [by eauto|done].
      * split; [done|]. by intros [_ [? ?]].
    + intros _. unfold cache.live. simpl. by rewrite lookup_delete_eq.
Qed.

(** C4 (amended).  On a reachable server, [set] with a positive ttl stores
    the encoded value, and a [get] that follows at once returns the value,
    provided the value survives the JSON round trip; a value other than
    [None] is thereby told apart from a miss.  Once the ttl has elapsed
    [get] answers [None], and so it does for a stored string that does not
    decode. *)
Theorem cache_round_trip self key value ttl r :
  0 < ttl →
  spec.reachable r →
  json_dumps value ≠ EmptyString →
  json_loads (json_dumps value) = Some value →
  let r1 := (cache.set self key value (Some ttl) r).2 in
  (cache.set self key value (Some ttl) r).1 = Ok true
  ∧ cache.live r1 key = Some (json_dumps value)
  ∧ (spec.reachable r1 →
     (cache.get key r1).1 = Ok value
     ∧ (value ≠ PNone → (cache.get key r1).1 ≠ Ok PNone))
  ∧ (∀ elapsed, ttl ≤ elapsed →
       (cache.get key (cache.tick elapsed r1)).1 = Ok PNone)
  ∧ (∀ r' key' s, cache.live r' key' = Some s → json_loads s = None →
       (cache.get key' r').1 = Ok PNone).
Proof.
  intros Httl Hr Hne Hrt. rewrite set_eq by done. simpl.
  set (r1 := cache.mkRedis _ _ _ _).
  assert (Hlive : cache.live r1 key = Some (json_dumps value)).
  { unfold cache.live, r1. simpl. rewrite lookup_insert_eq. simpl.
    by assert ((cache.now r <? cache.now r + ttl) = true) as -> by lia. }
  assert (Hget : spec.reachable r1 → (cache.get key r1).1 = Ok value).
  { intros Hr1. rewrite get_eq. simpl. rewrite bool_decide_false by done.
    rewrite Hlive, Hrt. simpl.
    destruct (String.eqb (json_dumps value) EmptyString) eqn:Heq; [|done].
    by apply String.eqb_eq in Heq. }
  split_and!; [done|done| | |].
  - intros Hr1. split; [by apply Hget|]. rewrite Hget by done. congruence.
  - intros d Hd. rewrite get_eq. simpl. case_bool_decide; [done|].
    unfold cache.live, r1. simpl. rewrite lookup_insert_eq. simpl.
    by assert ((cache.now r + d <? cache.now r + ttl) = false) as -> by lia.
  - intros r' key' s Hl Hs. rewrite get_eq. simpl. rewrite Hl, Hs.
    case_bool_decide; [done|]. by destruct (String.eqb s EmptyString).
Qed.

(** [clear_pattern] never raises. *)
Lemma clear_pattern_total pattern r :
  ∃ n r', cache.clear_pattern pattern r = (Ok n, r').
Proof.
  unfold cache.clear_pattern, try_except.
  destruct (bind _ _ r) as [[n|e] r']; eauto.
Qed.

End cache_store.

(** ** Order statuses *)

(** C7.  The status filter of the order list validates against
    [OrderStatus], whose members are pending, confirmed, shipped, delivered
    and cancelled, while the loader writes pending, processing, shipped,
    delivered and cancelled: [processing], which the system produces, is
    rejected by the filter, and [confirmed], which the filter accepts, is
    never produced. *)
Theorem order_status_filter_mismatch :
  schemas.OrderStatus.value <$> schemas.OrderStatus.members
    = ["pending"; "confirmed"; "shipped"; "delivered"; "cancelled"]
  ∧ seed_data.statuses
    = ["pending"; "processing"; "shipped"; "delivered"; "cancelled"]
  ∧ schemas.enum_of_value schemas.OrderStatus.value schemas.OrderStatus.members
      "processing" = None
  ∧ schemas.enum_of_value schemas.OrderStatus.value schemas.OrderStatus.members
      "confirmed" = Some schemas.OrderStatus.confirmed.
Proof. by split_and!. Qed.

(** ** Truncate-all *)

Lemma execute_eq {A} st (m : M Session A) s :
  execute st m s =
  if spec.failing (faults s)
  then (Raise (SQLAlchemyError "storage failure"), spec.issued st s)
  else m (spec.issued st s).
Proof.
  unfold execute, spec.issued, spec.failing. by destruct (faults s) as [|[] ?].
Qed.

Lemma count_all_rows {R} tbl (src : Database → list R) d :
  Z.of_nat (length (matching (query tbl src) d)) = Z.of_nat (length (src d)).
Proof.
  unfold matching, query, and_. simpl.
  do 2 f_equal. induction (src d) as [|x l IH]; simpl; congruence.
Qed.

Ltac flag :=
  match goal with l : list bool |- _ => destruct l as [|[] ?]; simpl in * end.

(** With a store that carries the seven statements, the mutation commits
    and reports the row counts it found. *)
Lemma truncate_all_data_healthy s :
  spec.healthy 7 (faults s) = true →
  ∃ s', crud.truncate_all_data s =
          (Ok (crud.mkTruncate true "All data truncated successfully"
                 (spec.row_counts (pending s))), s')
        ∧ committed s' = spec.empty_tables.
Proof.
  intros Hok. destruct s as [c p fs lg]. simpl in *.
  unfold crud.truncate_all_data, try_except, bind, count, delete, commit,
    execute, gets, modify, ret; simpl.
  do 7 try (flag; try discriminate);
    rewrite ?count_all_rows; simpl; eexists; split; reflexivity.
Qed.

(** When one of the seven statements fails nothing is committed, and the
    function reports failure with zero counts or, when the rollback fails
    as well, raises. *)
Lemma truncate_all_data_faulty s :
  spec.healthy 7 (faults s) = false →
  ∃ r s', crud.truncate_all_data s = (r, s')
    ∧ committed s' = committed s
    ∧ ((∃ msg, r = Ok (crud.mkTruncate false msg (crud.mkCounts 0 0 0)))
       ∨ (∃ e, r = Raise e)).
Proof.
  intros Hok. destruct s as [c p fs lg]. simpl in *.
  unfold crud.truncate_all_data, try_except, bind, count, delete, commit,
    rollback, execute, gets, modify, ret; simpl.
  do 7 (flag;
        [discriminate
        |flag; (do 2 eexists; split_and!; [reflexivity|reflexivity|by eauto])
        |]).
  discriminate.
Qed.

Lemma with_cache_clear_pattern pattern a :
  ∃ n c, main.with_cache (cache.clear_pattern pattern) a
         = (Ok n, main.mkApp (main.db a) c).
Proof.
  unfold main.with_cache.
  destruct (clear_pattern_total pattern (main.redis a)) as (n & c & ->). eauto.
Qed.

(** The outcome of the endpoint is decided by the store alone. *)
Lemma truncate_all_data_endpoint_eq a :
  ∃ a',
    committed (main.db a') =
      (if spec.healthy 7 (faults (main.db a)) then spec.empty_tables
       else committed (main.db a))
    ∧ ((spec.healthy 7 (faults (main.db a)) = true
        ∧ main.truncate_all_data_endpoint a =
            (Ok (PDict
               [("message", PStr "All data truncated successfully");
                ("deleted_counts",
                 PDict [("orders", PInt (Z.of_nat (length (orders (pending (main.db a))))));
                        ("users", PInt (Z.of_nat (length (users (pending (main.db a))))));
                        ("products", PInt (Z.of_nat (length (products (pending (main.db a))))))]);
                ("cache_cleared", PBool true)]), a'))
       ∨ (spec.healthy 7 (faults (main.db a)) = false
          ∧ ∃ detail, main.truncate_all_data_endpoint a
                      = (Raise (HTTPException 500 detail), a'))).
Proof.
  unfold main.truncate_all_data_endpoint, try_except.
  destruct (spec.healthy 7 (faults (main.db a))) eqn:Hh.
  - destruct (truncate_all_data_healthy _ Hh) as (s' & Hrun & Hc).
    erewrite bind_Ok; [|unfold main.with_db; by rewrite Hrun].
    destruct (with_cache_clear_pattern "*" (main.mkApp s' (main.redis a)))
      as (n & c & Hclear).
    erewrite bind_Ok by done. simpl. eexists. split; [|left; split; [done|reflexivity]].
    done.
  - destruct (truncate_all_data_faulty _ Hh) as (r & s' & Hrun & Hc & Hr).
    destruct Hr as [[msg ->]|[e ->]].
    + erewrite bind_Ok; [|unfold main.with_db; by rewrite Hrun].
      destruct (with_cache_clear_pattern "*" (main.mkApp s' (main.redis a)))
        as (n & c & Hclear).
      erewrite bind_Ok by done. simpl. eexists. split; [|right; split; [done|]; eexists; reflexivity].
      done.
    + erewrite bind_Raise; [|unfold main.with_db; by rewrite Hrun].
      eexists. split; [|right; split; [done|]; eexists; reflexivity]. done.
Qed.

(** C5.  A truncate-all request either goes through as a whole or not at
    all.  When the store carries its seven statements, the response
    reports the row counts of the three tables as they were before the
    request and all three tables are empty afterwards.  When any of the
    statements fails, the tables are what they were before the request and
    the response is an internal-failure signal that carries no counts.
    The counts that [truncate_all_data] itself reports are the full row
    counts on success and zero on failure, never those of a part of the
    mutation. *)
Theorem truncate_all_is_atomic schedule w :
  let outcome := main.serve main.truncate_all_data_endpoint schedule w in
  (match (crud.truncate_all_data (SessionLocal (main.tables w) schedule)).1 with
   | Ok result =>
       crud.success result = spec.healthy 7 schedule
       ∧ crud.deleted_counts result
         = (if crud.success result then spec.row_counts (main.tables w)
            else crud.mkCounts 0 0 0)
   | Raise _ => spec.healthy 7 schedule = false
   end)
  ∧ if spec.healthy 7 schedule then
      outcome.1 =
        Ok (PDict
          [("message", PStr "All data truncated successfully");
           ("deleted_counts",
            PDict [("orders", PInt (Z.of_nat (length (orders (main.tables w)))));
                   ("users", PInt (Z.of_nat (length (users (main.tables w)))));
                   ("products", PInt (Z.of_nat (length (products (main.tables w)))))]);
           ("cache_cleared", PBool true)])
      ∧ main.tables outcome.2 = spec.empty_tables
    else
      (∃ detail, outcome.1 = Raise (HTTPException 500 detail))
      ∧ main.tables outcome.2 = main.tables w.
Proof.
  split.
  - destruct (spec.healthy 7 schedule) eqn:Hh.
    + destruct (truncate_all_data_healthy
                  (SessionLocal (main.tables w) schedule) Hh) as (s' & -> & _).
      done.
    + destruct (truncate_all_data_faulty
                  (SessionLocal (main.tables w) schedule) Hh)
        as (r & s' & -> & _ & [[msg ->]|[e ->]]); done.
  - unfold main.serve. simpl.
    destruct (truncate_all_data_endpoint_eq
                (main.mkApp (SessionLocal (main.tables w) schedule) (main.server w)))
      as (a' & Hc & Hrun).
    simpl in *.
    destruct Hrun as [[Hh ->]|[Hh [detail ->]]]; rewrite Hh in *; simpl;
      unfold close; eauto.
Qed.

(** C9 (amended).  A truncate-all request answers with a response exactly
    when the store carries its seven statements, whatever the state of the
    cache connection; every such response has [cache_cleared] set to
    [True], and every other outcome is an internal-failure signal. *)
Theorem cache_cleared_is_constant a :
  match (main.truncate_all_data_endpoint a).1 with
  | Ok response =>
      spec.healthy 7 (faults (main.db a)) = true
      ∧ getitem response "cache_cleared" = Some (PBool true)
  | Raise e =>
      spec.healthy 7 (faults (main.db a)) = false
      ∧ ∃ detail, e = HTTPException 500 detail
  end.
Proof.
  destruct (truncate_all_data_endpoint_eq a) as (a' & _ & Hrun).
  destruct Hrun as [[-> ->]|[-> [detail ->]]]; simpl; eauto.
Qed.

(** ** Request validation *)

Section validation.
Context `{Hashlib, FloatStr, Json, Datetime, DeclarativeBase, Engine}.

Lemma sort_order_known_true o : main.sort_order_known o = true.
Proof. by destruct o. Qed.

(** Building blocks of computations that never raise an [HTTPException]. *)
Lemma no_http_ret {S A} (a : A) : spec.no_http (ret (S := S) a).
Proof. by intros s code detail. Qed.

Lemma no_http_bind {S A B} (m : M S A) (f : A → M S B) :
  spec.no_http m → (∀ a, spec.no_http (f a)) → spec.no_http (bind m f).
Proof.
  intros Hm Hf s code detail. unfold bind.
  specialize (Hm s code detail). destruct (m s) as [[a|e] s1]; simpl in *.
  - apply Hf.
  - intros [= ->]. by apply Hm.
Qed.

Lemma no_http_total {S A} (m : M S A) :
  (∀ s, ∃ a s', m s = (Ok a, s')) → spec.no_http m.
Proof. intros Hm s code detail. by destruct (Hm s) as (a & s' & ->). Qed.

Lemma no_http_with_db {A} (m : M Session A) :
  spec.no_http m → spec.no_http (main.with_db m).
Proof.
  intros Hm a code detail. unfold main.with_db.
  specialize (Hm (main.db a) code detail). by destruct (m (main.db a)).
Qed.

Lemma no_http_with_cache {A} (m : M cache.Redis A) :
  spec.no_http m → spec.no_http (main.with_cache m).
Proof.
  intros Hm a code detail. unfold main.with_cache.
  specialize (Hm (main.redis a) code detail). by destruct (m (main.redis a)).
Qed.

Lemma no_http_execute {A} st (m : M Session A) :
  spec.no_http m → spec.no_http (execute st m).
Proof.
  intros Hm s code detail. rewrite execute_eq.
  destruct (spec.failing _); [done|apply Hm].
Qed.

Lemma no_http_for_each {S A B} (f : A → M S B) l :
  (∀ x, spec.no_http (f x)) → spec.no_http (main.for_each f l).
Proof.
  intros Hf. induction l as [|x l IH]; simpl; [apply no_http_ret|].
  apply no_http_bind; [done|]. intros y.
  apply no_http_bind; [done|]. intros ys. apply no_http_ret.
Qed.

Lemma no_http_isoformat_of {S} o : spec.no_http (main.isoformat_of (S := S) o).
Proof. by destruct o. Qed.

Lemma no_http_product_dict {S} item : spec.no_http (main.product_dict (S := S) item).
Proof.
  unfold main.product_dict.
  repeat (apply no_http_bind; [apply no_http_isoformat_of|intros ?]).
  apply no_http_ret.
Qed.

Lemma no_http_user_dict {S} item : spec.no_http (main.user_dict (S := S) item).
Proof.
  unfold main.user_dict.
  repeat (apply no_http_bind; [apply no_http_isoformat_of|intros ?]).
  apply no_http_ret.
Qed.

Lemma no_http_order_dict {S} item : spec.no_http (main.order_dict (S := S) item).
Proof.
  unfold main.order_dict.
  apply no_http_bind; [apply no_http_isoformat_of|intros ?].
  apply no_http_bind.
  { destruct (user item); [apply no_http_user_dict|apply no_http_ret]. }
  intros ?. apply no_http_bind.
  { destruct (product item); [apply no_http_product_dict|apply no_http_ret]. }
  intros ?. apply no_http_ret.
Qed.

(** The part that the three list functions share. *)
Lemma no_http_page_query {R C} (q : Query R) (get : C → R → cell) sort_column
    sort_order skip limit :
  spec.no_http
    (bind (count q) (λ total,
     bind (if String.eqb (lower sort_order) "desc"
           then desc get sort_column else asc get sort_column) (λ order,
     bind (all (database.limit (offset (order_by q order) skip) limit)) (λ items,
     bind (floordiv skip limit) (λ page,
     bind (truediv total limit) (λ quotient,
     ret (crud.mkPage items total (page + 1) limit (ceil quotient)))))))).
Proof.
  apply no_http_bind; [by apply no_http_execute|intros total].
  apply no_http_bind.
  { destruct (String.eqb _ _), sort_column; done. }
  intros order. apply no_http_bind.
  { apply no_http_execute. by destruct (_ || _). }
  intros items. apply no_http_bind.
  { unfold floordiv. by destruct (Z.eqb limit 0). }
  intros page. apply no_http_bind.
  { unfold truediv. by destruct (Z.eqb limit 0). }
  intros quotient. apply no_http_ret.
Qed.

Lemma no_http_get cache_key : spec.no_http (cache.get cache_key).
Proof. apply no_http_total. intros r. rewrite get_eq. eauto. Qed.

Lemma no_http_set self cache_key value ttl :
  spec.no_http (cache.set self cache_key value ttl).
Proof. apply no_http_total. intros r. apply set_total. Qed.

(** What follows the validation in a list handler. *)
Lemma no_http_look_aside {R} cache_key (list_rows : M Session (crud.PageResult R))
    (to_dict : R → M main.App pyval) :
  spec.no_http list_rows → (∀ item, spec.no_http (to_dict item)) →
  spec.no_http
    (bind (main.with_cache (cache.get cache_key)) (λ cached_result,
     if truthy cached_result then ret cached_result
     else
       bind (main.with_db list_rows) (λ result,
       bind (main.for_each to_dict (crud.items result)) (λ items_dict,
       bind (main.with_cache
               (cache.set cache.cache cache_key
                  (main.response_data items_dict result) (Some 300))) (λ _,
       ret (main.response_data items_dict result)))))).
Proof.
  intros Hrows Hdict.
  apply no_http_bind; [apply no_http_with_cache, no_http_get|intros cached].
  destruct (truthy cached); [apply no_http_ret|].
  apply no_http_bind; [by apply no_http_with_db|intros result].
  apply no_http_bind; [by apply no_http_for_each|intros items_dict].
  apply no_http_bind; [apply no_http_with_cache, no_http_set|intros _].
  apply no_http_ret.
Qed.

(** C10.  A list request whose page size is below 1 or above 1000 is
    answered with a bad-request signal and leaves the application state,
    including the command log of the cache and the statement log of the
    store, as it was: no cache or storage work is done.  A page size from 1
    to 1000 is accepted: with a page number of at least 1 (and, for orders,
    a positive user id when one is given) the request is not answered with
    an HTTP error signal by the handler.  The schema of the query
    parameters declares the same bounds. *)
Theorem page_size_bound request page size (a : main.App) :
  spec.page_size request = Some (page, size) →
  (size < 1 ∨ 1000 < size →
   ∃ detail, main.app request a = (Raise (HTTPException 400 detail), a))
  ∧ (1 ≤ size ≤ 1000 → 1 ≤ page → spec.user_id_ok request = true →
     ∀ code detail, (main.app request a).1 ≠ Raise (HTTPException code detail))
  ∧ (spec.schema_valid request = true → 1 ≤ size ≤ 1000).
Proof.
  intros Hreq. split_and!.
  - intros Hsize.
    assert ((size <? 1) || (1000 <? size) = true) as Hb.
    { apply orb_true_iff. rewrite !Z.ltb_lt. lia. }
    destruct request as [p|p|p|]; simplify_eq/=.
    + unfold main.get_products. rewrite sort_order_known_true, Hb. simpl.
      match goal with |- context [if ?b then _ else _] => destruct b end;
        eexists; reflexivity.
    + unfold main.get_users. rewrite sort_order_known_true, Hb. simpl.
      match goal with |- context [if ?b then _ else _] => destruct b end;
        eexists; reflexivity.
    + unfold main.get_orders. rewrite sort_order_known_true, Hb. simpl.
      match goal with |- context [if ?b then _ else _] => destruct b end;
        eexists; reflexivity.
  - intros Hsize Hpage Huser.
    assert ((size <? 1) || (1000 <? size) = false) as Hb.
    { apply orb_false_iff. rewrite !Z.ltb_ge. lia. }
    assert ((page <? 1) = false) as Hp by lia.
    destruct request as [p|p|p|]; simplify_eq/=.
    + unfold main.get_products. rewrite sort_order_known_true, Hb, Hp. simpl.
      apply no_http_look_aside; [|intros; apply no_http_product_dict].
      unfold crud.get_products. cbv zeta. apply no_http_page_query.
    + unfold main.get_users. rewrite sort_order_known_true, Hb, Hp. simpl.
      apply no_http_look_aside; [|intros; apply no_http_user_dict].
      unfold crud.get_users. cbv zeta. apply no_http_page_query.
    + unfold main.get_orders. rewrite sort_order_known_true, Hb, Hp. simpl.
      assert (match schemas.OrderQueryParams.user_id p with
              | Some u => u <? 1 | None => false end = false) as ->.
      { destruct (schemas.OrderQueryParams.user_id p); simpl in *; lia. }
      apply no_http_look_aside; [|intros; apply no_http_order_dict].
      unfold crud.get_orders. cbv zeta. apply no_http_page_query.
  - destruct request as [p|p|p|]; simplify_eq/=;
      [unfold schemas.ProductQueryParams.valid
      |unfold schemas.UserQueryParams.valid
      |unfold schemas.OrderQueryParams.valid];
      rewrite !andb_true_iff, !Z.leb_le; intros Hv;
      repeat destruct Hv as [Hv ?]; lia.
Qed.

End validation.

(** ** Query engine *)

(** *** Row orders *)

Lemma cell_compare_antisym a b :
  cell_compare b a = CompOpp (cell_compare a b).
Proof.
  destruct a, b; simpl; try done.
  - apply Z.compare_antisym.
  - symmetry. apply Qcompare_antisym.
  - apply String.compare_antisym.
  - by destruct b0, b.
  - apply Z.compare_antisym.
Qed.

Lemma cell_leb_total a b : cell_leb a b = true ∨ cell_leb b a = true.
Proof.
  unfold cell_leb. rewrite (cell_compare_antisym a b).
  destruct (cell_compare a b); simpl; auto.
Qed.

Lemma direction_total {R} sort_order (key : R → cell) :
  Total (λ a b, Is_true (spec.direction sort_order key a b)).
Proof.
  intros a b. unfold spec.direction, descending, ascending.
  destruct (String.eqb _ _).
  - destruct (cell_leb_total (key b) (key a)) as [->| ->]; simpl; auto.
  - destruct (cell_leb_total (key a) (key b)) as [->| ->]; simpl; auto.
Qed.

Lemma ordered_in_order `{Engine} {R} sort_order (key : R → cell) off lim rows :
  spec.in_order (spec.direction sort_order key)
    (ordered (Some (spec.direction sort_order key)) off lim rows).
Proof.
  unfold ordered, spec.in_order.
  apply order_by_rows_Sorted, direction_total.
Qed.

Lemma ordered_Permutation `{Engine} {R} (o : option (R → R → bool)) off lim rows :
  ordered o off lim rows ≡ₚ rows.
Proof. destruct o as [le|]; [apply order_by_rows_Permutation|done]. Qed.

Lemma Forall_slice {R} (P : R → Prop) off lim rows :
  Forall P rows → Forall P (slice off lim rows).
Proof.
  intros HP. unfold slice.
  destruct off, lim; auto using Forall_take, Forall_drop.
Qed.

Lemma Forall_ordered `{Engine} {R} (P : R → Prop) o off lim rows :
  Forall P rows → Forall P (ordered o off lim rows).
Proof. intros HP. by rewrite ordered_Permutation. Qed.

(** *** The three list functions *)

Section query_engine.
Context `{DeclarativeBase, Engine}.

Lemma table_filtered {R} (q : Query R) (filters : list (R → bool)) :
  table (match filters with
         | _ :: _ => database.filter q (and_ filters)
         | [] => q
         end) = table q.
Proof. by destruct filters. Qed.

Lemma matching_filtered {R} (q : Query R) (filters : list (R → bool)) d :
  criteria q = [] →
  matching (match filters with
            | _ :: _ => database.filter q (and_ filters)
            | [] => q
            end) d
  = List.filter (and_ filters) (source q d).
Proof.
  intros Hq. unfold matching. destruct filters as [|f fs]; simpl; rewrite Hq; [done|].
  apply filter_ext. intros r. unfold and_ at 1. simpl. by rewrite andb_true_r.
Qed.

Lemma page_query_eq {R C} (q : Query R) (get : C → R → cell) sort_column
    sort_order skip limit s :
  bind (count q) (λ total,
    bind (if String.eqb (lower sort_order) "desc"
          then desc get sort_column else asc get sort_column) (λ order,
    bind (all (database.limit (offset (order_by q order) skip) limit)) (λ items,
    bind (floordiv skip limit) (λ page,
    bind (truediv total limit) (λ quotient,
    ret (crud.mkPage items total (page + 1) limit (ceil quotient))))))) s
  = if spec.failing (faults s)
    then (Raise (SQLAlchemyError "storage failure"), spec.issued (Count (table q)) s)
    else spec.page_of_rows (table q) get sort_column sort_order skip limit
           (matching q (pending s)) (spec.issued (Count (table q)) s).
Proof.
  unfold bind at 1. unfold count. rewrite execute_eq.
  destruct (spec.failing (faults s)); [done|].
  unfold gets, spec.page_of_rows, spec.direction, desc, asc.
  destruct sort_column as [c|].
  2:{ unfold bind. by destruct (String.eqb (lower sort_order) "desc"). }
  set (rows := matching q (pending s)).
  set (s1 := spec.issued (Count (table q)) s).
  assert (∀ order : R → R → bool,
    bind (all (database.limit (offset (order_by q order) skip) limit)) (λ items,
    bind (floordiv skip limit) (λ page,
    bind (truediv (Z.of_nat (length rows)) limit) (λ quotient,
    ret (crud.mkPage items (Z.of_nat (length rows)) (page + 1) limit
           (ceil quotient))))) s1
    = let s2 := spec.issued (Select (table q)) s1 in
      if spec.failing (faults s1)
      then (Raise (SQLAlchemyError "storage failure"), s2)
      else if (skip <? 0) || (limit <? 0) then
        (Raise (SQLAlchemyError "OFFSET and LIMIT must not be negative"), s2)
      else if Z.eqb limit 0 then
        (Raise (ZeroDivisionError "integer division or modulo by zero"), s2)
      else (Ok (crud.mkPage
                  (slice (Some skip) (Some limit)
                     (ordered (Some order) (Some skip) (Some limit) rows))
                  (Z.of_nat (length rows)) (skip / limit + 1) limit
                  (ceil (inject_Z (Z.of_nat (length rows)) / inject_Z limit))),
            s2)) as Hall.
  { intros order. unfold bind at 1. unfold all. rewrite execute_eq. simpl.
    destruct (spec.failing _); [done|].
    unfold negative. simpl. destruct (_ || _); [done|].
    unfold bind, floordiv, truediv, gets, ret. simpl.
    destruct (Z.eqb limit 0); done. }
  unfold bind at 1.
  destruct (String.eqb (lower sort_order) "desc"); simpl; apply Hall.
Qed.

Ltac split_filters :=
  repeat match goal with
         | o : option _ |- _ => destruct o; simpl
         end;
  repeat match goal with
         | |- context [String.eqb ?x EmptyString] => destruct (String.eqb x EmptyString); simpl
         | |- context [Z.eqb ?x 0] => destruct (Z.eqb x 0); simpl
         end;
  rewrite ?andb_true_r, ?orb_false_r, ?andb_assoc, ?orb_assoc; done.

Lemma get_products_eq skip limit search category brand min_price max_price
    sort_by sort_order s :
  let F := spec.product_effective
             (spec.mkProductFilters search category brand min_price max_price) in
  crud.get_products skip limit search category brand min_price max_price
    sort_by sort_order s =
  if spec.failing (faults s)
  then (Raise (SQLAlchemyError "storage failure"), spec.issued (Count "products") s)
  else spec.page_of_rows "products" Product.get
         (Product.getattr sort_by (Column Product.c_id)) sort_order skip limit
         (List.filter (spec.product_criterion F) (products (pending s)))
         (spec.issued (Count "products") s).
Proof.
  intros F. unfold crud.get_products. cbv zeta.
  rewrite page_query_eq, table_filtered, matching_filtered by done.
  simpl. destruct (spec.failing (faults s)); [done|]. f_equal.
  apply filter_ext. intros r.
  unfold spec.product_criterion, F, spec.product_effective, spec.specified, and_.
  simpl. split_filters.
Qed.

Lemma get_users_eq skip limit search city country sort_by sort_order s :
  let F := spec.user_effective (spec.mkUserFilters search city country) in
  crud.get_users skip limit search city country sort_by sort_order s =
  if spec.failing (faults s)
  then (Raise (SQLAlchemyError "storage failure"), spec.issued (Count "users") s)
  else spec.page_of_rows "users" User.get
         (User.getattr sort_by (Column User.c_id)) sort_order skip limit
         (List.filter (spec.user_criterion F) (users (pending s)))
         (spec.issued (Count "users") s).
Proof.
  intros F. unfold crud.get_users. cbv zeta.
  rewrite page_query_eq, table_filtered, matching_filtered by done.
  simpl. destruct (spec.failing (faults s)); [done|]. f_equal.
  apply filter_ext. intros r.
  unfold spec.user_criterion, F, spec.user_effective, spec.specified, and_.
  simpl. split_filters.
Qed.

Lemma get_orders_eq skip limit user_id status sort_by sort_order s :
  let F := spec.order_effective (spec.mkOrderFilters user_id status) in
  crud.get_orders skip limit user_id status sort_by sort_order s =
  if spec.failing (faults s)
  then (Raise (SQLAlchemyError "storage failure"), spec.issued (Count "orders") s)
  else spec.page_of_rows "orders" spec.order_key
         (Order.getattr sort_by (Column Order.c_id)) sort_order skip limit
         (List.filter (spec.order_satisfies F) (Order_rows (pending s)))
         (spec.issued (Count "orders") s).
Proof.
  intros F. unfold crud.get_orders. cbv zeta.
  rewrite page_query_eq, table_filtered, matching_filtered by done.
  simpl. destruct (spec.failing (faults s)); [done|]. f_equal.
  apply filter_ext. intros r.
  unfold spec.order_satisfies, F, spec.order_effective, spec.specified,
    spec.specified_id, and_.
  simpl. split_filters.
Qed.

(** What a page that [page_of_rows] returns looks like. *)
Lemma page_of_rows_Ok {R C} tbl (get : C → R → cell) sort_column sort_order
    skip limit rows s1 res s2 :
  spec.page_of_rows tbl get sort_column sort_order skip limit rows s1
    = (Ok res, s2) →
  ∃ c, sort_column = Column c
    ∧ 0 ≤ skip ∧ 0 < limit
    ∧ res = crud.mkPage
              (slice (Some skip) (Some limit)
                 (ordered (Some (spec.direction sort_order (get c)))
                    (Some skip) (Some limit) rows))
              (Z.of_nat (length rows)) (skip / limit + 1) limit
              (ceil (inject_Z (Z.of_nat (length rows)) / inject_Z limit)).
Proof.
  unfold spec.page_of_rows. destruct sort_column as [c|]; [|done].
  destruct (spec.failing _); [done|].
  destruct (_ || _) eqn:Hneg; [done|].
  destruct (Z.eqb limit 0) eqn:Hz; [done|].
  intros [= <- <-]. exists c.
  apply orb_false_iff in Hneg as [? ?]. split_and!; [done|lia|lia|done].
Qed.

End query_engine.

(** ** Search

    The search filter of the specification against the pattern match of
    the store. *)

Lemma like_literal c p s :
  spec.wildcard c = false →
  like (String c p) s
  = match s with
    | String d s' => Ascii.eqb c d && like p s'
    | EmptyString => false
    end.
Proof.
  intros Hc.
  destruct c as [[] [] [] [] [] [] [] []]; try discriminate Hc; reflexivity.
Qed.

Lemma lower_ascii_literal c :
  spec.wildcard c = false → spec.wildcard (lower_ascii c) = false.
Proof.
  destruct c as [[] [] [] [] [] [] [] []]; intros Hc; try discriminate Hc;
    reflexivity.
Qed.

Lemma lower_literal s : spec.literal s = true → spec.literal (lower s) = true.
Proof.
  induction s as [|c s IH]; [done|]. simpl.
  rewrite !andb_true_iff, !negb_true_iff. intros [Hc Hs].
  split; [by apply lower_ascii_literal|by apply IH].
Qed.

Lemma lower_app a b : lower (a +:+ b) = lower a +:+ lower b.
Proof.
  induction a as [|c a IH]; [done|].
  change (String (lower_ascii c) (lower (a +:+ b))
          = String (lower_ascii c) (lower a +:+ lower b)).
  by rewrite IH.
Qed.

Lemma append_nil_r (s : string) : s +:+ EmptyString = s.
Proof.
  induction s as [|c s IH]; [done|].
  change (String c (s +:+ EmptyString) = String c s). by rewrite IH.
Qed.

Lemma like_suffixes_true k t :
  like_suffixes k t = true ↔ ∃ a u, t = a +:+ u ∧ k u = true.
Proof.
  induction t as [|c t IH]; simpl.
  - rewrite orb_false_r. split.
    + intros Hk. by exists EmptyString, EmptyString.
    + intros (a & u & Ht & Hk). by destruct a, u.
  - rewrite orb_true_iff, IH. split.
    + intros [Hk|(a & u & -> & Hk)].
      * by exists EmptyString, (String c t).
      * by exists (String c a), u.
    + intros (a & u & Ht & Hk). destruct a as [|c' a]; simpl in Ht.
      * left. by rewrite Ht.
      * right. injection Ht as -> ->. eauto.
Qed.

(** A pattern of literal characters followed by [%] matches the strings
    that start with those characters. *)
Lemma like_prefix s t :
  spec.literal s = true →
  like (s +:+ "%") t = true ↔ ∃ b, t = s +:+ b.
Proof.
  revert t. induction s as [|c s IH]; intros t Hs.
  - split; [by exists t|]. intros _.
    change (like_suffixes (like EmptyString) t = true).
    apply like_suffixes_true. exists t, EmptyString.
    by rewrite append_nil_r.
  - simpl in Hs. apply andb_true_iff in Hs as [Hc%negb_true_iff Hs].
    change (String c s +:+ "%") with (String c (s +:+ "%")).
    rewrite like_literal by done. destruct t as [|d t].
    + split; [done|]. by intros [b ?].
    + rewrite andb_true_iff, IH by done. split.
      * intros [->%Ascii.eqb_eq [b ->]]. by exists b.
      * intros [b Hb]. simpl in Hb. injection Hb as -> ->.
        split; [apply Ascii.eqb_refl|by exists b].
Qed.

Lemma like_substring s t :
  spec.literal s = true →
  like ("%" +:+ s +:+ "%") t = true ↔ props.substring s t.
Proof.
  intros Hs.
  change (like_suffixes (like (s +:+ "%")) t = true ↔ props.substring s t).
  rewrite like_suffixes_true. unfold props.substring. split.
  - intros (a & u & -> & [b ->]%like_prefix); [|done]. by exists a, b.
  - intros (a & b & ->). exists a, (s +:+ b). split; [done|].
    apply like_prefix; [done|]. by exists b.
Qed.

(** [ILIKE '%term%'] on a nullable column, for a term of literal
    characters. *)
Lemma ilike_contains col term :
  spec.literal term = true →
  ilike col ("%" +:+ term +:+ "%") = true ↔ props.contains col term.
Proof.
  intros Hs. unfold ilike, props.contains. destruct col as [t|].
  - rewrite !lower_app.
    change (lower "%") with "%".
    rewrite like_substring by by apply lower_literal.
    split; [by exists t|]. by intros (t' & [= <-] & ?).
  - split; [done|]. by intros (t' & [=] & _).
Qed.

Lemma starts_with_prefix term text :
  spec.starts_with term text = true ↔ ∃ b, text = term +:+ b.
Proof.
  revert text. induction term as [|a term IH]; intros text.
  - split; [by exists text|done].
  - destruct text as [|b text]; simpl.
    + split; [done|]. by intros [? ?].
    + rewrite andb_true_iff, IH. split.
      * intros [->%Ascii.eqb_eq [rest ->]]. by exists rest.
      * intros [rest Hrest]. simpl in Hrest. injection Hrest as -> ->.
        split; [apply Ascii.eqb_refl|by exists rest].
Qed.

Lemma occurs_substring term text :
  spec.occurs term text = true ↔ props.substring term text.
Proof.
  unfold props.substring. induction text as [|c text IH]; simpl.
  - rewrite orb_false_r, starts_with_prefix. split.
    + intros [b ->]. by exists EmptyString, b.
    + intros (a & b & Ht). destruct a; [by exists b|done].
  - rewrite orb_true_iff, IH, starts_with_prefix. split.
    + intros [[b ->]|(a & b & ->)].
      * by exists EmptyString, b.
      * by exists (String c a), b.
    + intros (a & b & Ht). destruct a as [|c' a]; simpl in Ht.
      * left. by exists b.
      * right. injection Ht as -> ->. eauto.
Qed.

Lemma holds_contains field term :
  spec.holds field term = true ↔ props.contains field term.
Proof.
  unfold spec.holds, props.contains. destruct field as [text|].
  - rewrite occurs_substring. split; [by exists text|].
    by intros (t & [= <-] & ?).
  - split; [done|]. by intros (t & [=] & _).
Qed.

(** For a term of literal characters the pattern match of the store is the
    substring test of the specification. *)
Lemma ilike_holds field term :
  spec.literal term = true →
  ilike field ("%" +:+ term +:+ "%") = spec.holds field term.
Proof.
  intros Hlit. apply eq_true_iff_eq.
  by rewrite ilike_contains, holds_contains.
Qed.

Lemma product_criterion_satisfies F r :
  spec.literal_search (spec.f_search F) = true →
  spec.product_criterion F r = spec.product_satisfies F r.
Proof.
  unfold spec.product_criterion, spec.product_satisfies, spec.literal_search.
  destruct (spec.f_search F) as [term|]; [|done]. simpl. intros Hlit.
  by rewrite !ilike_holds.
Qed.

Lemma user_criterion_satisfies F r :
  spec.literal_search (spec.u_search F) = true →
  spec.user_criterion F r = spec.user_satisfies F r.
Proof.
  unfold spec.user_criterion, spec.user_satisfies, spec.literal_search.
  destruct (spec.u_search F) as [term|]; [|done]. simpl. intros Hlit.
  by rewrite !ilike_holds.
Qed.

Lemma literal_search_specified search :
  spec.literal_search search = true →
  spec.literal_search (spec.specified search) = true.
Proof. unfold spec.specified. by destruct (truthy_str search). Qed.

Section list_results.
Context `{DeclarativeBase, Engine}.

Lemma filter_satisfied {R} (P : R → bool) rows :
  Forall (λ r, P r = true) (List.filter P rows).
Proof. apply Forall_forall. intros r Hin%list_elem_of_In. by apply filter_In in Hin as [_ ?]. Qed.

(** An item of a page comes from the matching rows. *)
Lemma page_items_satisfy {R} (P : R → bool) o off lim skip limit rows :
  Forall (λ r, P r = true)
    (slice (Some skip) (Some limit) (ordered o off lim (List.filter P rows))).
Proof. apply Forall_slice, Forall_ordered, filter_satisfied. Qed.

Lemma filter_criterion {R} (P Q : R → bool) rows :
  (∀ r, P r = Q r) → List.filter P rows = List.filter Q rows.
Proof. intros HPQ. by apply filter_ext. Qed.

(** C3 (amended).  For every list call that returns a page, whatever its
    skip, limit and sort arguments, [total] is the number of rows of the
    whole table that satisfy the filter set as the specification reads it
    (the search a case-insensitive substring test on the three text
    fields, the other filters equalities and inclusive bounds), and every
    returned item satisfies it, where a text filter given as the empty
    string (and, for orders, a user id of zero) counts as not given and
    the search term holds none of the characters [%], [_] and
    backslash. *)
Theorem total_counts_matching_rows :
  (∀ skip limit search category brand min_price max_price sort_by sort_order
     s res s',
     spec.literal_search search = true →
     crud.get_products skip limit search category brand min_price max_price
       sort_by sort_order s = (Ok res, s') →
     let F := spec.product_effective
                (spec.mkProductFilters search category brand min_price max_price) in
     crud.total res
       = Z.of_nat (length (List.filter (spec.product_satisfies F)
                             (products (pending s))))
     ∧ Forall (λ r, spec.product_satisfies F r = true) (crud.items res))
  ∧ (∀ skip limit search city country sort_by sort_order s res s',
     spec.literal_search search = true →
     crud.get_users skip limit search city country sort_by sort_order s
       = (Ok res, s') →
     let F := spec.user_effective (spec.mkUserFilters search city country) in
     crud.total res
       = Z.of_nat (length (List.filter (spec.user_satisfies F)
                             (users (pending s))))
     ∧ Forall (λ r, spec.user_satisfies F r = true) (crud.items res))
  ∧ (∀ skip limit user_id status sort_by sort_order s res s',
     crud.get_orders skip limit user_id status sort_by sort_order s
       = (Ok res, s') →
     let F := spec.order_effective (spec.mkOrderFilters user_id status) in
     crud.total res
       = Z.of_nat (length (List.filter (spec.order_satisfies F)
                             (Order_rows (pending s))))
     ∧ Forall (λ r, spec.order_satisfies F r = true) (crud.items res)).
Proof.
  split_and!.
  - intros ???????????? Hlit Hrun F. rewrite get_products_eq in Hrun.
    destruct (spec.failing _); [done|].
    rewrite (filter_criterion _ (spec.product_satisfies F)) in Hrun.
    2:{ intros r. apply product_criterion_satisfies.
        by apply literal_search_specified. }
    apply page_of_rows_Ok in Hrun as (c & _ & _ & _ & ->).
    cbn [crud.total crud.items]. split; [done|apply page_items_satisfy].
  - intros ?????????? Hlit Hrun F. rewrite get_users_eq in Hrun.
    destruct (spec.failing _); [done|].
    rewrite (filter_criterion _ (spec.user_satisfies F)) in Hrun.
    2:{ intros r. apply user_criterion_satisfies.
        by apply literal_search_specified. }
    apply page_of_rows_Ok in Hrun as (c & _ & _ & _ & ->).
    cbn [crud.total crud.items]. split; [done|apply page_items_satisfy].
  - intros ????????? Hrun F. rewrite get_orders_eq in Hrun.
    destruct (spec.failing _); [done|].
    apply page_of_rows_Ok in Hrun as (c & _ & _ & _ & ->).
    cbn [crud.total crud.items]. split; [done|apply page_items_satisfy].
Qed.

(** An allowed sort field names its column. *)
Lemma getattr_product_field f :
  Product.getattr (schemas.ProductSortFields.value f) (Column Product.c_id)
  = Column (spec.product_column f).
Proof. by destruct f. Qed.
Lemma getattr_user_field f :
  User.getattr (schemas.UserSortFields.value f) (Column User.c_id)
  = Column (spec.user_column f).
Proof. by destruct f. Qed.
Lemma getattr_order_field f :
  Order.getattr (schemas.OrderSortFields.value f) (Column Order.c_id)
  = Column (spec.order_column f).
Proof. by destruct f. Qed.

Lemma healthy_2 schedule :
  spec.healthy 2 schedule = true →
  spec.failing schedule = false ∧ spec.failing (tail schedule) = false.
Proof. by destruct schedule as [|[] [|[] ?]]. Qed.

(** On a store that carries the two statements, with a column to sort by
    and a valid window, the list function returns the page of the sorted
    matching rows. *)
Lemma page_of_rows_returns {R C} tbl (get : C → R → cell) c sort_order
    skip limit rows s1 :
  spec.failing (faults s1) = false → 0 ≤ skip → 0 < limit →
  ∃ res s2,
    spec.page_of_rows tbl get (Column c) sort_order skip limit rows s1
      = (Ok res, s2)
    ∧ spec.sorted_page (spec.direction sort_order (get c)) rows skip limit
        (crud.items res).
Proof.
  intros Hf Hskip Hlimit. unfold spec.page_of_rows. rewrite Hf.
  assert ((skip <? 0) || (limit <? 0) = false) as ->.
  { apply orb_false_iff. lia. }
  assert (Z.eqb limit 0 = false) as -> by lia.
  do 2 eexists. split; [done|]. cbn [crud.items].
  exists (ordered (Some (spec.direction sort_order (get c))) (Some skip)
            (Some limit) rows).
  split_and!; [apply ordered_Permutation|apply ordered_in_order|done].
Qed.

Lemma product_sort_target_getattr sort_by c :
  spec.product_sort_target sort_by c →
  Product.getattr sort_by (Column Product.c_id) = Column c.
Proof.
  intros [[Hnone ->]|[f [-> ->]]].
  - unfold Product.getattr. by rewrite Hnone.
  - apply getattr_product_field.
Qed.
Lemma user_sort_target_getattr sort_by c :
  spec.user_sort_target sort_by c →
  User.getattr sort_by (Column User.c_id) = Column c.
Proof.
  intros [[Hnone ->]|[f [-> ->]]].
  - unfold User.getattr. by rewrite Hnone.
  - apply getattr_user_field.
Qed.
Lemma order_sort_target_getattr sort_by c :
  spec.order_sort_target sort_by c →
  Order.getattr sort_by (Column Order.c_id) = Column c.
Proof.
  intros [[Hnone ->]|[f [-> ->]]].
  - unfold Order.getattr. by rewrite Hnone.
  - apply getattr_order_field.
Qed.

(** C6 (amended).  A list call does not fail on a [sort_by] that names no
    attribute of the mapped class: on a store that carries its two
    statements, and with a skip of at least 0 and a limit of at least 1, it
    returns the page of the matching rows sorted by id, in the requested
    direction (descending when [sort_order] is [desc] in any letter case
    and ascending otherwise).  A call whose [sort_by] is an allowed sort
    field returns the page of the matching rows sorted by the column of
    that name, in the requested direction. *)
Theorem sort_field_resolution :
  (∀ skip limit search category brand min_price max_price sort_by sort_order
     c s,
     spec.product_sort_target sort_by c →
     spec.healthy 2 (faults s) = true → 0 ≤ skip → 0 < limit →
     ∃ res s',
       crud.get_products skip limit search category brand min_price max_price
         sort_by sort_order s = (Ok res, s')
       ∧ spec.sorted_page (spec.direction sort_order (Product.get c))
           (List.filter
              (spec.product_criterion
                 (spec.product_effective
                    (spec.mkProductFilters search category brand min_price
                       max_price)))
              (products (pending s)))
           skip limit (crud.items res))
  ∧ (∀ skip limit search city country sort_by sort_order c s,
     spec.user_sort_target sort_by c →
     spec.healthy 2 (faults s) = true → 0 ≤ skip → 0 < limit →
     ∃ res s',
       crud.get_users skip limit search city country sort_by sort_order s
         = (Ok res, s')
       ∧ spec.sorted_page (spec.direction sort_order (User.get c))
           (List.filter
              (spec.user_criterion
                 (spec.user_effective (spec.mkUserFilters search city country)))
              (users (pending s)))
           skip limit (crud.items res))
  ∧ (∀ skip limit user_id status sort_by sort_order c s,
     spec.order_sort_target sort_by c →
     spec.healthy 2 (faults s) = true → 0 ≤ skip → 0 < limit →
     ∃ res s',
       crud.get_orders skip limit user_id status sort_by sort_order s
         = (Ok res, s')
       ∧ spec.sorted_page (spec.direction sort_order (spec.order_key c))
           (List.filter
              (spec.order_satisfies
                 (spec.order_effective (spec.mkOrderFilters user_id status)))
              (Order_rows (pending s)))
           skip limit (crud.items res)).
Proof.
  split_and!.
  - intros ??????????? Htarget [Hf1 Hf2]%healthy_2 ??.
    rewrite get_products_eq, Hf1, (product_sort_target_getattr _ _ Htarget).
    by apply page_of_rows_returns.
  - intros ????????? Htarget [Hf1 Hf2]%healthy_2 ??.
    rewrite get_users_eq, Hf1, (user_sort_target_getattr _ _ Htarget).
    by apply page_of_rows_returns.
  - intros ???????? Htarget [Hf1 Hf2]%healthy_2 ??.
    rewrite get_orders_eq, Hf1, (order_sort_target_getattr _ _ Htarget).
    by apply page_of_rows_returns.
Qed.

End list_results.

(** ** Page metadata *)

(** [math.ceil(n / d)] is the least number of pages of [d] rows that hold
    [n] rows. *)
Lemma ceil_quotient n d :
  0 < d →
  (ceil (inject_Z n / inject_Z d) - 1) * d < n ≤ ceil (inject_Z n / inject_Z d) * d.
Proof.
  intros Hd. unfold ceil, Qceiling.
  assert (Qfloor (- (inject_Z n / inject_Z d)) = (- n) / d) as ->.
  { rewrite Zdiv_Qdiv. apply Qfloor_comp.
    rewrite inject_Z_opp. unfold Qdiv. ring. }
  pose proof (Z.mul_div_le (- n) d Hd).
  pose proof (Z.mul_succ_div_gt (- n) d Hd). nia.
Qed.

Section page_metadata.
Context `{Hashlib, FloatStr, Json, Datetime, DeclarativeBase, Engine}.





(** Rows with their timestamps are put in the response. *)
Lemma product_dict_renders r (a : main.App) :
  spec.product_renders r = true → ∃ d, main.product_dict r a = (Ok d, a).
Proof.
  unfold spec.product_renders, main.product_dict.
  destruct (Product.created_at r), (Product.updated_at r); try done.
  intros _. eexists. reflexivity.
Qed.
Lemma user_dict_renders r (a : main.App) :
  spec.user_renders r = true → ∃ d, main.user_dict r a = (Ok d, a).
Proof.
  unfold spec.user_renders, main.user_dict.
  destruct (User.created_at r); try done. intros _. eexists. reflexivity.
Qed.
Lemma order_dict_renders r (a : main.App) :
  spec.order_renders r = true → ∃ d, main.order_dict r a = (Ok d, a).
Proof.
  unfold spec.order_renders, main.order_dict.
  rewrite !andb_true_iff. intros [[Hdate Huser] Hproduct].
  destruct (Order.order_date (order r)); [|done].
  erewrite bind_Ok by reflexivity.
  assert (∃ u, match user r with
               | Some u => main.user_dict u
               | None => ret PNone
               end a = (Ok u, a)) as [u Hu].
  { destruct (user r) as [u|]; [by apply user_dict_renders|by eexists]. }
  erewrite bind_Ok by exact Hu.
  assert (∃ p, match product r with
               | Some p => main.product_dict p
               | None => ret PNone
               end a = (Ok p, a)) as [p Hp].
  { destruct (product r) as [p|]; [by apply product_dict_renders|by eexists]. }
  erewrite bind_Ok by exact Hp. eexists. reflexivity.
Qed.





End page_metadata.

(** ** The theorems on concrete requests *)

Section concrete.
#[local] Existing Instance runtime.hashlib.
#[local] Existing Instance runtime.floatstr.
#[local] Existing Instance runtime.json.
#[local] Existing Instance runtime.datetime.
#[local] Existing Instance runtime.base.
#[local] Existing Instance runtime.engine.

Lemma generate_cache_key_canonical_witness :
  main.generate_cache_key "products"
    [("size", Some (SInt 10)); ("search", None); ("page", Some (SInt 1));
     ("min_price", Some (SFloat (25 # 2)))]
  = main.generate_cache_key "products"
      [("brand", None); ("min_price", Some (SFloat (25 # 2)));
       ("page", Some (SInt 1)); ("size", Some (SInt 10))].
Proof.
  apply generate_cache_key_canonical.
  - apply (bool_decide_unpack _). vm_compute. exact I.
  - apply (bool_decide_unpack _). vm_compute. exact I.
  - intros k v. rewrite !elem_of_cons, !elem_of_nil.
    split; intros Hin; repeat destruct Hin as [Hin|Hin]; simplify_eq; tauto.
Defined.

Example generate_cache_key_products :
  main.generate_cache_key "products"
    [("page", Some (SInt 1)); ("size", Some (SInt 10)); ("search", None);
     ("sort_by", Some (SStr "id")); ("sort_order", Some (SStr "asc"))]
  = "c70f6510e64d7d92f220d4398a1110da".
Proof. vm_compute. reflexivity. Qed.



(** C3, counterexample.  With the category filter given as the empty
    string, the list returns all five products and a total of five, while
    no product has the empty category.  With the search term [_], the
    list returns all five products and a total of five as well, while no
    product holds that character in its name, description or brand. *)
Lemma total_counts_rows_that_fail_the_filter :
  (let F := spec.mkProductFilters None (Some EmptyString) None None None in
   ∃ res s',
     crud.get_products 0 10 None (Some EmptyString) None None None "id" "asc"
       sample.session = (Ok res, s')
     ∧ crud.total res = 5
     ∧ length (List.filter (spec.product_satisfies F) (products sample.tables))
       = 0%nat
     ∧ Forall (λ r, spec.product_satisfies F r = false) (crud.items res)
     ∧ length (crud.items res) = 5%nat)
  ∧ (let F := spec.mkProductFilters (Some "_") None None None None in
     ∃ res s',
       crud.get_products 0 10 (Some "_") None None None None "id" "asc"
         sample.session = (Ok res, s')
       ∧ crud.total res = 5
       ∧ length (List.filter (spec.product_satisfies F) (products sample.tables))
         = 0%nat
       ∧ Forall (λ r, spec.product_satisfies F r = false) (crud.items res)
       ∧ length (crud.items res) = 5%nat).
Proof.
  split.
  - eexists _, _. split; [vm_compute; reflexivity|].
    split_and!; [reflexivity|reflexivity| |reflexivity].
    cbn [crud.items]. repeat constructor.
  - eexists _, _. split; [vm_compute; reflexivity|].
    split_and!; [reflexivity|reflexivity| |reflexivity].
    cbn [crud.items]. repeat constructor.
Qed.

Lemma total_counts_matching_rows_witness :
  (let run := crud.get_products 0 2 (Some "a") (Some "Electronics") (Some EmptyString)
                (Some (100 # 1)) (Some (500 # 1)) "price" "desc" in
   let res := crud.mkPage [sample.camera; sample.phone] 2 1 2 1 in
   let F := spec.product_effective
              (spec.mkProductFilters (Some "a") (Some "Electronics") (Some EmptyString)
                 (Some (100 # 1)) (Some (500 # 1))) in
   (run sample.session).1 = Ok res
   ∧ crud.total res
     = Z.of_nat (length (List.filter (spec.product_satisfies F)
                           (products (pending sample.session))))
   ∧ Forall (λ r, spec.product_satisfies F r = true) (crud.items res))
  ∧ (let run := crud.get_users 0 10 (Some "TUR") None (Some "UK") "id" "asc" in
     let res := crud.mkPage [sample.alan] 1 1 10 1 in
     let F := spec.user_effective
                (spec.mkUserFilters (Some "TUR") None (Some "UK")) in
     (run sample.session).1 = Ok res
     ∧ crud.total res
       = Z.of_nat (length (List.filter (spec.user_satisfies F)
                             (users (pending sample.session))))
     ∧ Forall (λ r, spec.user_satisfies F r = true) (crud.items res))
  ∧ (let run := crud.get_orders 0 10 (Some 0) (Some "shipped") "id" "asc" in
     let res := crud.mkPage [load_order sample.tables sample.order3] 1 1 10 1 in
     let F := spec.order_effective
                (spec.mkOrderFilters (Some 0) (Some "shipped")) in
     (run sample.session).1 = Ok res
     ∧ crud.total res
       = Z.of_nat (length (List.filter (spec.order_satisfies F)
                             (Order_rows (pending sample.session))))
     ∧ Forall (λ r, spec.order_satisfies F r = true) (crud.items res)).
Proof.
  destruct total_counts_matching_rows as (Hproducts & Husers & Horders).
  split_and!.
  - intros run res F. split; [vm_compute; reflexivity|].
    apply (Hproducts 0 2 (Some "a") (Some "Electronics") (Some EmptyString)
             (Some (100 # 1)) (Some (500 # 1)) "price" "desc" sample.session
             res (run sample.session).2); [reflexivity|].
    vm_compute. reflexivity.
  - intros run res F. split; [vm_compute; reflexivity|].
    apply (Husers 0 10 (Some "TUR") None (Some "UK") "id" "asc" sample.session
             res (run sample.session).2); [reflexivity|].
    vm_compute. reflexivity.
  - intros run res F. split; [vm_compute; reflexivity|].
    apply (Horders 0 10 (Some 0) (Some "shipped") "id" "asc" sample.session
             res (run sample.session).2).
    vm_compute. reflexivity.
Defined.

(** C4, counterexample.  After [None] was stored, with success and under a
    ttl that has not elapsed, [get] answers exactly what it answers for a
    key that was never set. *)
Lemma stored_none_reads_as_miss :
  let r1 := (cache.set cache.cache "k" PNone (Some 60) sample.server).2 in
  (cache.set cache.cache "k" PNone (Some 60) sample.server).1 = Ok true
  ∧ cache.live r1 "k" = Some "null"
  ∧ json_loads "null" = Some PNone
  ∧ (cache.get "k" r1).1 = Ok PNone
  ∧ (cache.get "k" sample.server).1 = Ok PNone.
Proof. vm_compute. by split_and!. Qed.

Lemma cache_round_trip_witness :
  let value :=
    PDict [("items", PList [PDict [("id", PInt 1); ("price", PFloat (25 # 2));
                                   ("name", PStr "Novel"); ("rating", PNone)]]);
           ("total", PInt 1)] in
  let r1 := (cache.set cache.cache "k" value (Some 300) sample.server).2 in
  (cache.set cache.cache "k" value (Some 300) sample.server).1 = Ok true
  ∧ (cache.get "k" r1).1 = Ok value
  ∧ (cache.get "k" (cache.tick 300 r1)).1 = Ok PNone.
Proof.
  intros value r1.
  destruct (cache_round_trip cache.cache "k" value 300 sample.server)
    as (Hset & _ & Hget & Hexpired & _).
  - lia.
  - vm_compute. discriminate.
  - vm_compute. discriminate.
  - vm_compute. reflexivity.
  - split_and!; [exact Hset| |apply Hexpired; lia].
    apply Hget. vm_compute. discriminate.
Defined.

(** C6, counterexample.  A sort field outside the allow-list with
    [sort_order = "desc"] gives the products by descending id, and the
    field [description], which is outside the allow-list as well, gives
    them by description, not by id. *)
Lemma unknown_sort_field_follows_sort_order :
  schemas.enum_of_value schemas.ProductSortFields.value
    schemas.ProductSortFields.members "no_such_field" = None
  ∧ schemas.enum_of_value schemas.ProductSortFields.value
      schemas.ProductSortFields.members "description" = None
  ∧ (∃ res s',
      crud.get_products 0 10 None None None None None "no_such_field" "desc"
        sample.session = (Ok res, s')
      ∧ Product.id <$> crud.items res = [5; 4; 3; 2; 1])
  ∧ (∃ res s',
      crud.get_products 0 10 None None None None None "description" "asc"
        sample.session = (Ok res, s')
      ∧ Product.id <$> crud.items res = [1; 2; 3; 5; 4]).
Proof.
  split_and!; [reflexivity|reflexivity| |];
    (eexists _, _; split; vm_compute; reflexivity).
Qed.

Lemma sort_field_resolution_witness :
  (∃ res s',
     crud.get_products 0 10 None None None None None "no_such_field" "DESC"
       sample.session = (Ok res, s')
     ∧ spec.sorted_page (spec.direction "DESC" (Product.get Product.c_id))
         (List.filter
            (spec.product_criterion
               (spec.product_effective
                  (spec.mkProductFilters None None None None None)))
            (products (pending sample.session)))
         0 10 (crud.items res))
  ∧ (∃ res s',
     crud.get_orders 1 2 None None "total_amount" "asc" sample.session
       = (Ok res, s')
     ∧ spec.sorted_page
         (spec.direction "asc" (spec.order_key Order.c_total_amount))
         (List.filter
            (spec.order_satisfies
               (spec.order_effective (spec.mkOrderFilters None None)))
            (Order_rows (pending sample.session)))
         1 2 (crud.items res)).
Proof.
  destruct sort_field_resolution as (Hproducts & _ & Horders).
  split.
  - apply Hproducts; [|reflexivity|lia|lia].
    left. split; reflexivity.
  - apply Horders; [|reflexivity|lia|lia].
    right. by exists schemas.OrderSortFields.total_amount.
Defined.

Example sort_by_total_amount :
  ∃ res s',
    crud.get_orders 1 2 None None "total_amount" "asc" sample.session
      = (Ok res, s')
    ∧ Order.total_amount <$> (order <$> crud.items res)
      = [Some (300 # 1); Some (1200 # 1)].
Proof. eexists _, _. split; vm_compute; reflexivity. Qed.

(** C8, counterexample.  On a reachable server, deleting a key that holds
    nothing returns [False]. *)
Lemma delete_missing_key_returns_false :
  spec.reachable sample.server
  ∧ cache.live sample.server "missing" = None
  ∧ (cache.delete "missing" sample.server).1 = Ok false.
Proof. split_and!; [vm_compute; discriminate|reflexivity|reflexivity]. Qed.

(** C9, counterexample.  With the cache connection down, [clear_pattern]
    can remove nothing (its [KEYS] command raises and it returns 0), the
    entry stays in the cache, and the response still reports
    [cache_cleared] as [True]. *)
Lemma cache_cleared_reported_on_cache_failure :
  let a := main.mkApp sample.session sample.unreachable in
  (cache.client_keys "*" sample.unreachable).1
    = Raise (RedisError "connection failure")
  ∧ (cache.clear_pattern "*" sample.unreachable).1 = Ok 0
  ∧ ∃ response a',
      main.truncate_all_data_endpoint a = (Ok response, a')
      ∧ getitem response "cache_cleared" = Some (PBool true)
      ∧ cache.store (main.redis a') = cache.store sample.unreachable
      ∧ cache.store (main.redis a') !! "stats" = Some (cache.mkEntry "{}" 2000).
Proof.
  split_and!; [reflexivity|reflexivity|].
  eexists _, _. split; [vm_compute; reflexivity|].
  split_and!; reflexivity.
Qed.

Lemma page_size_bound_witness :
  (∃ detail,
     main.app
       (main.GET_orders
          (schemas.OrderQueryParams.mk 1 1001 None None
             schemas.OrderSortFields.id schemas.SortOrder.asc))
       sample.app = (Raise (HTTPException 400 detail), sample.app))
  ∧ (∀ code detail,
     (main.app
        (main.GET_orders
           (schemas.OrderQueryParams.mk 1 1000 None None
              schemas.OrderSortFields.id schemas.SortOrder.asc))
        sample.app).1 ≠ Raise (HTTPException code detail)).
Proof.
  split.
  - eapply (page_size_bound _ 1 1001); [reflexivity|]. lia.
  - eapply (page_size_bound _ 1 1000); [reflexivity|lia|lia|reflexivity].
Defined.

Example truncate_all_faulty_scenario :
  let outcome :=
    main.serve main.truncate_all_data_endpoint [false; false; true]
      sample.world in
  outcome.1
    = Raise (HTTPException 500
        "Failed to truncate data: 500: Error truncating data: storage failure")
  ∧ main.tables outcome.2 = sample.tables.
Proof. vm_compute. split; reflexivity. Qed.

(** The scenario of the specification: truncating a store of 3 orders, 2
    users and 5 products reports these counts, and a list request that
    follows finds nothing. *)
Example truncate_all_scenario :
  let outcome := main.serve main.truncate_all_data_endpoint [] sample.world in
  (r ← getitem (match outcome.1 with Ok r => r | Raise _ => PNone end)
         "deleted_counts";
   Some r)
    = Some (PDict [("orders", PInt 3); ("users", PInt 2); ("products", PInt 5)])
  ∧ (match (main.serve
              (main.app
                 (main.GET_products
                    (schemas.ProductQueryParams.mk 1 10 None None None None
                       None schemas.ProductSortFields.id schemas.SortOrder.asc)))
              [] outcome.2).1 with
     | Ok response => getitem response "total"
     | Raise _ => None
     end) = Some (PInt 0).
Proof. vm_compute. split; reflexivity. Qed.

End concrete.

(** * Further properties of the cache store *)

Section cache_laws.
Context `{Json}.

Lemma live_sent c r key : cache.live (spec.sent c r) key = cache.live r key.
Proof. done. Qed.

(** What [set] does, whatever its ttl argument. *)
Lemma set_any_eq self key value ttl r :
  let t := if truthy_int ttl then default 0 ttl else cache.default_ttl self in
  cache.set self key value ttl r =
  if bool_decide (head (cache.faults r) = Some true) || (t <=? 0)
  then (Ok false, spec.sent (cache.SETEX key t (json_dumps value)) r)
  else (Ok true,
        cache.mkRedis
          (<[key := cache.mkEntry (json_dumps value) (cache.now r + t)]> (cache.store r))
          (cache.now r) (tail (cache.faults r))
          (cache.log r ++ [cache.SETEX key t (json_dumps value)])).
Proof.
  intros t. unfold cache.set, try_except, cache.client_setex. fold t.
  case_bool_decide as Hf; simpl.
  - by rewrite call_fault.
  - rewrite call_reachable by done. by destruct (t <=? 0).
Qed.

(** What [delete] does. *)
Lemma delete_eq key r :
  cache.delete key r =
  if bool_decide (head (cache.faults r) = Some true)
  then (Ok false, spec.sent (cache.DEL [key]) r)
  else (Ok (bool_decide (is_Some (cache.live r key))),
        cache.mkRedis (base.delete key (cache.store r)) (cache.now r)
          (tail (cache.faults r)) (cache.log r ++ [cache.DEL [key]])).
Proof.
  unfold cache.delete, try_except, bind, cache.client_delete.
  case_bool_decide as Hf.
  - by rewrite call_fault.
  - rewrite call_reachable by done. rewrite delete_keys_one, live_sent.
    unfold ret. simpl. by destruct (cache.live r key).
Qed.

(** Deleting keys that are distinct and live removes exactly them. *)
Lemma delete_keys_spec keys r :
  NoDup keys →
  (∀ k, k ∈ keys → is_Some (cache.live r k)) →
  ∃ r', cache.delete_keys keys r = (Z.of_nat (length keys), r')
    ∧ cache.now r' = cache.now r ∧ cache.faults r' = cache.faults r
    ∧ cache.log r' = cache.log r
    ∧ ∀ k, cache.store r' !! k
           = if bool_decide (k ∈ keys) then None else cache.store r !! k.
Proof.
  revert r. induction keys as [|k keys IH]; intros r Hnd Hlive.
  - exists r. by split_and!.
  - apply NoDup_cons in Hnd as [Hk Hnd]. simpl.
    set (r1 := cache.mkRedis _ _ _ _).
    destruct (IH r1 Hnd) as (r' & Hrun & Hnow & Hf & Hlog & Hst).
    { intros k' Hk'. assert (k' ≠ k) by (by intros ->).
      unfold cache.live, r1. simpl. rewrite lookup_delete_ne by done.
      apply Hlive. by right. }
    rewrite Hrun. destruct (Hlive k) as [v ->]; [by left|].
    exists r'. split_and!; try done.
    + f_equal. lia.
    + intros k'. rewrite Hst. unfold r1. simpl.
      destruct (decide (k' = k)) as [->|Hne].
      * rewrite (bool_decide_true (k ∈ k :: keys)) by by left.
        case_bool_decide; [done|]. by rewrite lookup_delete_eq.
      * rewrite lookup_delete_ne by done.
        case_bool_decide as Hin.
        -- rewrite bool_decide_true; [done|by right].
        -- rewrite bool_decide_false; [done|]. by intros [->|?]%elem_of_cons.
Qed.

Lemma live_keys_spec pattern r k :
  k ∈ List.filter (λ k, bool_decide (is_Some (cache.live r k)) && cache.glob pattern k)
        (map_to_list (cache.store r)).*1
  ↔ is_Some (cache.live r k) ∧ cache.glob pattern k = true.
Proof.
  rewrite list_elem_of_In, filter_In, <-list_elem_of_In, andb_true_iff,
    bool_decide_eq_true.
  split; [by intros [? [? ?]]|]. intros [Hl Hg]. split_and!; try done.
  destruct Hl as [v Hl]. unfold cache.live in Hl.
  destruct (cache.store r !! k) as [e|] eqn:He; [|done].
  apply list_elem_of_fmap. exists (k, e). split; [done|].
  by apply elem_of_map_to_list.
Qed.

Lemma live_keys_NoDup pattern r :
  NoDup (List.filter (λ k, bool_decide (is_Some (cache.live r k)) && cache.glob pattern k)
           (map_to_list (cache.store r)).*1).
Proof.
  apply NoDup_ListNoDup, List.NoDup_filter, NoDup_ListNoDup,
    NoDup_fst_map_to_list.
Qed.

(** What [clear_pattern] does when the server answers. *)
Lemma clear_pattern_eq pattern r :
  spec.healthy 2 (cache.faults r) = true →
  ∃ keys r',
    cache.clear_pattern pattern r = (Ok (Z.of_nat (length keys)), r')
    ∧ NoDup keys
    ∧ (∀ k, k ∈ keys ↔ is_Some (cache.live r k) ∧ cache.glob pattern k = true)
    ∧ cache.now r' = cache.now r
    ∧ (∀ k, cache.store r' !! k
            = if bool_decide (k ∈ keys) then None else cache.store r !! k)
    ∧ cache.faults r' = (if keys is [] then tail (cache.faults r)
                         else tail (tail (cache.faults r))).
Proof.
  intros Hh. unfold cache.clear_pattern, try_except, bind, cache.client_keys.
  rewrite call_reachable.
  2:{ unfold spec.reachable. by destruct (cache.faults r) as [|[] ?]. }
  unfold gets.
  set (keys := List.filter _ _).
  assert (Hspec : ∀ k, k ∈ keys ↔ is_Some (cache.live r k) ∧ cache.glob pattern k = true).
  { intros k. apply (live_keys_spec pattern (spec.sent (cache.KEYS pattern) r)). }
  assert (Hnd : NoDup keys)
    by apply (live_keys_NoDup pattern (spec.sent (cache.KEYS pattern) r)).
  clearbody keys. exists keys.
  destruct keys as [|k0 keys'] eqn:Hkeys.
  - eexists. unfold ret. split_and!; try done.
  - rewrite <-Hkeys in *. unfold cache.client_delete. rewrite call_reachable.
    2:{ unfold spec.reachable. simpl. by destruct (cache.faults r) as [|[] [|[] ?]]. }
    destruct (delete_keys_spec keys (spec.sent (cache.DEL keys) (spec.sent (cache.KEYS pattern) r)))
      as (r' & Hrun & Hnow & Hf & Hlog & Hst); [done| |].
    { intros k Hk. rewrite !live_sent. by apply Hspec. }
    rewrite Hrun. exists r'. split_and!; try done.
Qed.

(** X1.  No operation of the cache manager raises: [get], [set], [delete]
    and [clear_pattern] return a value for every key, value, ttl and
    pattern, on every server, reachable or not. *)
Theorem cache_never_raises self key value ttl pattern r :
  (∃ v r', cache.get key r = (Ok v, r'))
  ∧ (∃ b r', cache.set self key value ttl r = (Ok b, r'))
  ∧ (∃ b r', cache.delete key r = (Ok b, r'))
  ∧ (∃ n r', cache.clear_pattern pattern r = (Ok n, r')).
Proof.
  split_and!.
  - rewrite get_eq. eauto.
  - apply set_total.
  - rewrite delete_eq. case_bool_decide; eauto.
  - apply clear_pattern_total.
Qed.

(** X2.  When the connection to the server fails, [get] answers [None],
    [set] and [delete] answer [False] and [clear_pattern] answers 0, and
    the entries on the server are as they were. *)
Theorem cache_degrades_when_unreachable self key value ttl pattern r :
  head (cache.faults r) = Some true →
  (cache.get key r).1 = Ok PNone
  ∧ (cache.set self key value ttl r).1 = Ok false
  ∧ (cache.delete key r).1 = Ok false
  ∧ (cache.clear_pattern pattern r).1 = Ok 0
  ∧ cache.store (cache.get key r).2 = cache.store r
  ∧ cache.store (cache.set self key value ttl r).2 = cache.store r
  ∧ cache.store (cache.delete key r).2 = cache.store r
  ∧ cache.store (cache.clear_pattern pattern r).2 = cache.store r.
Proof.
  intros Hf. rewrite get_eq, set_any_eq, delete_eq.
  rewrite !bool_decide_true by done. simpl.
  unfold cache.clear_pattern, try_except, bind, cache.client_keys.
  rewrite call_fault by done. done.
Qed.

(** X3.  [set] called without a ttl, or with a ttl of 0, stores the entry
    for the manager's default ttl (300 seconds for the module's [cache]):
    the entry is live until that time has passed and gone afterwards.  A
    negative ttl stores nothing and [set] answers [False]. *)
Theorem set_default_ttl self key value ttl r :
  spec.reachable r →
  0 < cache.default_ttl self →
  ttl = None ∨ ttl = Some 0 →
  let r1 := (cache.set self key value ttl r).2 in
  (cache.set self key value ttl r).1 = Ok true
  ∧ (∀ elapsed, 0 ≤ elapsed < cache.default_ttl self →
       cache.live (cache.tick elapsed r1) key = Some (json_dumps value))
  ∧ (∀ elapsed, cache.default_ttl self ≤ elapsed →
       cache.live (cache.tick elapsed r1) key = None)
  ∧ (∀ negative, negative < 0 →
       (cache.set self key value (Some negative) r).1 = Ok false
       ∧ cache.store (cache.set self key value (Some negative) r).2
         = cache.store r).
Proof.
  intros Hr Hd Httl. rewrite set_any_eq.
  assert ((if truthy_int ttl then default 0 ttl else cache.default_ttl self)
          = cache.default_ttl self) as ->.
  { by destruct Httl as [-> | ->]. }
  rewrite bool_decide_false by done.
  assert ((cache.default_ttl self <=? 0) = false) as -> by lia. simpl.
  split_and!; [done| | |].
  - intros d Hd'. unfold cache.live. simpl. rewrite lookup_insert_eq. simpl.
    by assert ((cache.now r + d <? cache.now r + cache.default_ttl self) = true)
      as -> by lia.
  - intros d Hd'. unfold cache.live. simpl. rewrite lookup_insert_eq. simpl.
    by assert ((cache.now r + d <? cache.now r + cache.default_ttl self) = false)
      as -> by lia.
  - intros n Hn. rewrite set_any_eq. simpl.
    assert (Z.eqb n 0 = false) as -> by lia. simpl.
    assert ((n <=? 0) = true) as -> by lia. by rewrite bool_decide_false by done.
Qed.

(** X4.  [set] and [delete] touch one key only: every other key reads as
    before, whatever the outcome of the operation. *)
Theorem cache_write_is_local self key value ttl other r :
  other ≠ key →
  cache.live (cache.set self key value ttl r).2 other = cache.live r other
  ∧ cache.live (cache.delete key r).2 other = cache.live r other.
Proof.
  intros Hne. rewrite set_any_eq, delete_eq. split.
  - destruct (_ || _); [done|]. unfold cache.live. simpl.
    by rewrite lookup_insert_ne.
  - case_bool_decide; [done|]. unfold cache.live. simpl.
    by rewrite lookup_delete_ne.
Qed.

(** X5.  An entry is readable for the whole of its ttl: after a [set] with a
    positive ttl on a reachable server, a [get] at any time before the ttl
    has elapsed returns the stored value (for a value that survives the JSON
    round trip). *)
Theorem cache_hit_until_expiry self key value ttl r elapsed :
  0 < ttl →
  spec.reachable r →
  json_dumps value ≠ EmptyString →
  json_loads (json_dumps value) = Some value →
  0 ≤ elapsed < ttl →
  let r1 := cache.tick elapsed (cache.set self key value (Some ttl) r).2 in
  spec.reachable r1 →
  (cache.get key r1).1 = Ok value.
Proof.
  intros Httl Hr Hne Hrt Hel r1 Hr1. rewrite get_eq. simpl.
  rewrite bool_decide_false by done.
  unfold r1. rewrite set_eq by done. unfold cache.live. simpl.
  rewrite lookup_insert_eq. simpl.
  assert ((cache.now r + elapsed <? cache.now r + ttl) = true) as -> by lia.
  rewrite Hrt. simpl.
  destruct (String.eqb (json_dumps value) EmptyString) eqn:Heq; [|done].
  by apply String.eqb_eq in Heq.
Qed.

(** X6.  When the server answers, [clear_pattern] returns the number of
    live keys that match the pattern and removes exactly those: afterwards
    no key that matches is live and every other key reads as before.  A
    key matches as [KEYS] selects it: the pattern is a glob with [*], [?],
    classes in brackets and backslash escapes. *)
Theorem clear_pattern_removes_matching pattern r :
  spec.healthy 2 (cache.faults r) = true →
  ∃ keys r',
    cache.clear_pattern pattern r = (Ok (Z.of_nat (length keys)), r')
    ∧ NoDup keys
    ∧ (∀ k, k ∈ keys ↔ is_Some (cache.live r k) ∧ cache.glob pattern k = true)
    ∧ (∀ k, cache.live r' k
            = if cache.glob pattern k then None else cache.live r k).
Proof.
  intros Hh.
  destruct (clear_pattern_eq pattern r Hh)
    as (keys & r' & Hrun & Hnd & Hkeys & Hnow & Hst & _).
  exists keys, r'. split_and!; try done.
  intros k. unfold cache.live at 1. rewrite Hst, Hnow.
  case_bool_decide as Hin.
  - apply Hkeys in Hin as [_ ->]. done.
  - destruct (cache.glob pattern k) eqn:Hg; [|done].
    destruct (cache.live r k) as [v|] eqn:Hl.
    + exfalso. apply Hin, Hkeys. eauto.
    + done.
Qed.

Lemma glob_star k : cache.glob "*" k = true.
Proof. done. Qed.

(** X7.  [clear_pattern("*")] empties the cache: when the server answers,
    the call returns the number of live keys and no key is live afterwards,
    so that a second call finds nothing and returns 0. *)
Theorem clear_all_empties_cache r :
  spec.healthy 3 (cache.faults r) = true →
  ∃ keys r',
    cache.clear_pattern "*" r = (Ok (Z.of_nat (length keys)), r')
    ∧ NoDup keys
    ∧ (∀ k, k ∈ keys ↔ is_Some (cache.live r k))
    ∧ (∀ k, cache.live r' k = None)
    ∧ (cache.clear_pattern "*" r').1 = Ok 0.
Proof.
  intros Hh.
  assert (Hh2 : spec.healthy 2 (cache.faults r) = true).
  { by destruct (cache.faults r) as [|[] [|[] [|[] ?]]]. }
  destruct (clear_pattern_eq "*" r Hh2)
    as (keys & r' & Hrun & Hnd & Hkeys & Hnow & Hst & Hf).
  assert (Hdead : ∀ k, cache.live r' k = None).
  { intros k. unfold cache.live. rewrite Hst, Hnow.
    case_bool_decide as Hin; [done|].
    destruct (cache.store r !! k) as [e|] eqn:He; [|done].
    destruct (cache.now r <? cache.expires_at e) eqn:Hlt; [|done].
    exfalso. apply Hin, Hkeys. split; [|apply glob_star].
    unfold cache.live. rewrite He, Hlt. eauto. }
  exists keys, r'. split_and!; try done.
  - intros k. rewrite Hkeys. split; [by intros [? _]|].
    intros ?. split; [done|apply glob_star].
  - unfold cache.clear_pattern, try_except, bind, cache.client_keys.
    rewrite call_reachable.
    2:{ unfold spec.reachable. rewrite Hf.
        destruct keys; by destruct (cache.faults r) as [|[] [|[] [|[] ?]]]. }
    unfold gets.
    set (l := List.filter _ _).
    assert (l = []) as ->; [|done].
    destruct l as [|k l'] eqn:Hl; [done|].
    assert (Hk : k ∈ l) by (rewrite Hl; by left).
    apply (live_keys_spec "*" (spec.sent (cache.KEYS "*") r')) in Hk as [Hlive _].
    rewrite live_sent, Hdead in Hlive. by destruct Hlive.
Qed.

End cache_laws.

(** * Further properties of the query engine *)

Lemma slice_length {R} skip limit (rows : list R) :
  0 ≤ skip → 0 ≤ limit →
  Z.of_nat (length (slice (Some skip) (Some limit) rows))
  = Z.min limit (Z.max 0 (Z.of_nat (length rows) - skip)).
Proof.
  intros Hs Hl. unfold slice. rewrite length_take, length_drop. lia.
Qed.

Lemma ordered_length `{Engine} {R} o off lim (rows : list R) :
  length (ordered o off lim rows) = length rows.
Proof. by rewrite ordered_Permutation. Qed.

(** *** The order of [ORDER BY] is a total preorder *)

Lemma string_compare_trans x y z :
  String.compare x y ≠ Gt → String.compare y z ≠ Gt → String.compare x z ≠ Gt.
Proof.
  intros Hxy Hyz.
  destruct (String.compare x y) eqn:Exy; [|clear Hxy|done].
  { apply OrderedTypeEx.String_as_OT.cmp_eq in Exy as ->. done. }
  destruct (String.compare y z) eqn:Eyz; [|clear Hyz|done].
  { apply OrderedTypeEx.String_as_OT.cmp_eq in Eyz as <-. by rewrite Exy. }
  apply OrderedTypeEx.String_as_OT.cmp_lt in Exy, Eyz.
  pose proof (OrderedTypeEx.String_as_OT.lt_trans _ _ _ Exy Eyz) as Hxz.
  apply OrderedTypeEx.String_as_OT.cmp_lt in Hxz.
  unfold OrderedTypeEx.String_as_OT.cmp in Hxz. by rewrite Hxz.
Qed.

Lemma cell_leb_compare a b : cell_leb a b = true ↔ cell_compare a b ≠ Gt.
Proof. unfold cell_leb. by destruct (cell_compare a b). Qed.

Lemma cell_leb_trans a b c :
  cell_leb a b = true → cell_leb b c = true → cell_leb a c = true.
Proof.
  rewrite !cell_leb_compare.
  destruct a as [|x|x|x|x|x], b as [|y|y|y|y|y], c as [|z|z|z|z|z];
    simpl; try done.
  - rewrite !Z.compare_le_iff. lia.
  - rewrite <-!Qle_alt. apply Qle_trans.
  - apply string_compare_trans.
  - by destruct x, y, z.
  - rewrite !Z.compare_le_iff. lia.
Qed.

Lemma cell_leb_antisym a b :
  cell_leb a b = true → cell_leb b a = true → cell_compare a b = Eq.
Proof.
  rewrite !cell_leb_compare, (cell_compare_antisym a b).
  by destruct (cell_compare a b).
Qed.

Lemma direction_trans {R} sort_order (key : R → cell) :
  Transitive (λ a b, Is_true (spec.direction sort_order key a b)).
Proof.
  intros a b c. unfold spec.direction, descending, ascending.
  destruct (String.eqb _ _); rewrite !Is_true_true; intros Hab Hbc.
  - by apply (cell_leb_trans _ (key b)).
  - by apply (cell_leb_trans _ (key b)).
Qed.

Lemma keys_differ_distinct {R} (key : R → cell) rows :
  props.keys_differ key rows = true → props.distinct_keys key rows.
Proof.
  induction rows as [|r rows IH]; intros Hd a b Ha Hb Heq.
  { by apply elem_of_nil in Ha. }
  simpl in Hd. apply andb_true_iff in Hd as [Hr Hrows].
  rewrite forallb_forall in Hr.
  apply elem_of_cons in Ha as [->|Ha], Hb as [->|Hb]; [done| | |by apply IH].
  - apply list_elem_of_In, Hr in Hb. by rewrite Heq in Hb.
  - apply list_elem_of_In, Hr in Ha.
    by rewrite (cell_compare_antisym (key a) (key r)), Heq in Ha.
Qed.

(** Rows whose sort keys are pairwise different have one sorted order, so
    every statement gets them in that order. *)
Lemma ordered_unique `{Engine} {R} sort_order (key : R → cell) off lim off' lim'
    rows :
  props.distinct_keys key rows →
  ordered (Some (spec.direction sort_order key)) off lim rows
  = ordered (Some (spec.direction sort_order key)) off' lim' rows.
Proof.
  intros Hkeys.
  apply (Sorted_unique_strong
           (λ a b, Is_true (spec.direction sort_order key a b))
           (Transitive0 := direction_trans sort_order key)).
  - intros a b Ha Hb. rewrite ordered_Permutation in Ha, Hb.
    unfold spec.direction, descending, ascending.
    destruct (String.eqb _ _); rewrite !Is_true_true; intros Hab Hba.
    + apply Hkeys; [done..|]. by apply cell_leb_antisym.
    + apply Hkeys; [done..|]. by apply cell_leb_antisym.
  - apply ordered_in_order.
  - apply ordered_in_order.
  - by rewrite !ordered_Permutation.
Qed.

(** The pages of a list, one after the other, give the list back. *)
Lemma pages_concat {R} (L : nat) (rows : list R) (p : nat) :
  (length rows ≤ p * L)%nat →
  concat (List.map (λ k, take L (drop (k * L) rows)) (seq 0 p)) = rows.
Proof.
  revert rows. induction p as [|p IH]; intros rows Hlen.
  - simpl in *. destruct rows; [done|simpl in Hlen; lia].
  - rewrite <-cons_seq, <-seq_shift. simpl. rewrite List.map_map.
    transitivity (take L rows ++ drop L rows); [|apply take_drop].
    f_equal. rewrite <-(IH (drop L rows)) at 1.
    2:{ rewrite length_drop. lia. }
    f_equal. apply List.map_ext. intros k. by rewrite drop_drop.
Qed.

Lemma ceil_pages n d :
  0 ≤ n → 0 < d → 0 ≤ ceil (inject_Z n / inject_Z d).
Proof. intros Hn Hd. pose proof (ceil_quotient n d Hd). nia. Qed.

Section query_laws.
Context `{DeclarativeBase, Engine}.

(** The page that [page_of_rows] computes on a session that carries its
    statement. *)
Lemma page_of_rows_eq {R C} tbl (get : C → R → cell) c sort_order skip limit
    rows s1 :
  spec.failing (faults s1) = false → 0 ≤ skip → 0 < limit →
  spec.page_of_rows tbl get (Column c) sort_order skip limit rows s1
  = (Ok (crud.mkPage
           (slice (Some skip) (Some limit)
              (ordered (Some (spec.direction sort_order (get c)))
                 (Some skip) (Some limit) rows))
           (Z.of_nat (length rows)) (skip / limit + 1) limit
           (ceil (inject_Z (Z.of_nat (length rows)) / inject_Z limit))),
     spec.issued (Select tbl) s1).
Proof.
  intros Hf Hs Hl. unfold spec.page_of_rows. rewrite Hf.
  assert ((skip <? 0) || (limit <? 0) = false) as ->.
  { apply orb_false_iff. lia. }
  by assert (Z.eqb limit 0 = false) as -> by lia.
Qed.

Lemma page_of_rows_window {R C} tbl (get : C → R → cell) sort_column
    sort_order skip limit rows s1 res s2 :
  spec.page_of_rows tbl get sort_column sort_order skip limit rows s1
    = (Ok res, s2) →
  Z.of_nat (length (crud.items res))
  = Z.min limit (Z.max 0 (crud.total res - skip)).
Proof.
  intros (c & _ & Hs & Hl & ->)%page_of_rows_Ok. cbn [crud.items crud.total].
  rewrite slice_length by lia. by rewrite ordered_length.
Qed.

(** X8.  A page holds the rows that are left after the skip, up to the
    limit: for every list call that returns, the number of items is the
    smaller of [limit] and [total - skip] (none when the skip is at or
    beyond the total), while [total] still counts all matching rows. *)
Theorem page_window :
  (∀ skip limit search category brand min_price max_price sort_by sort_order
     s res s',
     crud.get_products skip limit search category brand min_price max_price
       sort_by sort_order s = (Ok res, s') →
     Z.of_nat (length (crud.items res))
     = Z.min limit (Z.max 0 (crud.total res - skip)))
  ∧ (∀ skip limit search city country sort_by sort_order s res s',
     crud.get_users skip limit search city country sort_by sort_order s
       = (Ok res, s') →
     Z.of_nat (length (crud.items res))
     = Z.min limit (Z.max 0 (crud.total res - skip)))
  ∧ (∀ skip limit user_id status sort_by sort_order s res s',
     crud.get_orders skip limit user_id status sort_by sort_order s
       = (Ok res, s') →
     Z.of_nat (length (crud.items res))
     = Z.min limit (Z.max 0 (crud.total res - skip))).
Proof.
  split_and!.
  - intros ???????????? Hrun. rewrite get_products_eq in Hrun.
    destruct (spec.failing _); [done|]. by eapply page_of_rows_window.
  - intros ?????????? Hrun. rewrite get_users_eq in Hrun.
    destruct (spec.failing _); [done|]. by eapply page_of_rows_window.
  - intros ????????? Hrun. rewrite get_orders_eq in Hrun.
    destruct (spec.failing _); [done|]. by eapply page_of_rows_window.
Qed.

(** The pages of a table under one filter set and one order, for rows
    whose sort keys are pairwise different. *)
Lemma page_of_rows_pages {R C} tbl (get : C → R → cell) c sort_order limit
    rows (s1 : nat → Session) :
  0 < limit → (∀ k, spec.failing (faults (s1 k)) = false) →
  props.distinct_keys (get c) rows →
  let call k :=
    spec.page_of_rows tbl get (Column c) sort_order (Z.of_nat k * limit) limit
      rows (s1 k) in
  ∃ pages : nat,
    (∀ k, ∃ res s', call k = (Ok res, s')
                    ∧ crud.pages res = Z.of_nat pages
                    ∧ crud.page res = Z.of_nat k + 1
                    ∧ crud.total res = Z.of_nat (length rows))
    ∧ concat (List.map (λ k, props.items_of (call k)) (seq 0 pages)) ≡ₚ rows
    ∧ (∀ k, (pages ≤ k)%nat → props.items_of (call k) = []).
Proof.
  intros Hl Hf Hkeys call.
  pose proof (ceil_quotient (Z.of_nat (length rows)) limit Hl) as Hc.
  pose proof (ceil_pages (Z.of_nat (length rows)) limit ltac:(lia) Hl) as Hp.
  set (pages := ceil (inject_Z (Z.of_nat (length rows)) / inject_Z limit)) in *.
  set (sorted := ordered (Some (spec.direction sort_order (get c))) None None
                   rows).
  assert (Hcall : ∀ k, call k =
    (Ok (crud.mkPage (take (Z.to_nat limit) (drop (k * Z.to_nat limit) sorted))
           (Z.of_nat (length rows)) (Z.of_nat k + 1) limit pages),
     spec.issued (Select tbl) (s1 k))).
  { intros k. unfold call. rewrite page_of_rows_eq by (done || lia).
    rewrite Z.div_mul by lia.
    rewrite (ordered_unique sort_order (get c) _ _ None None rows Hkeys).
    do 3 f_equal. unfold slice. do 2 f_equal. nia. }
  exists (Z.to_nat pages). split_and!.
  - intros k. rewrite Hcall. do 2 eexists. split_and!; try done. simpl. lia.
  - transitivity sorted.
    2:{ unfold sorted. apply ordered_Permutation. }
    erewrite List.map_ext.
    2:{ intros k. unfold props.items_of. rewrite Hcall. simpl. reflexivity. }
    rewrite pages_concat; [reflexivity|].
    unfold sorted. rewrite ordered_length. nia.
  - intros k Hk. unfold props.items_of. rewrite Hcall. simpl.
    rewrite drop_ge; [by rewrite take_nil|]. unfold sorted. rewrite ordered_length. nia.
Qed.

(** X9.  Paging by a sort key that tells the rows apart loses and repeats
    nothing, whatever order the store gives to rows that compare equal.
    For a page size above 0, a sort field of the schema on which no two of
    the selected rows compare equal, and a store that carries the two
    statements of each call, the calls with skip 0, limit, 2 * limit, ...
    on the same tables all report the same [pages] and [total], call
    number k reports page k + 1, the items of the first [pages] calls are
    together the selected rows, each once, and every later page is
    empty. *)
Theorem pages_partition_matching_rows :
  (∀ limit search category brand min_price max_price f sort_order s,
     0 < limit → spec.healthy 2 (faults s) = true →
     let F := spec.product_effective
                (spec.mkProductFilters search category brand min_price max_price) in
     let rows := List.filter (spec.product_criterion F) (products (pending s)) in
     props.distinct_keys (Product.get (spec.product_column f)) rows →
     let call (k : nat) :=
       crud.get_products (Z.of_nat k * limit) limit search category brand
         min_price max_price (schemas.ProductSortFields.value f) sort_order s in
     ∃ pages : nat,
       (∀ k, ∃ res s', call k = (Ok res, s')
                       ∧ crud.pages res = Z.of_nat pages
                       ∧ crud.page res = Z.of_nat k + 1
                       ∧ crud.total res = Z.of_nat (length rows))
       ∧ concat (List.map (λ k, props.items_of (call k)) (seq 0 pages)) ≡ₚ rows
       ∧ (∀ k, (pages ≤ k)%nat → props.items_of (call k) = []))
  ∧ (∀ limit search city country f sort_order s,
     0 < limit → spec.healthy 2 (faults s) = true →
     let F := spec.user_effective (spec.mkUserFilters search city country) in
     let rows := List.filter (spec.user_criterion F) (users (pending s)) in
     props.distinct_keys (User.get (spec.user_column f)) rows →
     let call (k : nat) :=
       crud.get_users (Z.of_nat k * limit) limit search city country
         (schemas.UserSortFields.value f) sort_order s in
     ∃ pages : nat,
       (∀ k, ∃ res s', call k = (Ok res, s')
                       ∧ crud.pages res = Z.of_nat pages
                       ∧ crud.page res = Z.of_nat k + 1
                       ∧ crud.total res = Z.of_nat (length rows))
       ∧ concat (List.map (λ k, props.items_of (call k)) (seq 0 pages)) ≡ₚ rows
       ∧ (∀ k, (pages ≤ k)%nat → props.items_of (call k) = []))
  ∧ (∀ limit user_id status f sort_order s,
     0 < limit → spec.healthy 2 (faults s) = true →
     let F := spec.order_effective (spec.mkOrderFilters user_id status) in
     let rows := List.filter (spec.order_satisfies F) (Order_rows (pending s)) in
     props.distinct_keys (spec.order_key (spec.order_column f)) rows →
     let call (k : nat) :=
       crud.get_orders (Z.of_nat k * limit) limit user_id status
         (schemas.OrderSortFields.value f) sort_order s in
     ∃ pages : nat,
       (∀ k, ∃ res s', call k = (Ok res, s')
                       ∧ crud.pages res = Z.of_nat pages
                       ∧ crud.page res = Z.of_nat k + 1
                       ∧ crud.total res = Z.of_nat (length rows))
       ∧ concat (List.map (λ k, props.items_of (call k)) (seq 0 pages)) ≡ₚ rows
       ∧ (∀ k, (pages ≤ k)%nat → props.items_of (call k) = [])).
Proof.
  split_and!.
  - intros limit search category brand min_price max_price f sort_order s
      Hl [Hf1 Hf2]%healthy_2 F rows Hkeys call.
    destruct (page_of_rows_pages "products" Product.get (spec.product_column f)
                sort_order limit rows
                (λ _, spec.issued (Count "products") s) Hl (λ _, Hf2) Hkeys)
      as (pages & Hcalls & Hperm & Hlate).
    assert (Hcall : ∀ k, call k =
      spec.page_of_rows "products" Product.get
        (Column (spec.product_column f)) sort_order (Z.of_nat k * limit) limit
        rows (spec.issued (Count "products") s)).
    { intros k. unfold call.
      by rewrite get_products_eq, Hf1, getattr_product_field. }
    exists pages. split_and!.
    + intros k. rewrite Hcall. apply Hcalls.
    + erewrite List.map_ext; [exact Hperm|]. intros k. by rewrite Hcall.
    + intros k Hk. rewrite Hcall. by apply Hlate.
  - intros limit search city country f sort_order s
      Hl [Hf1 Hf2]%healthy_2 F rows Hkeys call.
    destruct (page_of_rows_pages "users" User.get (spec.user_column f)
                sort_order limit rows
                (λ _, spec.issued (Count "users") s) Hl (λ _, Hf2) Hkeys)
      as (pages & Hcalls & Hperm & Hlate).
    assert (Hcall : ∀ k, call k =
      spec.page_of_rows "users" User.get
        (Column (spec.user_column f)) sort_order (Z.of_nat k * limit) limit
        rows (spec.issued (Count "users") s)).
    { intros k. unfold call.
      by rewrite get_users_eq, Hf1, getattr_user_field. }
    exists pages. split_and!.
    + intros k. rewrite Hcall. apply Hcalls.
    + erewrite List.map_ext; [exact Hperm|]. intros k. by rewrite Hcall.
    + intros k Hk. rewrite Hcall. by apply Hlate.
  - intros limit user_id status f sort_order s
      Hl [Hf1 Hf2]%healthy_2 F rows Hkeys call.
    destruct (page_of_rows_pages "orders" spec.order_key (spec.order_column f)
                sort_order limit rows
                (λ _, spec.issued (Count "orders") s) Hl (λ _, Hf2) Hkeys)
      as (pages & Hcalls & Hperm & Hlate).
    assert (Hcall : ∀ k, call k =
      spec.page_of_rows "orders" spec.order_key
        (Column (spec.order_column f)) sort_order (Z.of_nat k * limit) limit
        rows (spec.issued (Count "orders") s)).
    { intros k. unfold call.
      by rewrite get_orders_eq, Hf1, getattr_order_field. }
    exists pages. split_and!.
    + intros k. rewrite Hcall. apply Hcalls.
    + erewrite List.map_ext; [exact Hperm|]. intros k. by rewrite Hcall.
    + intros k Hk. rewrite Hcall. by apply Hlate.
Qed.

End query_laws.

Lemma filter_none {R} (P : R → bool) rows :
  (∀ r, P r = false) → List.filter P rows = [].
Proof.
  intros HP. induction rows as [|r rows IH]; [done|]. simpl. by rewrite HP.
Qed.

Section query_edges.
Context `{DeclarativeBase, Engine}.

(** X10.  A page size of 0 makes a list function fail after its work is
    done: with a store that carries the two statements, the count and the
    select are sent, and then the page index raises
    [ZeroDivisionError]. *)
Theorem limit_zero_raises s skip sort_order :
  0 ≤ skip → spec.healthy 2 (faults s) = true →
  let s' := spec.issued (Select "products") (spec.issued (Count "products") s) in
  let u' := spec.issued (Select "users") (spec.issued (Count "users") s) in
  let o' := spec.issued (Select "orders") (spec.issued (Count "orders") s) in
  let e := ZeroDivisionError "integer division or modulo by zero" in
  (∀ search category brand min_price max_price f,
     crud.get_products skip 0 search category brand min_price max_price
       (schemas.ProductSortFields.value f) sort_order s = (Raise e, s'))
  ∧ (∀ search city country f,
     crud.get_users skip 0 search city country
       (schemas.UserSortFields.value f) sort_order s = (Raise e, u'))
  ∧ (∀ user_id status f,
     crud.get_orders skip 0 user_id status
       (schemas.OrderSortFields.value f) sort_order s = (Raise e, o')).
Proof.
  intros Hs [Hf1 Hf2]%healthy_2. simpl.
  assert ((skip <? 0) = false) as Hb by lia.
  split_and!; intros.
  - rewrite get_products_eq, Hf1, getattr_product_field.
    unfold spec.page_of_rows. simpl. by rewrite Hf2, Hb.
  - rewrite get_users_eq, Hf1, getattr_user_field.
    unfold spec.page_of_rows. simpl. by rewrite Hf2, Hb.
  - rewrite get_orders_eq, Hf1, getattr_order_field.
    unfold spec.page_of_rows. simpl. by rewrite Hf2, Hb.
Qed.

(** X11.  A price range whose lower bound is above its upper bound is not
    an error for [get_products]: every such call that returns reports no
    rows, a total of 0 and 0 pages. *)
Theorem inverted_price_range_is_empty skip limit search category brand lo hi
    sort_by sort_order s res s' :
  (hi < lo)%Q →
  crud.get_products skip limit search category brand (Some lo) (Some hi)
    sort_by sort_order s = (Ok res, s') →
  crud.items res = [] ∧ crud.total res = 0 ∧ crud.pages res = 0.
Proof.
  intros Hlt Hrun. rewrite get_products_eq in Hrun.
  destruct (spec.failing _); [done|].
  assert (List.filter
            (spec.product_criterion
               (spec.product_effective
                  (spec.mkProductFilters search category brand (Some lo) (Some hi))))
            (products (pending s)) = []) as Hnone.
  { assert (∀ r, spec.product_criterion
                   (spec.product_effective
                      (spec.mkProductFilters search category brand (Some lo) (Some hi))) r
                 = false) as Hno.
    { intros r. unfold spec.product_criterion. simpl.
      destruct (Product.price r) as [p|]; simpl; [|by rewrite andb_false_r].
      destruct (Qle_bool lo p) eqn:H1; [|by rewrite !andb_false_r].
      destruct (Qle_bool p hi) eqn:H2; [|by rewrite !andb_false_r].
      apply Qle_bool_iff in H1, H2. exfalso.
      apply (Qlt_irrefl lo).
      exact (Qle_lt_trans _ _ _ (Qle_trans _ _ _ H1 H2) Hlt). }
    by apply filter_none. }
  rewrite Hnone in Hrun.
  apply page_of_rows_Ok in Hrun as (c & _ & Hs & Hl & ->).
  cbn [crud.items crud.total crud.pages]. split_and!; [|done|].
  - apply nil_length_inv, Nat2Z.inj. rewrite slice_length by lia.
    rewrite ordered_length. simpl. lia.
  - change (Z.of_nat (length [])) with 0.
    pose proof (ceil_quotient 0 limit Hl) as Hc.
    set (pages := ceil (inject_Z 0 / inject_Z limit)) in *.
    assert (0 ≤ pages) by nia. assert (pages < 1) by nia. lia.
Qed.

End query_edges.

(** ** Lookups by id *)

Section lookups.
Context `{Engine}.

Lemma first_eq {R} (q : Query R) s :
  offset_ q = None →
  crud_item.first q s =
  if spec.failing (faults s)
  then (Raise (SQLAlchemyError "storage failure"), spec.issued (Select (table q)) s)
  else (Ok (head (ordered (ordering q) None (Some 1) (matching q (pending s)))),
        spec.issued (Select (table q)) s).
Proof.
  intros Hoff. unfold crud_item.first, bind, all. rewrite execute_eq. simpl.
  destruct (spec.failing _); [done|].
  rewrite Hoff. simpl. unfold gets, ret, slice.
  do 2 f_equal. unfold matching. simpl.
  by destruct (ordered _ _ _ _).
Qed.

Lemma find_filter_head {R} (P : R → bool) rows :
  head (List.filter (and_ [P]) rows) = List.find P rows.
Proof.
  induction rows as [|r rows IH]; [done|]. simpl. unfold and_ at 1. simpl.
  rewrite andb_true_r. by destruct (P r).
Qed.

Lemma get_product_eq product_id s :
  crud_item.get_product product_id s =
  if spec.failing (faults s)
  then (Raise (SQLAlchemyError "storage failure"), spec.issued (Select "products") s)
  else (Ok (List.find (λ r, Z.eqb (Product.id r) product_id) (products (pending s))),
        spec.issued (Select "products") s).
Proof.
  unfold crud_item.get_product. rewrite first_eq by done. simpl.
  destruct (spec.failing _); [done|]. unfold matching. simpl.
  by rewrite find_filter_head.
Qed.

Lemma get_user_eq user_id s :
  crud_item.get_user user_id s =
  if spec.failing (faults s)
  then (Raise (SQLAlchemyError "storage failure"), spec.issued (Select "users") s)
  else (Ok (List.find (λ r, Z.eqb (User.id r) user_id) (users (pending s))),
        spec.issued (Select "users") s).
Proof.
  unfold crud_item.get_user. rewrite first_eq by done. simpl.
  destruct (spec.failing _); [done|]. unfold matching. simpl.
  by rewrite find_filter_head.
Qed.

Lemma get_order_eq order_id s :
  crud_item.get_order order_id s =
  if spec.failing (faults s)
  then (Raise (SQLAlchemyError "storage failure"), spec.issued (Select "orders") s)
  else (Ok (List.find (λ r, Z.eqb (Order.id (order r)) order_id)
              (Order_rows (pending s))),
        spec.issued (Select "orders") s).
Proof.
  unfold crud_item.get_order. rewrite first_eq by done. simpl.
  destruct (spec.failing _); [done|]. unfold matching. simpl.
  by rewrite find_filter_head.
Qed.

Lemma find_spec {R} (P : R → bool) rows :
  match List.find P rows with
  | Some r => r ∈ rows ∧ P r = true
  | None => ∀ r, r ∈ rows → P r = false
  end.
Proof.
  destruct (List.find P rows) as [r|] eqn:Hfind.
  - apply find_some in Hfind as [Hin ?]. by rewrite list_elem_of_In.
  - intros r Hin%list_elem_of_In. by eapply find_none in Hfind.
Qed.

(** X12.  A lookup by id sends one select and changes no table.  When the
    store carries the statement it returns a row of the table that has the
    requested id, or [None] exactly when no row has it; an order comes with
    its user and product resolved.  When the statement fails the lookup
    raises. *)
Theorem lookup_by_id id s :
  (spec.failing (faults s) = false →
   (∃ found, crud_item.get_product id s
             = (Ok found, spec.issued (Select "products") s)
      ∧ match found with
        | Some r => r ∈ products (pending s) ∧ Product.id r = id
        | None => ∀ r, r ∈ products (pending s) → Product.id r ≠ id
        end)
   ∧ (∃ found, crud_item.get_user id s
               = (Ok found, spec.issued (Select "users") s)
      ∧ match found with
        | Some r => r ∈ users (pending s) ∧ User.id r = id
        | None => ∀ r, r ∈ users (pending s) → User.id r ≠ id
        end)
   ∧ (∃ found, crud_item.get_order id s
               = (Ok found, spec.issued (Select "orders") s)
      ∧ match found with
        | Some r => order r ∈ orders (pending s) ∧ Order.id (order r) = id
                    ∧ r = load_order (pending s) (order r)
        | None => ∀ r, r ∈ orders (pending s) → Order.id r ≠ id
        end))
  ∧ (spec.failing (faults s) = true →
     (crud_item.get_product id s).1 = Raise (SQLAlchemyError "storage failure")
     ∧ (crud_item.get_user id s).1 = Raise (SQLAlchemyError "storage failure")
     ∧ (crud_item.get_order id s).1 = Raise (SQLAlchemyError "storage failure")).
Proof.
  rewrite get_product_eq, get_user_eq, get_order_eq. split.
  - intros ->. split_and!; eexists; (split; [reflexivity|]).
    + pose proof (find_spec (λ r, Z.eqb (Product.id r) id) (products (pending s))) as Hf.
      destruct (List.find _ _) as [r|].
      * destruct Hf as [? ?%Z.eqb_eq]. done.
      * intros r Hr. apply Hf in Hr. by apply Z.eqb_neq.
    + pose proof (find_spec (λ r, Z.eqb (User.id r) id) (users (pending s))) as Hf.
      destruct (List.find _ _) as [r|].
      * destruct Hf as [? ?%Z.eqb_eq]. done.
      * intros r Hr. apply Hf in Hr. by apply Z.eqb_neq.
    + pose proof (find_spec (λ r, Z.eqb (Order.id (order r)) id)
                    (Order_rows (pending s))) as Hf.
      destruct (List.find _ _) as [r|].
      * destruct Hf as [Hin ?%Z.eqb_eq]. unfold Order_rows in Hin.
        apply list_elem_of_In, in_map_iff in Hin as (o & <- & Hin).
        by rewrite list_elem_of_In.
      * intros o Ho. apply Z.eqb_neq.
        apply (Hf (load_order (pending s) o)). unfold Order_rows.
        apply list_elem_of_In, in_map. by apply list_elem_of_In.
  - by intros ->.
Qed.

End lookups.

(** ** Search *)

Lemma elem_of_List_filter {R} (P : R → bool) rows r :
  r ∈ List.filter P rows ↔ r ∈ rows ∧ P r = true.
Proof. by rewrite !list_elem_of_In, filter_In. Qed.

Lemma List_filter_sublist {R} (P : R → bool) rows :
  List.filter P rows `sublist_of` rows.
Proof.
  induction rows as [|r rows IH]; [done|]. simpl.
  destruct (P r); by constructor.
Qed.

Lemma elem_of_page `{Engine} {R} off lim o off' lim' (rows : list R) r :
  r ∈ slice off lim (ordered o off' lim' rows) → r ∈ rows.
Proof.
  intros Hr.
  assert (Forall (λ r, r ∈ rows) (slice off lim (ordered o off' lim' rows)))
    as Hall.
  { apply Forall_slice, Forall_ordered, Forall_forall. auto. }
  rewrite Forall_forall in Hall. by apply Hall.
Qed.

Section search.
Context `{DeclarativeBase, Engine}.

(** X13.  The search of products and users is a case-insensitive substring
    match: for a search term that is not empty and holds none of the
    characters [%], [_] and backslash, a list call with that term and no
    other filter counts exactly the rows in which the term occurs, letter
    case aside, in one of the three searched columns, and returns only such
    rows.  A column that is NULL holds no occurrence. *)
Theorem search_is_substring_match term :
  term ≠ EmptyString → spec.literal term = true →
  (∀ skip limit sort_by sort_order s res s',
     crud.get_products skip limit (Some term) None None None None sort_by
       sort_order s = (Ok res, s') →
     ∃ rows,
       rows `sublist_of` products (pending s)
       ∧ (∀ r, r ∈ rows ↔
            r ∈ products (pending s)
            ∧ (props.contains (Product.name r) term
               ∨ props.contains (Product.description r) term
               ∨ props.contains (Product.brand r) term))
       ∧ crud.total res = Z.of_nat (length rows)
       ∧ (∀ r, r ∈ crud.items res → r ∈ rows))
  ∧ (∀ skip limit sort_by sort_order s res s',
     crud.get_users skip limit (Some term) None None sort_by sort_order s
       = (Ok res, s') →
     ∃ rows,
       rows `sublist_of` users (pending s)
       ∧ (∀ r, r ∈ rows ↔
            r ∈ users (pending s)
            ∧ (props.contains (User.first_name r) term
               ∨ props.contains (User.last_name r) term
               ∨ props.contains (User.email r) term))
       ∧ crud.total res = Z.of_nat (length rows)
       ∧ (∀ r, r ∈ crud.items res → r ∈ rows)).
Proof.
  intros Hne Hlit.
  assert (negb (String.eqb term EmptyString) = true) as Htruthy.
  { apply negb_true_iff, String.eqb_neq. done. }
  split.
  - intros skip limit sort_by sort_order s res s' Hrun.
    rewrite get_products_eq in Hrun. destruct (spec.failing _); [done|].
    apply page_of_rows_Ok in Hrun as (c & _ & _ & _ & ->).
    eexists. split_and!; [apply List_filter_sublist| |done|].
    + intros r. rewrite elem_of_List_filter.
      unfold spec.product_criterion, spec.product_effective, spec.specified.
      simpl. rewrite Htruthy. simpl.
      rewrite !andb_true_r, !orb_true_iff, !ilike_contains by done. tauto.
    + intros r Hr. cbn [crud.items] in Hr. by apply elem_of_page in Hr.
  - intros skip limit sort_by sort_order s res s' Hrun.
    rewrite get_users_eq in Hrun. destruct (spec.failing _); [done|].
    apply page_of_rows_Ok in Hrun as (c & _ & _ & _ & ->).
    eexists. split_and!; [apply List_filter_sublist| |done|].
    + intros r. rewrite elem_of_List_filter.
      unfold spec.user_criterion, spec.user_effective, spec.specified.
      simpl. rewrite Htruthy. simpl.
      rewrite !andb_true_r, !orb_true_iff, !ilike_contains by done. tauto.
    + intros r Hr. cbn [crud.items] in Hr. by apply elem_of_page in Hr.
Qed.

Lemma like_any t : like "%%%" t = true.
Proof.
  change (like_suffixes (like "%%") t = true). apply like_suffixes_true.
  exists EmptyString, t. split; [done|].
  change (like_suffixes (like "%") t = true). apply like_suffixes_true.
  exists EmptyString, t. split; [done|].
  change (like_suffixes (like EmptyString) t = true). apply like_suffixes_true.
  exists t, EmptyString. by rewrite append_nil_r.
Qed.

Lemma ilike_any col : ilike col "%%%" = bool_decide (is_Some col).
Proof.
  destruct col as [t|]; [|done]. unfold ilike.
  change (lower "%%%") with "%%%". by rewrite like_any.
Qed.

(** X14.  The search term is not escaped: [%] in it is read as a wildcard.
    A product search for the one character [%] selects every row that has
    a value, whatever it is, in one of the three searched columns. *)
Theorem search_percent_is_wildcard skip limit sort_by sort_order s res s' :
  crud.get_products skip limit (Some "%") None None None None sort_by
    sort_order s = (Ok res, s') →
  crud.total res
  = Z.of_nat (length (List.filter
                        (λ r, bool_decide (is_Some (Product.name r)
                                           ∨ is_Some (Product.description r)
                                           ∨ is_Some (Product.brand r)))
                        (products (pending s)))).
Proof.
  intros Hrun. rewrite get_products_eq in Hrun. destruct (spec.failing _); [done|].
  apply page_of_rows_Ok in Hrun as (c & _ & _ & _ & ->). cbn [crud.total].
  do 2 f_equal. apply filter_ext. intros r.
  unfold spec.product_criterion. cbn -[ilike]. rewrite !andb_true_r.
  rewrite !ilike_any.
  destruct (Product.name r), (Product.description r), (Product.brand r);
    by vm_compute.
Qed.

End search.

(** * Further properties of the endpoints *)

Section read_requests.
Context `{Hashlib, FloatStr, Json, Datetime, DeclarativeBase, Engine}.

(** *** The handlers follow the look-aside protocol *)

Lemma handler_rejected rq :
  reads.accepted rq = false →
  ∃ detail, ∀ a, reads.handler rq a = (Raise (HTTPException 400 detail), a).
Proof.
  destruct rq as [p|p|p|id|id|id|]; simpl; try done.
  - rewrite !andb_false_iff, !Z.leb_gt. intros Hv.
    destruct (schemas.ProductQueryParams.page p <? 1) eqn:Hp.
    { eexists. intros a. unfold main.get_products.
      rewrite sort_order_known_true. simpl. by rewrite Hp. }
    assert ((schemas.ProductQueryParams.size p <? 1)
            || (1000 <? schemas.ProductQueryParams.size p) = true) as Hs.
    { apply orb_true_iff. rewrite !Z.ltb_lt. lia. }
    eexists. intros a. unfold main.get_products.
    rewrite sort_order_known_true. simpl. by rewrite Hp, Hs.
  - rewrite !andb_false_iff, !Z.leb_gt. intros Hv.
    destruct (schemas.UserQueryParams.page p <? 1) eqn:Hp.
    { eexists. intros a. unfold main.get_users.
      rewrite sort_order_known_true. simpl. by rewrite Hp. }
    assert ((schemas.UserQueryParams.size p <? 1)
            || (1000 <? schemas.UserQueryParams.size p) = true) as Hs.
    { apply orb_true_iff. rewrite !Z.ltb_lt. lia. }
    eexists. intros a. unfold main.get_users.
    rewrite sort_order_known_true. simpl. by rewrite Hp, Hs.
  - rewrite !andb_false_iff, !Z.leb_gt. intros Hv.
    destruct (schemas.OrderQueryParams.page p <? 1) eqn:Hp.
    { eexists. intros a. unfold main.get_orders.
      rewrite sort_order_known_true. simpl. by rewrite Hp. }
    destruct ((schemas.OrderQueryParams.size p <? 1)
              || (1000 <? schemas.OrderQueryParams.size p)) eqn:Hs.
    { eexists. intros a. unfold main.get_orders.
      rewrite sort_order_known_true. simpl. by rewrite Hp, Hs. }
    assert (match schemas.OrderQueryParams.user_id p with
            | Some u => u <? 1 | None => false end = true) as Hu.
    { apply orb_false_iff in Hs as [? ?].
      destruct Hv as [[[?|?]|?]|Hu]; try lia.
      destruct (schemas.OrderQueryParams.user_id p) as [u|]; [|done].
      simpl in Hu. apply Z.leb_gt in Hu. lia. }
    eexists. intros a. unfold main.get_orders.
    rewrite sort_order_known_true. simpl. by rewrite Hp, Hs, Hu.
  - intros Hid%Z.leb_gt. eexists. intros a. unfold main_item.get_product.
    by assert ((id <? 1) = true) as -> by lia.
  - intros Hid%Z.leb_gt. eexists. intros a. unfold main_item.get_user.
    by assert ((id <? 1) = true) as -> by lia.
  - intros Hid%Z.leb_gt. eexists. intros a. unfold main_item.get_order.
    by assert ((id <? 1) = true) as -> by lia.
Qed.

Lemma handler_look_aside rq a :
  reads.accepted rq = true →
  reads.handler rq a
  = reads.look_aside (reads.cache_key rq) (reads.ttl rq) (reads.compute rq) a.
Proof.
  destruct rq as [p|p|p|id|id|id|]; simpl.
  - rewrite !andb_true_iff, !Z.leb_le. intros [[? ?] ?].
    unfold main.get_products. rewrite sort_order_known_true. simpl.
    assert ((schemas.ProductQueryParams.page p <? 1) = false) as -> by lia.
    assert ((schemas.ProductQueryParams.size p <? 1)
            || (1000 <? schemas.ProductQueryParams.size p) = false) as ->.
    { apply orb_false_iff. lia. }
    unfold reads.look_aside, bind.
    destruct (main.with_cache _ a) as [[c|e] a1]; [|done].
    destruct (truthy c); [done|].
    destruct (main.with_db _ a1) as [[result|e] a2]; [|done].
    destruct (main.for_each _ _ a2) as [[items|e] a3]; [|done]. done.
  - rewrite !andb_true_iff, !Z.leb_le. intros [[? ?] ?].
    unfold main.get_users. rewrite sort_order_known_true. simpl.
    assert ((schemas.UserQueryParams.page p <? 1) = false) as -> by lia.
    assert ((schemas.UserQueryParams.size p <? 1)
            || (1000 <? schemas.UserQueryParams.size p) = false) as ->.
    { apply orb_false_iff. lia. }
    unfold reads.look_aside, bind.
    destruct (main.with_cache _ a) as [[c|e] a1]; [|done].
    destruct (truthy c); [done|].
    destruct (main.with_db _ a1) as [[result|e] a2]; [|done].
    destruct (main.for_each _ _ a2) as [[items|e] a3]; [|done]. done.
  - rewrite !andb_true_iff, !Z.leb_le. intros [[[? ?] ?] Hu].
    unfold main.get_orders. rewrite sort_order_known_true. simpl.
    assert ((schemas.OrderQueryParams.page p <? 1) = false) as -> by lia.
    assert ((schemas.OrderQueryParams.size p <? 1)
            || (1000 <? schemas.OrderQueryParams.size p) = false) as ->.
    { apply orb_false_iff. lia. }
    assert (match schemas.OrderQueryParams.user_id p with
            | Some u => u <? 1 | None => false end = false) as ->.
    { destruct (schemas.OrderQueryParams.user_id p); simpl in *; lia. }
    unfold reads.look_aside, bind.
    destruct (main.with_cache _ a) as [[c|e] a1]; [|done].
    destruct (truthy c); [done|].
    destruct (main.with_db _ a1) as [[result|e] a2]; [|done].
    destruct (main.for_each _ _ a2) as [[items|e] a3]; [|done]. done.
  - intros Hid%Z.leb_le. unfold main_item.get_product.
    assert ((id <? 1) = false) as -> by lia.
    unfold reads.look_aside, bind.
    destruct (main.with_cache _ a) as [[c|e] a1]; [|done].
    destruct (truthy c); [done|].
    by destruct (main.with_db _ a1) as [[[row|]|e] a2].
  - intros Hid%Z.leb_le. unfold main_item.get_user.
    assert ((id <? 1) = false) as -> by lia.
    unfold reads.look_aside, bind.
    destruct (main.with_cache _ a) as [[c|e] a1]; [|done].
    destruct (truthy c); [done|].
    by destruct (main.with_db _ a1) as [[[row|]|e] a2].
  - intros Hid%Z.leb_le. unfold main_item.get_order.
    assert ((id <? 1) = false) as -> by lia.
    unfold reads.look_aside, bind.
    destruct (main.with_cache _ a) as [[c|e] a1]; [|done].
    destruct (truthy c); [done|].
    by destruct (main.with_db _ a1) as [[[row|]|e] a2].
  - intros _. unfold main_item.get_stats, reads.look_aside, bind.
    destruct (main.with_cache _ a) as [[c|e] a1]; [|done].
    destruct (truthy c); [done|].
    destruct (main.with_db _ a1) as [[n1|e] a2]; [|done].
    destruct (main.with_db _ a2) as [[n2|e] a3]; [|done].
    destruct (main.with_db _ a3) as [[n3|e] a4]; [|done].
    destruct (main.with_db _ a4) as [[n4|e] a5]; [|done].
    destruct (main.with_db _ a5) as [[n5|e] a6]; [|done]. done.
Qed.

(** *** The protocol *)

Lemma with_cache_get key a :
  main.with_cache (cache.get key) a
  = ((cache.get key (main.redis a)).1,
     main.mkApp (main.db a) (spec.sent (cache.GET key) (main.redis a))).
Proof. unfold main.with_cache. by rewrite get_eq. Qed.

Lemma look_aside_hit key seconds compute a v :
  reads.hit key (main.redis a) v →
  reads.look_aside key seconds compute a
  = (Ok v, main.mkApp (main.db a) (spec.sent (cache.GET key) (main.redis a))).
Proof.
  intros [Hv Ht]. unfold reads.look_aside, bind.
  by rewrite with_cache_get, Hv, Ht.
Qed.

Lemma look_aside_miss key seconds compute a :
  reads.miss key (main.redis a) →
  reads.look_aside key seconds compute a
  = match compute (main.mkApp (main.db a)
                     (spec.sent (cache.GET key) (main.redis a))) with
    | (Ok response, a2) =>
        (Ok response,
         main.mkApp (main.db a2)
           (cache.set cache.cache key response (Some seconds) (main.redis a2)).2)
    | (Raise e, a2) => (Raise e, a2)
    end.
Proof.
  intros (v & Hv & Ht). unfold reads.look_aside, bind.
  rewrite with_cache_get, Hv, Ht.
  destruct (compute _) as [[response|e] a2]; [|done].
  unfold main.with_cache.
  destruct (set_total cache.cache key response (Some seconds) (main.redis a2))
    as (b & r' & Hset).
  by rewrite Hset.
Qed.

Lemma unreachable_miss key r :
  head (cache.faults r) = Some true → reads.miss key r.
Proof.
  intros Hf. exists PNone. rewrite get_eq. by rewrite bool_decide_true.
Qed.

Lemma dead_miss key r : cache.live r key = None → reads.miss key r.
Proof.
  intros Hl. exists PNone. rewrite get_eq, Hl. simpl. by case_bool_decide.
Qed.

(** *** The store computation *)

Lemma same_tables_refl s : reads.same_tables s s.
Proof. done. Qed.

Lemma same_tables_trans s1 s2 s3 :
  reads.same_tables s1 s2 → reads.same_tables s2 s3 → reads.same_tables s1 s3.
Proof. intros [? ?] [? ?]. split; congruence. Qed.

Lemma same_tables_issued st s : reads.same_tables s (spec.issued st s).
Proof. done. Qed.

Lemma store_only_ret {A} (x : A) : reads.store_only (ret x).
Proof. intros s. by exists (Ok x), s. Qed.

Lemma store_only_raise {A} e : reads.store_only (raise (A := A) e).
Proof. intros s. by exists (Raise e), s. Qed.

Lemma store_only_bind {A B} (m : M main.App A) (f : A → M main.App B) :
  reads.store_only m → (∀ x, reads.store_only (f x)) →
  reads.store_only (bind m f).
Proof.
  intros Hm Hf s. destruct (Hm s) as ([x|e] & s' & Hst & Hrun).
  - destruct (Hf x s') as (y & s'' & Hst' & Hrun').
    exists y, s''. split; [by eapply same_tables_trans|].
    intros r. unfold bind. rewrite Hrun. apply Hrun'.
  - exists (Raise e), s'. split; [done|].
    intros r. unfold bind. by rewrite Hrun.
Qed.

Lemma store_only_with_db {A} (m : M Session A) :
  (∀ s, reads.same_tables s (m s).2) → reads.store_only (main.with_db m).
Proof.
  intros Hm s. specialize (Hm s). destruct (m s) as [x s'] eqn:Hrun.
  exists x, s'. split; [done|]. intros r. unfold main.with_db. simpl.
  by rewrite Hrun.
Qed.

Lemma store_only_for_each {A B} (f : A → M main.App B) l :
  (∀ x, reads.store_only (f x)) → reads.store_only (main.for_each f l).
Proof.
  intros Hf. induction l as [|x l IH]; simpl; [apply store_only_ret|].
  apply store_only_bind; [done|]. intros y.
  apply store_only_bind; [done|]. intros ys. apply store_only_ret.
Qed.

Lemma store_only_isoformat_of o : reads.store_only (main.isoformat_of o).
Proof. destruct o; [apply store_only_ret|apply store_only_raise]. Qed.

Lemma store_only_product_dict item : reads.store_only (main.product_dict item).
Proof.
  unfold main.product_dict.
  repeat (apply store_only_bind; [apply store_only_isoformat_of|intros ?]).
  apply store_only_ret.
Qed.

Lemma store_only_user_dict item : reads.store_only (main.user_dict item).
Proof.
  unfold main.user_dict.
  repeat (apply store_only_bind; [apply store_only_isoformat_of|intros ?]).
  apply store_only_ret.
Qed.

Lemma store_only_order_dict item : reads.store_only (main.order_dict item).
Proof.
  unfold main.order_dict.
  apply store_only_bind; [apply store_only_isoformat_of|intros ?].
  apply store_only_bind.
  { destruct (user item); [apply store_only_user_dict|apply store_only_ret]. }
  intros ?. apply store_only_bind.
  { destruct (product item); [apply store_only_product_dict|apply store_only_ret]. }
  intros ?. apply store_only_ret.
Qed.

Lemma page_of_rows_same_tables {R C} tbl (get : C → R → cell) sort_column
    sort_order skip limit rows s1 :
  reads.same_tables s1
    (spec.page_of_rows tbl get sort_column sort_order skip limit rows s1).2.
Proof.
  unfold spec.page_of_rows. destruct sort_column; [|done].
  destruct (spec.failing _); [done|]. destruct (_ || _); [done|].
  by destruct (Z.eqb limit 0).
Qed.

Lemma count_same_tables {R} (q : Query R) s :
  reads.same_tables s (count q s).2.
Proof. unfold count. rewrite execute_eq. by destruct (spec.failing _). Qed.

Lemma compute_store_only rq : reads.store_only (reads.compute rq).
Proof.
  destruct rq as [p|p|p|id|id|id|]; simpl.
  - apply store_only_bind.
    { apply store_only_with_db. intros s. rewrite get_products_eq.
      destruct (spec.failing _); [done|].
      eapply same_tables_trans; [|apply page_of_rows_same_tables]. done. }
    intros result. apply store_only_bind.
    { apply store_only_for_each, store_only_product_dict. }
    intros ?. apply store_only_ret.
  - apply store_only_bind.
    { apply store_only_with_db. intros s. rewrite get_users_eq.
      destruct (spec.failing _); [done|].
      eapply same_tables_trans; [|apply page_of_rows_same_tables]. done. }
    intros result. apply store_only_bind.
    { apply store_only_for_each, store_only_user_dict. }
    intros ?. apply store_only_ret.
  - apply store_only_bind.
    { apply store_only_with_db. intros s. rewrite get_orders_eq.
      destruct (spec.failing _); [done|].
      eapply same_tables_trans; [|apply page_of_rows_same_tables]. done. }
    intros result. apply store_only_bind.
    { apply store_only_for_each, store_only_order_dict. }
    intros ?. apply store_only_ret.
  - apply store_only_bind.
    { apply store_only_with_db. intros s. rewrite get_product_eq.
      by destruct (spec.failing _). }
    intros [row|]; [apply store_only_product_dict|apply store_only_raise].
  - apply store_only_bind.
    { apply store_only_with_db. intros s. rewrite get_user_eq.
      by destruct (spec.failing _). }
    intros [row|]; [apply store_only_user_dict|apply store_only_raise].
  - apply store_only_bind.
    { apply store_only_with_db. intros s. rewrite get_order_eq.
      by destruct (spec.failing _). }
    intros [row|]; [apply store_only_order_dict|apply store_only_raise].
  - repeat (apply store_only_bind;
            [apply store_only_with_db; intros s; apply count_same_tables
            |intros ?]).
    apply store_only_ret.
Qed.

(** A response that a handler computes from the store counts as a result
    when it is read back from the cache. *)
Lemma compute_truthy rq a response a' :
  reads.compute rq a = (Ok response, a') → truthy response = true.
Proof.
  destruct rq as [p|p|p|id|id|id|]; simpl; intros Hrun.
  - apply bind_Ok_inv in Hrun as (result & a1 & _ & Hrun).
    apply bind_Ok_inv in Hrun as (items & a2 & _ & Hrun). by injection Hrun as <- _.
  - apply bind_Ok_inv in Hrun as (result & a1 & _ & Hrun).
    apply bind_Ok_inv in Hrun as (items & a2 & _ & Hrun). by injection Hrun as <- _.
  - apply bind_Ok_inv in Hrun as (result & a1 & _ & Hrun).
    apply bind_Ok_inv in Hrun as (items & a2 & _ & Hrun). by injection Hrun as <- _.
  - apply bind_Ok_inv in Hrun as ([row|] & a1 & _ & Hrun); [|done].
    unfold main.product_dict in Hrun.
    apply bind_Ok_inv in Hrun as (? & ? & _ & Hrun).
    apply bind_Ok_inv in Hrun as (? & ? & _ & Hrun). by injection Hrun as <- _.
  - apply bind_Ok_inv in Hrun as ([row|] & a1 & _ & Hrun); [|done].
    unfold main.user_dict in Hrun.
    apply bind_Ok_inv in Hrun as (? & ? & _ & Hrun). by injection Hrun as <- _.
  - apply bind_Ok_inv in Hrun as ([row|] & a1 & _ & Hrun); [|done].
    unfold main.order_dict in Hrun.
    apply bind_Ok_inv in Hrun as (? & ? & _ & Hrun).
    apply bind_Ok_inv in Hrun as (? & ? & _ & Hrun).
    apply bind_Ok_inv in Hrun as (? & ? & _ & Hrun). by injection Hrun as <- _.
  - do 5 apply bind_Ok_inv in Hrun as (? & ? & _ & Hrun). by injection Hrun as <- _.
Qed.

Lemma handler_miss rq a :
  reads.accepted rq = true →
  reads.miss (reads.cache_key rq) (main.redis a) →
  ∃ x s',
    reads.same_tables (main.db a) s'
    ∧ (∀ r, reads.compute rq (main.mkApp (main.db a) r) = (x, main.mkApp s' r))
    ∧ reads.handler rq a
      = match x with
        | Ok response =>
            (Ok response,
             main.mkApp s'
               (cache.set cache.cache (reads.cache_key rq) response
                  (Some (reads.ttl rq))
                  (spec.sent (cache.GET (reads.cache_key rq)) (main.redis a))).2)
        | Raise e =>
            (Raise e,
             main.mkApp s'
               (spec.sent (cache.GET (reads.cache_key rq)) (main.redis a)))
        end.
Proof.
  intros Hacc Hmiss.
  destruct (compute_store_only rq (main.db a)) as (x & s' & Hst & Hrun).
  exists x, s'. split_and!; [done..|].
  rewrite handler_look_aside, look_aside_miss, Hrun by done.
  by destruct x.
Qed.

Lemma ttl_positive rq : 0 < reads.ttl rq.
Proof. by destruct rq. Qed.

(** X15.  A cached response is returned as it is, and the store is not
    asked: when the cache answers the key of an accepted read request with
    a value that counts as a result, the handler returns that value, sends
    no statement to the store and writes nothing to the cache. *)
Theorem cache_hit_skips_store rq a v :
  reads.accepted rq = true →
  reads.hit (reads.cache_key rq) (main.redis a) v →
  reads.handler rq a
  = (Ok v, main.mkApp (main.db a)
             (spec.sent (cache.GET (reads.cache_key rq)) (main.redis a))).
Proof.
  intros Hacc Hhit. rewrite handler_look_aside by done.
  by apply look_aside_hit.
Qed.

(** The cache after a response was computed from the store and written
    back. *)
Lemma handler_stores rq a response a' :
  reads.accepted rq = true →
  reads.miss (reads.cache_key rq) (main.redis a) →
  spec.healthy 2 (cache.faults (main.redis a)) = true →
  reads.handler rq a = (Ok response, a') →
  truthy response = true
  ∧ main.redis a'
    = cache.mkRedis
        (<[reads.cache_key rq :=
             cache.mkEntry (json_dumps response)
               (cache.now (main.redis a) + reads.ttl rq)]>
           (cache.store (main.redis a)))
        (cache.now (main.redis a)) (tail (tail (cache.faults (main.redis a))))
        (cache.log (main.redis a)
         ++ [cache.GET (reads.cache_key rq)]
         ++ [cache.SETEX (reads.cache_key rq) (reads.ttl rq) (json_dumps response)]).
Proof.
  intros Hacc Hmiss Hh Hrun.
  destruct (handler_miss rq a Hacc Hmiss) as (x & s' & _ & Hx & Heq).
  rewrite Heq in Hrun. destruct x as [response'|e]; [|done].
  injection Hrun as -> <-. split.
  - by eapply compute_truthy, (Hx (main.redis a)).
  - simpl. rewrite set_eq; [|apply ttl_positive|].
    + simpl. by rewrite <-app_assoc.
    + unfold spec.reachable. simpl.
      by destruct (cache.faults (main.redis a)) as [|[] [|[] ?]].
Qed.

(** X16.  A response that is computed from the store is written to the
    cache under the key of the request: with a cache that carries the read
    and the write, the entry is live for the ttl of the handler (300
    seconds for a list, 600 for a single row, 60 for the statistics) and
    gone once that time has passed.  Every such response counts as a
    result when it is read back. *)
Theorem miss_populates_cache rq a response a' :
  reads.accepted rq = true →
  reads.miss (reads.cache_key rq) (main.redis a) →
  spec.healthy 2 (cache.faults (main.redis a)) = true →
  reads.handler rq a = (Ok response, a') →
  truthy response = true
  ∧ ∀ elapsed, 0 ≤ elapsed →
      cache.live (cache.tick elapsed (main.redis a')) (reads.cache_key rq)
      = if elapsed <? reads.ttl rq then Some (json_dumps response) else None.
Proof.
  intros Hacc Hmiss Hh Hrun.
  destruct (handler_stores rq a response a' Hacc Hmiss Hh Hrun) as [Ht ->].
  split; [done|]. intros elapsed Hel. unfold cache.live. simpl.
  rewrite lookup_insert_eq. simpl.
  destruct (elapsed <? reads.ttl rq) eqn:Hlt.
  - by assert ((cache.now (main.redis a) + elapsed
                <? cache.now (main.redis a) + reads.ttl rq) = true) as -> by lia.
  - by assert ((cache.now (main.redis a) + elapsed
                <? cache.now (main.redis a) + reads.ttl rq) = false) as -> by lia.
Qed.

(** X17.  A repeated request is answered from the cache.  After a response
    was computed from the store, the same request made before the ttl has
    elapsed gets the same response (for a response that survives the JSON
    round trip) without a statement to the store, whatever the tables hold
    by then and whether or not the store is available. *)
Theorem repeated_request_served_from_cache rq a response a' later elapsed :
  reads.accepted rq = true →
  reads.miss (reads.cache_key rq) (main.redis a) →
  spec.healthy 3 (cache.faults (main.redis a)) = true →
  reads.handler rq a = (Ok response, a') →
  json_dumps response ≠ EmptyString →
  json_loads (json_dumps response) = Some response →
  0 ≤ elapsed < reads.ttl rq →
  let r := cache.tick elapsed (main.redis a') in
  reads.handler rq (main.mkApp later r)
  = (Ok response,
     main.mkApp later (spec.sent (cache.GET (reads.cache_key rq)) r)).
Proof.
  intros Hacc Hmiss Hh Hrun Hne Hrt Hel r.
  assert (Hh2 : spec.healthy 2 (cache.faults (main.redis a)) = true).
  { by destruct (cache.faults (main.redis a)) as [|[] [|[] [|[] ?]]]. }
  destruct (handler_stores rq a response a' Hacc Hmiss Hh2 Hrun) as [Ht Hr].
  rewrite handler_look_aside by done.
  apply (look_aside_hit _ _ _ (main.mkApp later r)).
  split; [|done]. simpl. rewrite get_eq. simpl.
  unfold r. rewrite Hr. simpl.
  rewrite bool_decide_false.
  2:{ by destruct (cache.faults (main.redis a)) as [|[] [|[] [|[] ?]]]. }
  unfold cache.live. simpl. rewrite lookup_insert_eq. simpl.
  assert ((cache.now (main.redis a) + elapsed
           <? cache.now (main.redis a) + reads.ttl rq) = true) as -> by lia.
  rewrite Hrt. simpl.
  destruct (String.eqb (json_dumps response) EmptyString) eqn:Heq; [|done].
  by apply String.eqb_eq in Heq.
Qed.

Lemma look_aside_same_tables key seconds compute a :
  reads.store_only compute →
  reads.same_tables (main.db a) (main.db (reads.look_aside key seconds compute a).2).
Proof.
  intros Hc. unfold reads.look_aside, bind. rewrite with_cache_get.
  destruct (cache.get key (main.redis a)).1 as [v|e]; [|done].
  destruct (truthy v); [done|].
  destruct (Hc (main.db a)) as (x & s' & Hst & Hrun). rewrite Hrun.
  destruct x as [response|e]; [|done].
  unfold main.with_cache.
  destruct (set_total cache.cache key response (Some seconds)
              (main.redis (main.mkApp s' (spec.sent (cache.GET key) (main.redis a)))))
    as (b & r' & Hset).
  by rewrite Hset.
Qed.

(** X18.  A read request never changes the tables: whatever the request,
    the cache and the faults of the store, the committed tables and the
    tables of the open transaction are after the handler what they were
    before it, and so are the stored tables after the request. *)
Theorem reads_never_change_tables rq :
  (∀ a, reads.same_tables (main.db a) (main.db (reads.handler rq a).2))
  ∧ (∀ schedule w,
       main.tables (main.serve (reads.handler rq) schedule w).2 = main.tables w).
Proof.
  assert (Hsame : ∀ a,
    reads.same_tables (main.db a) (main.db (reads.handler rq a).2)).
  { intros a. destruct (reads.accepted rq) eqn:Hacc.
    - rewrite handler_look_aside by done.
      apply look_aside_same_tables, compute_store_only.
    - destruct (handler_rejected rq Hacc) as [detail ->]. done. }
  split; [done|]. intros schedule w. unfold main.serve.
  specialize (Hsame (main.mkApp (SessionLocal (main.tables w) schedule)
                       (main.server w))).
  destruct (reads.handler rq _) as [x a']. simpl in *.
  destruct Hsame as [Hc _]. unfold close. by rewrite Hc.
Qed.

(** X19.  A cache that cannot be reached costs a read request nothing but
    the cache itself: the handler gives the response, and leaves the
    session of the store in the state, that it gives with a reachable
    cache that does not hold the key. *)
Theorem cache_outage_is_invisible rq s down other :
  head (cache.faults down) = Some true →
  reads.miss (reads.cache_key rq) other →
  (reads.handler rq (main.mkApp s down)).1
  = (reads.handler rq (main.mkApp s other)).1
  ∧ main.db (reads.handler rq (main.mkApp s down)).2
    = main.db (reads.handler rq (main.mkApp s other)).2.
Proof.
  intros Hdown Hmiss. destruct (reads.accepted rq) eqn:Hacc.
  - destruct (handler_miss rq (main.mkApp s down) Hacc)
      as (x & s' & _ & Hx & ->); [by apply unreachable_miss|].
    destruct (handler_miss rq (main.mkApp s other) Hacc)
      as (x' & s'' & _ & Hx' & ->); [done|].
    simpl in *. specialize (Hx down). rewrite Hx' in Hx.
    injection Hx as -> ->. by destruct x.
  - destruct (handler_rejected rq Hacc) as [detail Hrej]. by rewrite !Hrej.
Qed.

(** *** Rejected requests *)

Lemma no_http_raise_other {S A} e :
  (∀ code detail, e ≠ HTTPException code detail) →
  spec.no_http (raise (S := S) (A := A) e).
Proof. intros He s code detail [= ->]. by eapply He. Qed.

Lemma no_http_count {R} (q : Query R) : spec.no_http (count q).
Proof. by apply no_http_execute. Qed.

Lemma no_http_first {R} (q : Query R) : spec.no_http (crud_item.first q).
Proof.
  unfold crud_item.first. apply no_http_bind; [|intros; apply no_http_ret].
  apply no_http_execute. by destruct (_ || _).
Qed.

(** The only HTTP error signal of a store computation is the 404 of a
    lookup. *)
Lemma compute_http rq a code detail a' :
  reads.compute rq a = (Raise (HTTPException code detail), a') → code = 404.
Proof.
  assert (Hno : ∀ m : M main.App pyval, spec.no_http m →
            m a = (Raise (HTTPException code detail), a') → code = 404).
  { intros m Hm Hrun. specialize (Hm a code detail). by rewrite Hrun in Hm. }
  assert (Hitem : ∀ {R} (lookup : M Session (option R)) msg
              (to_dict : R → M main.App pyval),
            spec.no_http lookup → (∀ row, spec.no_http (to_dict row)) →
            bind (main.with_db lookup) (λ row,
              match row with
              | None => raise (HTTPException 404 msg)
              | Some row => to_dict row
              end) a = (Raise (HTTPException code detail), a') → code = 404).
  { intros R lookup msg to_dict Hl Hd. unfold bind.
    pose proof (no_http_with_db lookup Hl a code detail) as Hdb.
    destruct (main.with_db lookup a) as [[[row|]|e] a1]; simpl in *.
    - intros Hrun. specialize (Hd row a1 code detail). by rewrite Hrun in Hd.
    - by intros [= <- _ _].
    - by intros [= -> _]. }
  destruct rq as [p|p|p|id|id|id|]; simpl.
  - apply Hno. apply no_http_bind.
    { apply no_http_with_db. unfold crud.get_products. cbv zeta.
      apply no_http_page_query. }
    intros result. apply no_http_bind.
    { apply no_http_for_each. intros; apply no_http_product_dict. }
    intros ?. apply no_http_ret.
  - apply Hno. apply no_http_bind.
    { apply no_http_with_db. unfold crud.get_users. cbv zeta.
      apply no_http_page_query. }
    intros result. apply no_http_bind.
    { apply no_http_for_each. intros; apply no_http_user_dict. }
    intros ?. apply no_http_ret.
  - apply Hno. apply no_http_bind.
    { apply no_http_with_db. unfold crud.get_orders. cbv zeta.
      apply no_http_page_query. }
    intros result. apply no_http_bind.
    { apply no_http_for_each. intros; apply no_http_order_dict. }
    intros ?. apply no_http_ret.
  - apply Hitem; [apply no_http_first|intros; apply no_http_product_dict].
  - apply Hitem; [apply no_http_first|intros; apply no_http_user_dict].
  - apply Hitem; [apply no_http_first|intros; apply no_http_order_dict].
  - apply Hno.
    repeat (apply no_http_bind;
            [apply no_http_with_db, no_http_count|intros ?]).
    apply no_http_ret.
Qed.

(** X20.  A read request is answered with a bad-request signal exactly when
    it fails the checks at the head of its handler (a page below 1, a page
    size outside 1 to 1000, a user id or a row id below 1), and then
    nothing else happens: no cache command is sent and no statement goes
    to the store. *)
Theorem bad_request_iff_rejected rq a :
  (reads.accepted rq = false →
   ∃ detail, reads.handler rq a = (Raise (HTTPException 400 detail), a))
  ∧ (reads.accepted rq = true →
     ∀ detail, (reads.handler rq a).1 ≠ Raise (HTTPException 400 detail)).
Proof.
  split.
  - intros Hacc. destruct (handler_rejected rq Hacc) as [detail Hrej]. eauto.
  - intros Hacc detail Hrun.
    rewrite handler_look_aside in Hrun by done.
    unfold reads.look_aside, bind in Hrun. rewrite with_cache_get in Hrun.
    rewrite get_eq in Hrun. simpl in Hrun.
    destruct (truthy _); [done|].
    destruct (reads.compute rq _) as [[response|e] a2] eqn:Hc.
    + unfold main.with_cache in Hrun.
      destruct (set_total cache.cache (reads.cache_key rq) response
                  (Some (reads.ttl rq)) (main.redis a2)) as (b & r' & Hset).
      by rewrite Hset in Hrun.
    + simpl in Hrun. injection Hrun as ->. by apply compute_http in Hc.
Qed.

(** *** Single rows *)

Lemma find_unique {R} (key : R → Z) rows r id :
  key r = id → NoDup (key <$> rows) → r ∈ rows →
  List.find (λ x, Z.eqb (key x) id) rows = Some r.
Proof.
  intros <-.
  induction rows as [|x rows IH]; intros Hnd Hin; [by apply elem_of_nil in Hin|].
  rewrite fmap_cons in Hnd. apply NoDup_cons in Hnd as [Hx Hnd]. simpl.
  apply elem_of_cons in Hin as [->|Hin].
  - by rewrite Z.eqb_refl.
  - destruct (Z.eqb (key x) (key r)) eqn:Heq; [|by apply IH].
    apply Z.eqb_eq in Heq. exfalso. apply Hx. rewrite Heq.
    by apply list_elem_of_fmap_2.
Qed.

Lemma find_absent {R} (P : R → bool) rows :
  (∀ r, r ∈ rows → P r = false) → List.find P rows = None.
Proof.
  intros Hno. induction rows as [|x rows IH]; [done|]. simpl.
  rewrite Hno by by left. apply IH. intros r Hr. apply Hno. by right.
Qed.

(** X21.  A lookup of an id that no row has is answered with a not-found
    signal, and the cache is left without an entry for it: the handler
    sends its cache read and one select, and nothing is written. *)
Theorem lookup_of_missing_row id a :
  1 ≤ id → spec.failing (faults (main.db a)) = false →
  (reads.miss ("product_" +:+ pretty id) (main.redis a) →
   (∀ r, r ∈ products (pending (main.db a)) → Product.id r ≠ id) →
   main_item.get_product id a
   = (Raise (HTTPException 404 "Product not found"),
      main.mkApp (spec.issued (Select "products") (main.db a))
        (spec.sent (cache.GET ("product_" +:+ pretty id)) (main.redis a))))
  ∧ (reads.miss ("user_" +:+ pretty id) (main.redis a) →
     (∀ r, r ∈ users (pending (main.db a)) → User.id r ≠ id) →
     main_item.get_user id a
     = (Raise (HTTPException 404 "User not found"),
        main.mkApp (spec.issued (Select "users") (main.db a))
          (spec.sent (cache.GET ("user_" +:+ pretty id)) (main.redis a))))
  ∧ (reads.miss ("order_" +:+ pretty id) (main.redis a) →
     (∀ r, r ∈ orders (pending (main.db a)) → Order.id r ≠ id) →
     main_item.get_order id a
     = (Raise (HTTPException 404 "Order not found"),
        main.mkApp (spec.issued (Select "orders") (main.db a))
          (spec.sent (cache.GET ("order_" +:+ pretty id)) (main.redis a)))).
Proof.
  intros Hid Hf.
  assert (Hacc : ∀ rq, rq = reads.OneProduct id ∨ rq = reads.OneUser id
                       ∨ rq = reads.OneOrder id → reads.accepted rq = true).
  { intros rq [->|[->| ->]]; simpl; lia. }
  split_and!; intros Hmiss Hno.
  - change (main_item.get_product id a) with (reads.handler (reads.OneProduct id) a).
    rewrite handler_look_aside, look_aside_miss by auto. simpl.
    unfold bind, main.with_db. simpl. rewrite get_product_eq, Hf. simpl.
    rewrite find_absent; [done|]. intros r Hr. apply Z.eqb_neq. by apply Hno.
  - change (main_item.get_user id a) with (reads.handler (reads.OneUser id) a).
    rewrite handler_look_aside, look_aside_miss by auto. simpl.
    unfold bind, main.with_db. simpl. rewrite get_user_eq, Hf. simpl.
    rewrite find_absent; [done|]. intros r Hr. apply Z.eqb_neq. by apply Hno.
  - change (main_item.get_order id a) with (reads.handler (reads.OneOrder id) a).
    rewrite handler_look_aside, look_aside_miss by auto. simpl.
    unfold bind, main.with_db. simpl. rewrite get_order_eq, Hf. simpl.
    rewrite find_absent; [done|]. intros r Hr. apply Z.eqb_neq.
    unfold Order_rows in Hr.
    apply list_elem_of_In, in_map_iff in Hr as (o & <- & Ho). simpl.
    apply Hno. by apply list_elem_of_In.
Qed.

Lemma product_dict_eq r :
  spec.product_renders r = true →
  ∃ d, (∀ a : main.App, main.product_dict r a = (Ok d, a))
       ∧ getitem d "id" = Some (PInt (Product.id r)).
Proof.
  unfold spec.product_renders, main.product_dict.
  destruct (Product.created_at r), (Product.updated_at r); try done.
  intros _. eexists. split; [intros a; reflexivity|done].
Qed.

Lemma user_dict_eq r :
  spec.user_renders r = true →
  ∃ d, (∀ a : main.App, main.user_dict r a = (Ok d, a))
       ∧ getitem d "id" = Some (PInt (User.id r)).
Proof.
  unfold spec.user_renders, main.user_dict.
  destruct (User.created_at r); try done.
  intros _. eexists. split; [intros a; reflexivity|done].
Qed.

Lemma order_dict_eq r :
  spec.order_renders r = true →
  ∃ d, (∀ a : main.App, main.order_dict r a = (Ok d, a))
       ∧ getitem d "id" = Some (PInt (Order.id (order r)))
       ∧ (user r = None → getitem d "user" = Some PNone)
       ∧ (product r = None → getitem d "product" = Some PNone)
       ∧ (∀ u, user r = Some u →
            ∃ ud, getitem d "user" = Some ud
                  ∧ getitem ud "id" = Some (PInt (User.id u)))
       ∧ (∀ p, product r = Some p →
            ∃ pd, getitem d "product" = Some pd
                  ∧ getitem pd "id" = Some (PInt (Product.id p))).
Proof.
  unfold spec.order_renders, main.order_dict.
  rewrite !andb_true_iff. intros [[Hdate Huser] Hproduct].
  destruct (Order.order_date (order r)); [|done].
  assert (∃ ud, (∀ a : main.App,
                   match user r with
                   | Some u => main.user_dict u
                   | None => ret PNone
                   end a = (Ok ud, a))
                ∧ (user r = None → ud = PNone)
                ∧ (∀ u, user r = Some u →
                     getitem ud "id" = Some (PInt (User.id u))))
    as (ud & Hud & Hun & Hus).
  { destruct (user r) as [u|]; simpl in *.
    - destruct (user_dict_eq u Huser) as (ud & Hud & Hid).
      exists ud. split_and!; [done|done|]. by intros ? [= <-].
    - exists PNone. by split_and!. }
  assert (∃ pd, (∀ a : main.App,
                   match product r with
                   | Some p => main.product_dict p
                   | None => ret PNone
                   end a = (Ok pd, a))
                ∧ (product r = None → pd = PNone)
                ∧ (∀ p, product r = Some p →
                     getitem pd "id" = Some (PInt (Product.id p))))
    as (pd & Hpd & Hpn & Hps).
  { destruct (product r) as [p|]; simpl in *.
    - destruct (product_dict_eq p Hproduct) as (pd & Hpd & Hid).
      exists pd. split_and!; [done|done|]. by intros ? [= <-].
    - exists PNone. by split_and!. }
  eexists. split_and!.
  - intros a. unfold bind. simpl. rewrite Hud, Hpd. reflexivity.
  - done.
  - intros Hn. simpl. by rewrite Hun.
  - intros Hn. simpl. by rewrite Hpn.
  - intros u Hu. eexists. split; [reflexivity|by apply Hus].
  - intros p Hp. eexists. split; [reflexivity|by apply Hps].
Qed.

(** A lookup that the cache does not answer and that finds its row. *)
Lemma lookup_found rq a {R} (row : R) d (lookup : M Session (option R))
    (to_dict : R → M main.App pyval) msg s' :
  reads.accepted rq = true →
  reads.miss (reads.cache_key rq) (main.redis a) →
  reads.compute rq
  = bind (main.with_db lookup) (λ found,
      match found with
      | None => raise (HTTPException 404 msg)
      | Some found => to_dict found
      end) →
  lookup (main.db a) = (Ok (Some row), s') →
  (∀ a, to_dict row a = (Ok d, a)) →
  reads.handler rq a
  = (Ok d,
     main.mkApp s'
       (cache.set cache.cache (reads.cache_key rq) d (Some (reads.ttl rq))
          (spec.sent (cache.GET (reads.cache_key rq)) (main.redis a))).2).
Proof.
  intros Hacc Hmiss Hc Hl Hd.
  rewrite handler_look_aside, look_aside_miss, Hc by done.
  unfold bind, main.with_db. simpl. by rewrite Hl, Hd.
Qed.

(** X22.  A lookup that the cache does not answer returns the row that has
    the id, put in a dict: with ids that are unique in the table and a row
    whose timestamps are set, the response is the dict of that row, it
    carries the requested id, and it is what the handler sends to the
    cache, for 600 seconds, as its last command. *)
Theorem lookup_of_row id a :
  1 ≤ id → spec.failing (faults (main.db a)) = false →
  (∀ r, reads.miss ("product_" +:+ pretty id) (main.redis a) →
     NoDup (Product.id <$> products (pending (main.db a))) →
     r ∈ products (pending (main.db a)) → Product.id r = id →
     spec.product_renders r = true →
     ∃ d, (main_item.get_product id a).1 = Ok d
          ∧ main.product_dict r a = (Ok d, a)
          ∧ getitem d "id" = Some (PInt id)
          ∧ last (cache.log (main.redis (main_item.get_product id a).2))
            = Some (cache.SETEX ("product_" +:+ pretty id) 600 (json_dumps d)))
  ∧ (∀ r, reads.miss ("user_" +:+ pretty id) (main.redis a) →
     NoDup (User.id <$> users (pending (main.db a))) →
     r ∈ users (pending (main.db a)) → User.id r = id →
     spec.user_renders r = true →
     ∃ d, (main_item.get_user id a).1 = Ok d
          ∧ main.user_dict r a = (Ok d, a)
          ∧ getitem d "id" = Some (PInt id)
          ∧ last (cache.log (main.redis (main_item.get_user id a).2))
            = Some (cache.SETEX ("user_" +:+ pretty id) 600 (json_dumps d)))
  ∧ (∀ r, reads.miss ("order_" +:+ pretty id) (main.redis a) →
     NoDup (Order.id <$> orders (pending (main.db a))) →
     r ∈ orders (pending (main.db a)) → Order.id r = id →
     spec.order_renders (load_order (pending (main.db a)) r) = true →
     ∃ d, (main_item.get_order id a).1 = Ok d
          ∧ main.order_dict (load_order (pending (main.db a)) r) a = (Ok d, a)
          ∧ getitem d "id" = Some (PInt id)
          ∧ last (cache.log (main.redis (main_item.get_order id a).2))
            = Some (cache.SETEX ("order_" +:+ pretty id) 600 (json_dumps d))).
Proof.
  intros Hid Hf.
  assert (Hlog : ∀ key d r,
    last (cache.log (cache.set cache.cache key d (Some 600) r).2)
    = Some (cache.SETEX key 600 (json_dumps d))).
  { intros key d r. rewrite set_any_eq. simpl.
    destruct (_ || _); simpl; by rewrite last_snoc. }
  split_and!; intros r Hmiss Hnd Hin <- Hren.
  - destruct (product_dict_eq r Hren) as (d & Hd & Hgid).
    exists d.
    change (main_item.get_product (Product.id r) a)
      with (reads.handler (reads.OneProduct (Product.id r)) a).
    erewrite lookup_found; [|simpl; lia|done|reflexivity| |exact Hd].
    2:{ rewrite get_product_eq, Hf. by rewrite (find_unique Product.id _ r). }
    split_and!; [done|done|done|apply Hlog].
  - destruct (user_dict_eq r Hren) as (d & Hd & Hgid).
    exists d.
    change (main_item.get_user (User.id r) a)
      with (reads.handler (reads.OneUser (User.id r)) a).
    erewrite lookup_found; [|simpl; lia|done|reflexivity| |exact Hd].
    2:{ rewrite get_user_eq, Hf. by rewrite (find_unique User.id _ r). }
    split_and!; [done|done|done|apply Hlog].
  - destruct (order_dict_eq _ Hren) as (d & Hd & Hgid & _).
    exists d.
    change (main_item.get_order (Order.id r) a)
      with (reads.handler (reads.OneOrder (Order.id r)) a).
    erewrite lookup_found; [|simpl; lia|done|reflexivity| |exact Hd].
    2:{ rewrite get_order_eq, Hf. unfold Order_rows.
        rewrite (find_unique (λ x, Order.id (order x)) _
                   (load_order (pending (main.db a)) r)); [done|done| |].
        - rewrite <-list_fmap_compose.
          by erewrite list_fmap_ext; [exact Hnd|].
        - by apply (list_elem_of_fmap_2 (load_order (pending (main.db a)))). }
    split_and!; [done|done|done|apply Hlog].
Qed.

(** X23.  An order whose user is gone is still answered: when no user has
    the id that the order refers to, the response of the order lookup
    carries [None] as its user, next to the fields of the order. *)
Theorem order_with_dangling_user id a o :
  1 ≤ id → spec.failing (faults (main.db a)) = false →
  reads.miss ("order_" +:+ pretty id) (main.redis a) →
  NoDup (Order.id <$> orders (pending (main.db a))) →
  o ∈ orders (pending (main.db a)) → Order.id o = id →
  (∀ u, u ∈ users (pending (main.db a)) → Some (User.id u) ≠ Order.user_id o) →
  spec.order_renders (load_order (pending (main.db a)) o) = true →
  ∃ d, (main_item.get_order id a).1 = Ok d
       ∧ getitem d "id" = Some (PInt id)
       ∧ getitem d "user_id" = Some (main.opt_int (Order.user_id o))
       ∧ getitem d "user" = Some PNone.
Proof.
  intros Hid Hf Hmiss Hnd Hin <- Hgone Hren.
  destruct (order_dict_eq _ Hren) as (d & Hd & Hgid & Huser & _).
  exists d.
  change (main_item.get_order (Order.id o) a)
    with (reads.handler (reads.OneOrder (Order.id o)) a).
  erewrite lookup_found; [|simpl; lia|done|reflexivity| |exact Hd].
  2:{ rewrite get_order_eq, Hf. unfold Order_rows.
      rewrite (find_unique (λ x, Order.id (order x)) _
                 (load_order (pending (main.db a)) o)); [done|done| |].
      - rewrite <-list_fmap_compose.
        by erewrite list_fmap_ext; [exact Hnd|].
      - by apply (list_elem_of_fmap_2 (load_order (pending (main.db a)))). }
  split_and!; [done|done| |].
  - specialize (Hd a). unfold main.order_dict in Hd.
    apply bind_Ok_inv in Hd as (? & ? & _ & Hd).
    apply bind_Ok_inv in Hd as (? & ? & _ & Hd).
    apply bind_Ok_inv in Hd as (? & ? & _ & Hd). by injection Hd as <- _.
  - apply Huser. simpl. destruct (Order.user_id o) as [uid|]; [|done]. simpl.
    apply find_absent. intros u Hu. apply Z.eqb_neq. intros Heq.
    apply (Hgone u Hu). by rewrite Heq.
Qed.

(** *** Statistics *)

Lemma count_eq {R} (q : Query R) s :
  count q s =
  if spec.failing (faults s)
  then (Raise (SQLAlchemyError "storage failure"),
        spec.issued (Count (table q)) s)
  else (Ok (Z.of_nat (length (matching q (pending s)))),
        spec.issued (Count (table q)) s).
Proof. unfold count. rewrite execute_eq. by destruct (spec.failing _). Qed.

Lemma healthy_5 schedule :
  spec.healthy 5 schedule = true →
  spec.failing schedule = false
  ∧ spec.failing (tail schedule) = false
  ∧ spec.failing (tail (tail schedule)) = false
  ∧ spec.failing (tail (tail (tail schedule))) = false
  ∧ spec.failing (tail (tail (tail (tail schedule)))) = false.
Proof. by destruct schedule as [|[] [|[] [|[] [|[] [|[] ?]]]]]. Qed.

Lemma matching_is_true {R} tbl (src : Database → list R)
    (flag : R → option bool) d :
  matching (database.filter (database.query tbl src)
              (λ r, main_item.is_true (flag r))) d
  = List.filter (λ r, bool_decide (flag r = Some true)) (src d).
Proof.
  unfold matching. simpl. apply filter_ext. intros r. unfold and_. simpl.
  by destruct (flag r) as [[]|].
Qed.

Lemma stats_compute s r :
  spec.healthy 5 (faults s) = true →
  ∃ s',
    reads.compute reads.Stats (main.mkApp s r)
    = (Ok (PDict
         [("total_products", PInt (Z.of_nat (length (products (pending s)))));
          ("total_users", PInt (Z.of_nat (length (users (pending s)))));
          ("total_orders", PInt (Z.of_nat (length (orders (pending s)))));
          ("active_products",
           PInt (Z.of_nat (length (List.filter
                   (λ r, bool_decide (Product.is_active r = Some true))
                   (products (pending s))))));
          ("active_users",
           PInt (Z.of_nat (length (List.filter
                   (λ r, bool_decide (User.is_active r = Some true))
                   (users (pending s))))))]),
       main.mkApp s' r).
Proof.
  intros (Hf1 & Hf2 & Hf3 & Hf4 & Hf5)%healthy_5. simpl.
  unfold bind, main.with_db. simpl.
  rewrite count_eq, Hf1. simpl. rewrite count_eq. simpl. rewrite Hf2. simpl.
  rewrite count_eq. simpl. rewrite Hf3. simpl.
  rewrite count_eq. simpl. rewrite Hf4. simpl.
  rewrite count_eq. simpl. rewrite Hf5. simpl.
  rewrite !count_all_rows.
  rewrite (matching_is_true "products" Product_rows Product.is_active).
  rewrite (matching_is_true "users" User_rows User.is_active).
  eexists. reflexivity.
Qed.

Lemma List_filter_length {R} (P : R → bool) rows :
  (length (List.filter P rows) ≤ length rows)%nat.
Proof.
  induction rows as [|r rows IH]; [done|]. simpl.
  destruct (P r); simpl; lia.
Qed.

(** X24.  The statistics that are computed from the store are the row
    counts of the tables: the three totals are the numbers of rows, the
    two active counts are the numbers of rows whose [is_active] is true (a
    NULL flag is not counted), and so no active count exceeds its
    total. *)
Theorem stats_count_rows a :
  reads.miss "stats" (main.redis a) →
  spec.healthy 5 (faults (main.db a)) = true →
  let d := pending (main.db a) in
  let active_products :=
    List.filter (λ r, bool_decide (Product.is_active r = Some true)) (products d) in
  let active_users :=
    List.filter (λ r, bool_decide (User.is_active r = Some true)) (users d) in
  (main_item.get_stats a).1
  = Ok (PDict
      [("total_products", PInt (Z.of_nat (length (products d))));
       ("total_users", PInt (Z.of_nat (length (users d))));
       ("total_orders", PInt (Z.of_nat (length (orders d))));
       ("active_products", PInt (Z.of_nat (length active_products)));
       ("active_users", PInt (Z.of_nat (length active_users)))])
  ∧ (length active_products ≤ length (products d))%nat
  ∧ (length active_users ≤ length (users d))%nat.
Proof.
  intros Hmiss Hh d active_products active_users.
  split; [|split; apply List_filter_length].
  change (main_item.get_stats a) with (reads.handler reads.Stats a).
  rewrite handler_look_aside, look_aside_miss by done.
  destruct (stats_compute (main.db a)
              (spec.sent (cache.GET (reads.cache_key reads.Stats)) (main.redis a))
              Hh) as (s' & ->).
  done.
Qed.

(** *** Reads after a truncate-all *)

Lemma clear_all_dead r :
  spec.healthy 2 (cache.faults r) = true →
  ∀ k, cache.live (cache.clear_pattern "*" r).2 k = None.
Proof.
  intros Hh k.
  destruct (clear_pattern_eq "*" r Hh)
    as (keys & r' & -> & Hnd & Hkeys & Hnow & Hst & Hf). simpl.
  unfold cache.live. rewrite Hst, Hnow.
  case_bool_decide as Hin; [done|].
  destruct (cache.store r !! k) as [e|] eqn:He; [|done].
  destruct (cache.now r <? cache.expires_at e) eqn:Hlt; [|done].
  exfalso. apply Hin, Hkeys. split; [|apply glob_star].
  unfold cache.live. rewrite He, Hlt. eauto.
Qed.

Lemma truncate_endpoint_healthy a :
  spec.healthy 7 (faults (main.db a)) = true →
  ∃ response s',
    main.truncate_all_data_endpoint a
    = (Ok response, main.mkApp s' (cache.clear_pattern "*" (main.redis a)).2)
    ∧ committed s' = spec.empty_tables.
Proof.
  intros Hh. unfold main.truncate_all_data_endpoint, try_except.
  destruct (truncate_all_data_healthy _ Hh) as (s' & Hrun & Hc).
  erewrite bind_Ok; [|unfold main.with_db; by rewrite Hrun].
  destruct (clear_pattern_total "*" (main.redis a)) as (n & c & Hclear).
  unfold bind, main.with_cache. simpl. rewrite Hclear. simpl.
  by do 2 eexists.
Qed.

Lemma ceil_zero d : 0 < d → ceil (inject_Z 0 / inject_Z d) = 0.
Proof.
  intros Hd. pose proof (ceil_quotient 0 d Hd) as Hc.
  set (pages := ceil (inject_Z 0 / inject_Z d)) in *.
  assert (0 ≤ pages) by nia. assert (pages < 1) by nia. lia.
Qed.

Lemma empty_page {R C} tbl (get : C → R → cell) c sort_order page size s1 :
  spec.failing (faults s1) = false → 1 ≤ page → 1 ≤ size →
  spec.page_of_rows tbl get (Column c) sort_order ((page - 1) * size) size [] s1
  = (Ok (crud.mkPage [] 0 page size 0), spec.issued (Select tbl) s1).
Proof.
  intros Hf Hp Hs. rewrite page_of_rows_eq by (done || nia).
  assert (slice (Some ((page - 1) * size)) (Some size)
            (ordered (Some (spec.direction sort_order (get c)))
               (Some ((page - 1) * size)) (Some size) []) = [])
    as ->.
  { apply nil_length_inv, Nat2Z.inj. rewrite slice_length by nia.
    rewrite ordered_length. simpl. nia. }
  rewrite Z.div_mul by lia. change (Z.of_nat (length [])) with 0.
  rewrite ceil_zero by lia. do 3 f_equal. lia.
Qed.

Lemma compute_on_empty_tables rq schedule r :
  reads.accepted rq = true → spec.healthy 5 schedule = true →
  (reads.compute rq (main.mkApp (SessionLocal spec.empty_tables schedule) r)).1
  = reads.on_empty_tables rq.
Proof.
  intros Hacc Hh. pose proof Hh as (Hf1 & Hf2 & _)%healthy_5.
  destruct rq as [p|p|p|id|id|id|]; simpl in Hacc.
  - apply andb_true_iff in Hacc as [[? ?]%andb_true_iff ?].
    simpl. unfold bind, main.with_db. simpl.
    rewrite get_products_eq. simpl. rewrite Hf1, getattr_product_field.
    by rewrite empty_page by (done || lia).
  - apply andb_true_iff in Hacc as [[? ?]%andb_true_iff ?].
    simpl. unfold bind, main.with_db. simpl.
    rewrite get_users_eq. simpl. rewrite Hf1, getattr_user_field.
    by rewrite empty_page by (done || lia).
  - apply andb_true_iff in Hacc as [[[? ?]%andb_true_iff ?]%andb_true_iff ?].
    simpl. unfold bind, main.with_db. simpl.
    rewrite get_orders_eq. simpl. rewrite Hf1, getattr_order_field.
    by rewrite empty_page by (done || lia).
  - simpl. unfold bind, main.with_db. simpl.
    rewrite get_product_eq. simpl. by rewrite Hf1.
  - simpl. unfold bind, main.with_db. simpl.
    rewrite get_user_eq. simpl. by rewrite Hf1.
  - simpl. unfold bind, main.with_db. simpl.
    rewrite get_order_eq. simpl. by rewrite Hf1.
  - destruct (stats_compute (SessionLocal spec.empty_tables schedule) r Hh)
      as (s' & ->). done.
Qed.

(** X25.  After a truncate-all that went through and cleared the cache, the
    reads show the empty tables.  With a store that carries the seven
    statements of the mutation and a cache that carries the two commands of
    the invalidation, the tables are empty afterwards and every accepted
    read request that follows is computed from them: a list is an empty
    page with a total of 0 and 0 pages, a lookup is answered with a
    not-found signal and the statistics are all 0.  No response that was
    cached before the mutation is served. *)
Theorem reads_after_truncate_all rq truncation schedule w :
  reads.accepted rq = true →
  spec.healthy 7 truncation = true →
  spec.healthy 2 (cache.faults (main.server w)) = true →
  spec.healthy 5 schedule = true →
  let w1 := (main.serve main.truncate_all_data_endpoint truncation w).2 in
  main.tables w1 = spec.empty_tables
  ∧ (main.serve (reads.handler rq) schedule w1).1 = reads.on_empty_tables rq.
Proof.
  intros Hacc Ht Hc Hs. cbv zeta. unfold main.serve.
  destruct (truncate_endpoint_healthy
              (main.mkApp (SessionLocal (main.tables w) truncation) (main.server w)))
    as (response & s' & -> & Hempty); [done|].
  simpl. unfold close. rewrite Hempty. split; [done|].
  set (a := main.mkApp _ _).
  destruct (handler_miss rq a Hacc) as (x & s1 & _ & Hx & Hrun).
  { apply dead_miss. by apply clear_all_dead. }
  rewrite Hrun.
  pose proof (compute_on_empty_tables rq schedule (main.redis a) Hacc Hs) as He.
  unfold a in Hx. simpl in Hx. rewrite Hx in He. simpl in He. subst x.
  by destruct (reads.on_empty_tables rq).
Qed.

(** *** The loader endpoint *)

(** X26.  The loader endpoint reports a failure of the loader as an
    internal error that carries the text of the exception, and it does not
    touch the cache then, whatever the loader had committed before it
    failed.  When the loader returns, the endpoint clears the cache: with a
    cache that carries the two commands no key is live afterwards. *)
Theorem seed_database_outcome (seed_all_data : M Session unit) a s' :
  (∀ e, seed_all_data (main.db a) = (Raise e, s') →
     main_item.seed_database seed_all_data a
     = (Raise (HTTPException 500 (exn_str e)), main.mkApp s' (main.redis a)))
  ∧ (seed_all_data (main.db a) = (Ok tt, s') →
     ∃ r', main_item.seed_database seed_all_data a
           = (Ok (PDict [("message", PStr "Database seeded successfully")]),
              main.mkApp s' r')
           ∧ (spec.healthy 2 (cache.faults (main.redis a)) = true →
              ∀ k, cache.live r' k = None)).
Proof.
  unfold main_item.seed_database, try_except, bind, main.with_db. split.
  - intros e ->. done.
  - intros ->. simpl. unfold main.with_cache. simpl.
    destruct (clear_pattern_total "*" (main.redis a)) as (n & c & Hclear).
    pose proof (clear_all_dead (main.redis a)) as Hdead.
    rewrite Hclear in *. simpl in *. eauto.
Qed.
End read_requests.

(** * A further property of the key encoder *)

Section key_collision.
Context `{Hashlib, FloatStr, Json, Datetime, DeclarativeBase, Engine}.

Lemma append_assoc (a b c : string) : (a +:+ b) +:+ c = a +:+ (b +:+ c).
Proof.
  induction a as [|x a IH]; [done|].
  change (String x ((a +:+ b) +:+ c) = String x (a +:+ (b +:+ c))).
  by rewrite IH.
Qed.

(** X27.  The key encoder does not separate a value from the parameters
    that follow it: a product request whose brand is [b&category=c] and
    that gives no category has the cache key of the request whose brand is
    [b] and whose category is [c], all other parameters being equal, so
    that the two requests, whose filters differ, share one cache entry.
    The encoder itself gives one key to the two parameter sets on every
    endpoint. *)
Theorem cache_key_collision page size search b c min_price max_price sort_by
    sort_order endpoint :
  let request brand category :=
    reads.ListProducts
      (schemas.ProductQueryParams.mk page size search category brand min_price
         max_price sort_by sort_order) in
  reads.cache_key (request (Some (b +:+ "&category=" +:+ c)) None)
  = reads.cache_key (request (Some b) (Some c))
  ∧ main.generate_cache_key endpoint
      [("brand", Some (SStr (b +:+ "&category=" +:+ c))); ("category", None)]
    = main.generate_cache_key endpoint
        [("brand", Some (SStr b)); ("category", Some (SStr c))].
Proof.
  split.
  - simpl. unfold main.generate_cache_key. f_equal. f_equal.
    destruct search, min_price, max_price; vm_compute main.sorted_items; simpl;
      by rewrite !append_assoc.
  - reflexivity.
Qed.

End key_collision.

(** * Further properties of rendering and validation *)

Section rendering.
Context `{Hashlib, FloatStr, Json, Datetime, DeclarativeBase, Engine}.

Lemma product_dict_fails r (a : main.App) :
  spec.product_renders r = false →
  main.product_dict r a
  = (Raise (AttributeError "'NoneType' object has no attribute 'isoformat'"), a).
Proof.
  unfold spec.product_renders, main.product_dict.
  by destruct (Product.created_at r), (Product.updated_at r).
Qed.

Lemma user_dict_fails r (a : main.App) :
  spec.user_renders r = false →
  main.user_dict r a
  = (Raise (AttributeError "'NoneType' object has no attribute 'isoformat'"), a).
Proof.
  unfold spec.user_renders, main.user_dict. by destruct (User.created_at r).
Qed.

Lemma order_dict_fails r (a : main.App) :
  spec.order_renders r = false →
  main.order_dict r a
  = (Raise (AttributeError "'NoneType' object has no attribute 'isoformat'"), a).
Proof.
  unfold spec.order_renders, main.order_dict. intros Hr.
  destruct (Order.order_date (order r)); [|done]. simpl in Hr.
  unfold bind at 1. simpl.
  destruct (user r) as [u|]; simpl in Hr.
  - destruct (spec.user_renders u) eqn:Hu; simpl in Hr.
    + destruct (user_dict_renders u a Hu) as [ud Hud].
      unfold bind at 1. rewrite Hud.
      destruct (product r) as [p|]; simpl in Hr; [|done].
      unfold bind. by rewrite product_dict_fails.
    + unfold bind. by rewrite user_dict_fails.
  - destruct (product r) as [p|]; simpl in Hr; [|done].
    unfold bind. simpl. by rewrite product_dict_fails.
Qed.

Lemma for_each_fails {R} (to_dict : R → M main.App pyval) (P : R → bool) e
    items (a : main.App) :
  (∀ r a, P r = true → ∃ d, to_dict r a = (Ok d, a)) →
  (∀ r a, P r = false → to_dict r a = (Raise e, a)) →
  forallb P items = false →
  main.for_each to_dict items a = (Raise e, a).
Proof.
  intros Hok Hfail. induction items as [|r items IH]; [done|]. simpl.
  destruct (P r) eqn:Hr; simpl.
  - intros Hrest. destruct (Hok r a Hr) as [d Hd].
    unfold bind at 1. rewrite Hd. unfold bind. by rewrite IH.
  - intros _. unfold bind. by rewrite Hfail.
Qed.

(** X28.  One row without a timestamp fails the whole page.  When the page
    that the list function returns holds a row whose timestamp (for an
    order also that of its user or product) is NULL, the list request ends
    in the [AttributeError] of [None.isoformat()]: no response is given
    and nothing is written to the cache. *)
Theorem null_timestamp_fails_list a :
  let e := AttributeError "'NoneType' object has no attribute 'isoformat'" in
  (∀ p result s',
     reads.accepted (reads.ListProducts p) = true →
     reads.miss (reads.cache_key (reads.ListProducts p)) (main.redis a) →
     crud.get_products
       ((schemas.ProductQueryParams.page p - 1) * schemas.ProductQueryParams.size p)
       (schemas.ProductQueryParams.size p) (schemas.ProductQueryParams.search p)
       (schemas.ProductQueryParams.category p) (schemas.ProductQueryParams.brand p)
       (schemas.ProductQueryParams.min_price p)
       (schemas.ProductQueryParams.max_price p)
       (schemas.ProductSortFields.value (schemas.ProductQueryParams.sort_by p))
       (schemas.SortOrder.value (schemas.ProductQueryParams.sort_order p))
       (main.db a) = (Ok result, s') →
     forallb spec.product_renders (crud.items result) = false →
     main.get_products p a
     = (Raise e,
        main.mkApp s'
          (spec.sent (cache.GET (reads.cache_key (reads.ListProducts p)))
             (main.redis a))))
  ∧ (∀ p result s',
     reads.accepted (reads.ListUsers p) = true →
     reads.miss (reads.cache_key (reads.ListUsers p)) (main.redis a) →
     crud.get_users
       ((schemas.UserQueryParams.page p - 1) * schemas.UserQueryParams.size p)
       (schemas.UserQueryParams.size p) (schemas.UserQueryParams.search p)
       (schemas.UserQueryParams.city p) (schemas.UserQueryParams.country p)
       (schemas.UserSortFields.value (schemas.UserQueryParams.sort_by p))
       (schemas.SortOrder.value (schemas.UserQueryParams.sort_order p))
       (main.db a) = (Ok result, s') →
     forallb spec.user_renders (crud.items result) = false →
     main.get_users p a
     = (Raise e,
        main.mkApp s'
          (spec.sent (cache.GET (reads.cache_key (reads.ListUsers p)))
             (main.redis a))))
  ∧ (∀ p result s',
     reads.accepted (reads.ListOrders p) = true →
     reads.miss (reads.cache_key (reads.ListOrders p)) (main.redis a) →
     crud.get_orders
       ((schemas.OrderQueryParams.page p - 1) * schemas.OrderQueryParams.size p)
       (schemas.OrderQueryParams.size p) (schemas.OrderQueryParams.user_id p)
       (schemas.OrderStatus.value <$> schemas.OrderQueryParams.status p)
       (schemas.OrderSortFields.value (schemas.OrderQueryParams.sort_by p))
       (schemas.SortOrder.value (schemas.OrderQueryParams.sort_order p))
       (main.db a) = (Ok result, s') →
     forallb spec.order_renders (crud.items result) = false →
     main.get_orders p a
     = (Raise e,
        main.mkApp s'
          (spec.sent (cache.GET (reads.cache_key (reads.ListOrders p)))
             (main.redis a)))).
Proof.
  intros e. split_and!; intros p result s' Hacc Hmiss Hrun Hbad.
  - change (main.get_products p a) with (reads.handler (reads.ListProducts p) a).
    rewrite handler_look_aside, look_aside_miss by done.
    cbn [reads.compute]. cbv zeta. unfold bind at 1, main.with_db.
    cbn [main.db main.redis]. rewrite Hrun.
    unfold bind at 1.
    by rewrite (for_each_fails main.product_dict spec.product_renders e)
      by (done || apply product_dict_renders || apply product_dict_fails).
  - change (main.get_users p a) with (reads.handler (reads.ListUsers p) a).
    rewrite handler_look_aside, look_aside_miss by done.
    cbn [reads.compute]. cbv zeta. unfold bind at 1, main.with_db.
    cbn [main.db main.redis]. rewrite Hrun.
    unfold bind at 1.
    by rewrite (for_each_fails main.user_dict spec.user_renders e)
      by (done || apply user_dict_renders || apply user_dict_fails).
  - change (main.get_orders p a) with (reads.handler (reads.ListOrders p) a).
    rewrite handler_look_aside, look_aside_miss by done.
    cbn [reads.compute]. cbv zeta. unfold bind at 1, main.with_db.
    cbn [main.db main.redis]. rewrite Hrun.
    unfold bind at 1.
    by rewrite (for_each_fails main.order_dict spec.order_renders e)
      by (done || apply order_dict_renders || apply order_dict_fails).
Qed.

End rendering.

(** X29.  Query parameters that meet the constraints of their schema pass
    the checks of the handler: the page is at least 1, the page size is
    from 1 to 1000 and a user id is at least 1.  For products the schema
    also rules out a price range whose upper bound is below its lower
    bound. *)
Theorem schema_valid_is_accepted :
  (∀ p, schemas.ProductQueryParams.valid p = true →
     reads.accepted (reads.ListProducts p) = true
     ∧ ∀ lo hi, schemas.ProductQueryParams.min_price p = Some lo →
         schemas.ProductQueryParams.max_price p = Some hi → (lo <= hi)%Q)
  ∧ (∀ p, schemas.UserQueryParams.valid p = true →
       reads.accepted (reads.ListUsers p) = true)
  ∧ (∀ p, schemas.OrderQueryParams.valid p = true →
       reads.accepted (reads.ListOrders p) = true).
Proof.
  split_and!.
  - intros p. unfold schemas.ProductQueryParams.valid. simpl.
    rewrite !andb_true_iff. intros Hv.
    repeat match goal with H : _ ∧ _ |- _ => destruct H end.
    split; [by split_and!|]. intros lo hi Hlo Hhi.
    unfold schemas.ProductQueryParams.validate_price_range in *.
    rewrite Hlo, Hhi in *. by apply Qle_bool_iff.
  - intros p. unfold schemas.UserQueryParams.valid. simpl.
    rewrite !andb_true_iff. intros Hv.
    repeat match goal with H : _ ∧ _ |- _ => destruct H end. by split_and!.
  - intros p. unfold schemas.OrderQueryParams.valid. simpl.
    by rewrite !andb_true_iff.
Qed.

(** X30.  The enums of the schema are read back from their values: a raw
    string is accepted as a member exactly when it is the value of that
    member, so that every member is found by its own value and no two
    members share one. *)
Theorem enum_round_trip :
  (∀ m raw, schemas.enum_of_value schemas.ProductSortFields.value
              schemas.ProductSortFields.members raw = Some m
            ↔ schemas.ProductSortFields.value m = raw)
  ∧ (∀ m raw, schemas.enum_of_value schemas.UserSortFields.value
                schemas.UserSortFields.members raw = Some m
              ↔ schemas.UserSortFields.value m = raw)
  ∧ (∀ m raw, schemas.enum_of_value schemas.OrderSortFields.value
                schemas.OrderSortFields.members raw = Some m
              ↔ schemas.OrderSortFields.value m = raw)
  ∧ (∀ m raw, schemas.enum_of_value schemas.SortOrder.value
                schemas.SortOrder.members raw = Some m
              ↔ schemas.SortOrder.value m = raw)
  ∧ (∀ m raw, schemas.enum_of_value schemas.OrderStatus.value
                schemas.OrderStatus.members raw = Some m
              ↔ schemas.OrderStatus.value m = raw).
Proof.
  assert (Hfind : ∀ {E} (value : E → string) (members : list E) m raw,
            (∀ m, schemas.enum_of_value value members (value m) = Some m) →
            schemas.enum_of_value value members raw = Some m ↔ value m = raw).
  { intros E value members m raw Hrt. split.
    - intros Hf. apply find_some in Hf as [_ Heq]. by apply String.eqb_eq.
    - intros <-. apply Hrt. }
  split_and!; intros m raw; apply Hfind; intros []; vm_compute; reflexivity.
Qed.

(** * The further properties on concrete data *)

Section further_concrete.
#[local] Existing Instance runtime.hashlib.
#[local] Existing Instance runtime.floatstr.
#[local] Existing Instance runtime.json.
#[local] Existing Instance runtime.datetime.
#[local] Existing Instance runtime.base.
#[local] Existing Instance runtime.engine.

Lemma cache_degrades_when_unreachable_witness :
  (cache.get "stats" sample.unreachable).1 = Ok PNone
  ∧ (cache.set cache.cache "stats" fixture.stats (Some 60) sample.unreachable).1
    = Ok false
  ∧ (cache.delete "stats" sample.unreachable).1 = Ok false
  ∧ (cache.clear_pattern "*" sample.unreachable).1 = Ok 0
  ∧ cache.store (cache.get "stats" sample.unreachable).2
    = cache.store sample.unreachable
  ∧ cache.store
      (cache.set cache.cache "stats" fixture.stats (Some 60) sample.unreachable).2
    = cache.store sample.unreachable
  ∧ cache.store (cache.delete "stats" sample.unreachable).2
    = cache.store sample.unreachable
  ∧ cache.store (cache.clear_pattern "*" sample.unreachable).2
    = cache.store sample.unreachable.
Proof.
  apply (cache_degrades_when_unreachable cache.cache "stats" fixture.stats
           (Some 60) "*" sample.unreachable).
  reflexivity.
Defined.

Lemma set_default_ttl_witness :
  let r1 := (cache.set cache.cache "stats" fixture.stats None sample.server).2 in
  (cache.set cache.cache "stats" fixture.stats None sample.server).1 = Ok true
  ∧ (∀ elapsed, 0 ≤ elapsed < 300 →
       cache.live (cache.tick elapsed r1) "stats" = Some (json_dumps fixture.stats))
  ∧ (∀ elapsed, 300 ≤ elapsed →
       cache.live (cache.tick elapsed r1) "stats" = None)
  ∧ (∀ negative, negative < 0 →
       (cache.set cache.cache "stats" fixture.stats (Some negative) sample.server).1
       = Ok false
       ∧ cache.store
           (cache.set cache.cache "stats" fixture.stats (Some negative)
              sample.server).2
         = cache.store sample.server).
Proof.
  apply (set_default_ttl cache.cache "stats" fixture.stats None sample.server).
  - unfold spec.reachable. simpl. discriminate.
  - simpl. lia.
  - left. reflexivity.
Defined.

Lemma cache_write_is_local_witness :
  cache.live (cache.set cache.cache "stats" fixture.stats (Some 60) fixture.warm).2
    "product_1" = cache.live fixture.warm "product_1"
  ∧ cache.live (cache.delete "stats" fixture.warm).2 "product_1"
    = cache.live fixture.warm "product_1".
Proof.
  apply (cache_write_is_local cache.cache "stats" fixture.stats (Some 60)
           "product_1" fixture.warm).
  discriminate.
Defined.

Lemma cache_hit_until_expiry_witness :
  (cache.get "stats"
     (cache.tick 59
        (cache.set cache.cache "stats" fixture.stats (Some 60) sample.server).2)).1
  = Ok fixture.stats.
Proof.
  apply (cache_hit_until_expiry cache.cache "stats" fixture.stats 60
           sample.server 59).
  - lia.
  - unfold spec.reachable. simpl. discriminate.
  - vm_compute. discriminate.
  - vm_compute. reflexivity.
  - lia.
  - unfold spec.reachable. vm_compute. discriminate.
Defined.

Lemma clear_pattern_removes_matching_witness :
  ∃ keys r',
    cache.clear_pattern "product_*" fixture.warm
    = (Ok (Z.of_nat (length keys)), r')
    ∧ NoDup keys
    ∧ (∀ k, k ∈ keys ↔
         is_Some (cache.live fixture.warm k) ∧ cache.glob "product_*" k = true)
    ∧ (∀ k, cache.live r' k
            = if cache.glob "product_*" k then None
              else cache.live fixture.warm k).
Proof.
  apply (clear_pattern_removes_matching "product_*" fixture.warm).
  reflexivity.
Defined.

Example clear_pattern_counts_live_matches :
  (cache.clear_pattern "product_*" fixture.warm).1 = Ok 2
  ∧ (cache.clear_pattern "*" fixture.warm).1 = Ok 3
  ∧ (cache.clear_pattern "order_*" fixture.warm).1 = Ok 0.
Proof. vm_compute. by split_and!. Qed.

(** A pattern is a Redis glob: a bracket is a class of characters, not
    three characters of the key. *)
Example clear_pattern_reads_classes :
  (cache.clear_pattern "product_[12]" fixture.warm).1 = Ok 2
  ∧ (cache.clear_pattern "product_[^1]" fixture.warm).1 = Ok 1
  ∧ (cache.clear_pattern "product_[0-9]" fixture.warm).1 = Ok 2
  ∧ (cache.clear_pattern "s?at[r-t]" fixture.warm).1 = Ok 1
  ∧ cache.glob "product_[12]" "product_[12]" = false
  ∧ cache.glob "product_\[12]" "product_[12]" = true
  ∧ cache.glob "[^a-m]?[c-a]*" "stats" = true
  ∧ cache.glob "stat[" "stats" = false
  ∧ cache.glob "stat[^" "stats" = true
  ∧ cache.glob "*" EmptyString = true
  ∧ cache.glob "**" EmptyString = false.
Proof. vm_compute. by split_and!. Qed.

Lemma clear_all_empties_cache_witness :
  ∃ keys r',
    cache.clear_pattern "*" fixture.warm = (Ok (Z.of_nat (length keys)), r')
    ∧ NoDup keys
    ∧ (∀ k, k ∈ keys ↔ is_Some (cache.live fixture.warm k))
    ∧ (∀ k, cache.live r' k = None)
    ∧ (cache.clear_pattern "*" r').1 = Ok 0.
Proof.
  apply (clear_all_empties_cache fixture.warm). reflexivity.
Defined.

Lemma page_window_witness :
  (let run := crud.get_products 4 2 None None None None None "price" "desc" in
   let res := crud.mkPage [sample.novel] 5 3 2 3 in
   (run sample.session).1 = Ok res
   ∧ Z.of_nat (length (crud.items res))
     = Z.min 2 (Z.max 0 (crud.total res - 4)))
  ∧ (let run := crud.get_users 0 10 None None None "id" "asc" in
     let res := crud.mkPage [sample.ada; sample.alan] 2 1 10 1 in
     (run sample.session).1 = Ok res
     ∧ Z.of_nat (length (crud.items res))
       = Z.min 10 (Z.max 0 (crud.total res - 0)))
  ∧ (let run := crud.get_orders 5 2 None None "id" "asc" in
     let res := crud.mkPage [] 3 3 2 2 in
     (run sample.session).1 = Ok res
     ∧ Z.of_nat (length (crud.items res))
       = Z.min 2 (Z.max 0 (crud.total res - 5))).
Proof.
  destruct page_window as (Hproducts & Husers & Horders).
  split_and!.
  - intros run res. split; [vm_compute; reflexivity|].
    apply (Hproducts 4 2 None None None None None "price" "desc"
             sample.session res (run sample.session).2).
    vm_compute. reflexivity.
  - intros run res. split; [vm_compute; reflexivity|].
    apply (Husers 0 10 None None None "id" "asc" sample.session res
             (run sample.session).2).
    vm_compute. reflexivity.
  - intros run res. split; [vm_compute; reflexivity|].
    apply (Horders 5 2 None None "id" "asc" sample.session res
             (run sample.session).2).
    vm_compute. reflexivity.
Defined.

Lemma pages_partition_matching_rows_witness :
  (let F := spec.product_effective
              (spec.mkProductFilters None (Some "Electronics") None None None) in
   let call (k : nat) :=
     crud.get_products (Z.of_nat k * 2) 2 None (Some "Electronics") None None
       None (schemas.ProductSortFields.value schemas.ProductSortFields.price)
       "desc" sample.session in
   ∃ pages : nat,
     (∀ k, ∃ res s', call k = (Ok res, s')
                     ∧ crud.pages res = Z.of_nat pages
                     ∧ crud.page res = Z.of_nat k + 1
                     ∧ crud.total res
                       = Z.of_nat (length (List.filter (spec.product_criterion F)
                                             (products (pending sample.session)))))
     ∧ concat (List.map (λ k, props.items_of (call k)) (seq 0 pages))
       ≡ₚ List.filter (spec.product_criterion F) (products (pending sample.session))
     ∧ (∀ k, (pages ≤ k)%nat → props.items_of (call k) = []))
  ∧ (let F := spec.user_effective (spec.mkUserFilters None None (Some "UK")) in
     let call (k : nat) :=
       crud.get_users (Z.of_nat k * 1) 1 None None (Some "UK")
         (schemas.UserSortFields.value schemas.UserSortFields.email) "asc"
         sample.session in
     ∃ pages : nat,
       (∀ k, ∃ res s', call k = (Ok res, s')
                       ∧ crud.pages res = Z.of_nat pages
                       ∧ crud.page res = Z.of_nat k + 1
                       ∧ crud.total res
                         = Z.of_nat (length (List.filter (spec.user_criterion F)
                                               (users (pending sample.session)))))
       ∧ concat (List.map (λ k, props.items_of (call k)) (seq 0 pages))
         ≡ₚ List.filter (spec.user_criterion F) (users (pending sample.session))
       ∧ (∀ k, (pages ≤ k)%nat → props.items_of (call k) = []))
  ∧ (let F := spec.order_effective (spec.mkOrderFilters None None) in
     let call (k : nat) :=
       crud.get_orders (Z.of_nat k * 2) 2 None None
         (schemas.OrderSortFields.value schemas.OrderSortFields.total_amount)
         "asc" sample.session in
     ∃ pages : nat,
       (∀ k, ∃ res s', call k = (Ok res, s')
                       ∧ crud.pages res = Z.of_nat pages
                       ∧ crud.page res = Z.of_nat k + 1
                       ∧ crud.total res
                         = Z.of_nat (length (List.filter (spec.order_satisfies F)
                                               (Order_rows (pending sample.session)))))
       ∧ concat (List.map (λ k, props.items_of (call k)) (seq 0 pages))
         ≡ₚ List.filter (spec.order_satisfies F) (Order_rows (pending sample.session))
       ∧ (∀ k, (pages ≤ k)%nat → props.items_of (call k) = [])).
Proof.
  destruct pages_partition_matching_rows as (Hproducts & Husers & Horders).
  split_and!.
  - apply (Hproducts 2 None (Some "Electronics") None None None
             schemas.ProductSortFields.price "desc" sample.session);
      [lia|reflexivity|by apply keys_differ_distinct].
  - apply (Husers 1 None None (Some "UK") schemas.UserSortFields.email "asc"
             sample.session); [lia|reflexivity|by apply keys_differ_distinct].
  - apply (Horders 2 None None schemas.OrderSortFields.total_amount "asc"
             sample.session); [lia|reflexivity|by apply keys_differ_distinct].
Defined.

Example pages_of_electronics :
  let call (k : nat) :=
    crud.get_products (Z.of_nat k * 2) 2 None (Some "Electronics") None None
      None "price" "desc" sample.session in
  props.items_of (call 0%nat) = [sample.laptop; sample.camera]
  ∧ props.items_of (call 1%nat) = [sample.phone]
  ∧ props.items_of (call 2%nat) = [].
Proof. vm_compute. by split_and!. Qed.

Lemma limit_zero_raises_witness :
  let e := ZeroDivisionError "integer division or modulo by zero" in
  (∀ search category brand min_price max_price f,
     crud.get_products 0 0 search category brand min_price max_price
       (schemas.ProductSortFields.value f) "asc" sample.session
     = (Raise e,
        spec.issued (Select "products")
          (spec.issued (Count "products") sample.session)))
  ∧ (∀ search city country f,
     crud.get_users 0 0 search city country
       (schemas.UserSortFields.value f) "asc" sample.session
     = (Raise e,
        spec.issued (Select "users")
          (spec.issued (Count "users") sample.session)))
  ∧ (∀ user_id status f,
     crud.get_orders 0 0 user_id status
       (schemas.OrderSortFields.value f) "asc" sample.session
     = (Raise e,
        spec.issued (Select "orders")
          (spec.issued (Count "orders") sample.session))).
Proof.
  apply (limit_zero_raises sample.session 0 "asc"); [lia|reflexivity].
Defined.

Lemma inverted_price_range_is_empty_witness :
  let run := crud.get_products 0 10 None None None (Some (500 # 1))
               (Some (100 # 1)) "id" "asc" in
  let res := crud.mkPage [] 0 1 10 0 in
  (run sample.session).1 = Ok res
  ∧ crud.items res = [] ∧ crud.total res = 0 ∧ crud.pages res = 0.
Proof.
  intros run res. split; [vm_compute; reflexivity|].
  apply (inverted_price_range_is_empty 0 10 None None None (500 # 1) (100 # 1)
           "id" "asc" sample.session res (run sample.session).2).
  - reflexivity.
  - vm_compute. reflexivity.
Defined.

Lemma lookup_by_id_witness :
  (∃ found, crud_item.get_product 3 sample.session
            = (Ok found, spec.issued (Select "products") sample.session)
     ∧ match found with
       | Some r => r ∈ products (pending sample.session) ∧ Product.id r = 3
       | None => ∀ r, r ∈ products (pending sample.session) → Product.id r ≠ 3
       end)
  ∧ (∃ found, crud_item.get_user 3 sample.session
              = (Ok found, spec.issued (Select "users") sample.session)
     ∧ match found with
       | Some r => r ∈ users (pending sample.session) ∧ User.id r = 3
       | None => ∀ r, r ∈ users (pending sample.session) → User.id r ≠ 3
       end)
  ∧ (∃ found, crud_item.get_order 3 sample.session
              = (Ok found, spec.issued (Select "orders") sample.session)
     ∧ match found with
       | Some r => order r ∈ orders (pending sample.session)
                   ∧ Order.id (order r) = 3
                   ∧ r = load_order (pending sample.session) (order r)
       | None => ∀ r, r ∈ orders (pending sample.session) → Order.id r ≠ 3
       end).
Proof.
  apply (lookup_by_id 3 sample.session). reflexivity.
Defined.

Example lookup_by_id_finds :
  (crud_item.get_product 3 sample.session).1 = Ok (Some sample.phone)
  ∧ (crud_item.get_user 3 sample.session).1 = Ok None
  ∧ (crud_item.get_order 3 sample.session).1
    = Ok (Some (mkLoaded sample.order3 None (Some sample.phone))).
Proof. vm_compute. by split_and!. Qed.

Lemma search_is_substring_match_witness :
  let run := crud.get_products 0 10 (Some "AN") None None None None "id" "asc" in
  let res := crud.mkPage [sample.novel; sample.camera] 2 1 10 1 in
  (run sample.session).1 = Ok res
  ∧ ∃ rows,
      rows `sublist_of` products (pending sample.session)
      ∧ (∀ r, r ∈ rows ↔
           r ∈ products (pending sample.session)
           ∧ (props.contains (Product.name r) "AN"
              ∨ props.contains (Product.description r) "AN"
              ∨ props.contains (Product.brand r) "AN"))
      ∧ crud.total res = Z.of_nat (length rows)
      ∧ (∀ r, r ∈ crud.items res → r ∈ rows).
Proof.
  intros run res. split; [vm_compute; reflexivity|].
  destruct (search_is_substring_match "AN") as [Hproducts _];
    [discriminate|reflexivity|].
  apply (Hproducts 0 10 "id" "asc" sample.session res (run sample.session).2).
  vm_compute. reflexivity.
Defined.

Lemma search_percent_is_wildcard_witness :
  let run := crud.get_products 0 10 (Some "%") None None None None "id" "asc" in
  let res :=
    crud.mkPage
      [sample.laptop; sample.novel; sample.phone; sample.camera; sample.shoes]
      5 1 10 1 in
  (run sample.session).1 = Ok res
  ∧ crud.total res
    = Z.of_nat (length (List.filter
                          (λ r, bool_decide (is_Some (Product.name r)
                                             ∨ is_Some (Product.description r)
                                             ∨ is_Some (Product.brand r)))
                          (products (pending sample.session)))).
Proof.
  intros run res. split; [vm_compute; reflexivity|].
  apply (search_percent_is_wildcard 0 10 "id" "asc" sample.session res
           (run sample.session).2).
  vm_compute. reflexivity.
Defined.

Lemma cache_hit_skips_store_witness :
  reads.handler reads.Stats (main.mkApp sample.session fixture.warm)
  = (Ok (PList [PInt 3]),
     main.mkApp sample.session (spec.sent (cache.GET "stats") fixture.warm)).
Proof.
  apply (cache_hit_skips_store reads.Stats
           (main.mkApp sample.session fixture.warm) (PList [PInt 3])).
  - reflexivity.
  - split; vm_compute; reflexivity.
Defined.

Lemma miss_populates_cache_witness :
  let a' := (reads.handler reads.Stats sample.app).2 in
  (reads.handler reads.Stats sample.app).1 = Ok fixture.stats
  ∧ truthy fixture.stats = true
  ∧ ∀ elapsed, 0 ≤ elapsed →
      cache.live (cache.tick elapsed (main.redis a')) "stats"
      = if elapsed <? 60 then Some (json_dumps fixture.stats) else None.
Proof.
  intros a'. split; [vm_compute; reflexivity|].
  apply (miss_populates_cache reads.Stats sample.app fixture.stats a').
  - reflexivity.
  - exists PNone. split; vm_compute; reflexivity.
  - reflexivity.
  - vm_compute. reflexivity.
Defined.

Lemma repeated_request_served_from_cache_witness :
  let a' := (reads.handler reads.Stats sample.app).2 in
  let later := SessionLocal spec.empty_tables [true] in
  let r := cache.tick 59 (main.redis a') in
  (reads.handler reads.Stats sample.app).1 = Ok fixture.stats
  ∧ reads.handler reads.Stats (main.mkApp later r)
    = (Ok fixture.stats, main.mkApp later (spec.sent (cache.GET "stats") r)).
Proof.
  intros a' later r. split; [vm_compute; reflexivity|].
  apply (repeated_request_served_from_cache reads.Stats sample.app
           fixture.stats a' later 59).
  - reflexivity.
  - exists PNone. split; vm_compute; reflexivity.
  - reflexivity.
  - vm_compute. reflexivity.
  - vm_compute. discriminate.
  - vm_compute. reflexivity.
  - simpl. lia.
Defined.

Lemma cache_outage_is_invisible_witness :
  (reads.handler fixture.products_page
     (main.mkApp sample.session sample.unreachable)).1
  = (reads.handler fixture.products_page
       (main.mkApp sample.session sample.server)).1
  ∧ main.db (reads.handler fixture.products_page
               (main.mkApp sample.session sample.unreachable)).2
    = main.db (reads.handler fixture.products_page
                 (main.mkApp sample.session sample.server)).2.
Proof.
  apply (cache_outage_is_invisible fixture.products_page sample.session
           sample.unreachable sample.server).
  - reflexivity.
  - exists PNone. split; vm_compute; reflexivity.
Defined.

Example products_page_with_the_cache_down :
  ∃ d1 d2,
    (reads.handler fixture.products_page
       (main.mkApp sample.session sample.unreachable)).1
    = Ok (PDict [("items", PList [d1; d2]); ("total", PInt 5); ("page", PInt 2);
                 ("size", PInt 2); ("pages", PInt 3)])
    ∧ getitem d1 "id" = Some (PInt 3) ∧ getitem d2 "id" = Some (PInt 5).
Proof. do 2 eexists. vm_compute. by split_and!. Qed.

Lemma bad_request_iff_rejected_witness :
  ∃ detail,
    reads.handler (reads.OneProduct 0) sample.app
    = (Raise (HTTPException 400 detail), sample.app).
Proof.
  apply (bad_request_iff_rejected (reads.OneProduct 0) sample.app).
  reflexivity.
Defined.

Lemma lookup_of_missing_row_witness :
  main_item.get_product 9 sample.app
  = (Raise (HTTPException 404 "Product not found"),
     main.mkApp (spec.issued (Select "products") (main.db sample.app))
       (spec.sent (cache.GET ("product_" +:+ pretty 9)) (main.redis sample.app))).
Proof.
  apply (lookup_of_missing_row 9 sample.app); [lia|reflexivity| |].
  - exists PNone. split; vm_compute; reflexivity.
  - intros r Hr. simpl in Hr.
    repeat (apply elem_of_cons in Hr as [->|Hr]; [discriminate|]).
    by apply elem_of_nil in Hr.
Defined.

Lemma lookup_of_row_witness :
  ∃ d, (main_item.get_product 3 sample.app).1 = Ok d
       ∧ main.product_dict sample.phone sample.app = (Ok d, sample.app)
       ∧ getitem d "id" = Some (PInt 3)
       ∧ last (cache.log (main.redis (main_item.get_product 3 sample.app).2))
         = Some (cache.SETEX ("product_" +:+ pretty 3) 600 (json_dumps d)).
Proof.
  apply (lookup_of_row 3 sample.app); [lia|reflexivity| | | |reflexivity|reflexivity].
  - exists PNone. split; vm_compute; reflexivity.
  - apply (bool_decide_unpack _). vm_compute. exact I.
  - simpl. rewrite !elem_of_cons. auto.
Defined.

Lemma order_with_dangling_user_witness :
  ∃ d, (main_item.get_order 3 sample.app).1 = Ok d
       ∧ getitem d "id" = Some (PInt 3)
       ∧ getitem d "user_id" = Some (main.opt_int (Order.user_id sample.order3))
       ∧ getitem d "user" = Some PNone.
Proof.
  apply (order_with_dangling_user 3 sample.app sample.order3);
    [lia|reflexivity| | | |reflexivity| |reflexivity].
  - exists PNone. split; vm_compute; reflexivity.
  - apply (bool_decide_unpack _). vm_compute. exact I.
  - simpl. rewrite !elem_of_cons. auto.
  - intros u Hu. simpl in Hu.
    repeat (apply elem_of_cons in Hu as [->|Hu]; [discriminate|]).
    by apply elem_of_nil in Hu.
Defined.

Lemma stats_count_rows_witness :
  (main_item.get_stats sample.app).1 = Ok fixture.stats.
Proof.
  apply (stats_count_rows sample.app).
  - exists PNone. split; vm_compute; reflexivity.
  - reflexivity.
Defined.

Lemma reads_after_truncate_all_witness :
  let w := main.mkWorld sample.tables fixture.warm in
  let w1 := (main.serve main.truncate_all_data_endpoint [] w).2 in
  main.tables w1 = spec.empty_tables
  ∧ (main.serve (reads.handler fixture.products_page) [] w1).1
    = reads.on_empty_tables fixture.products_page.
Proof.
  intros w.
  apply (reads_after_truncate_all fixture.products_page [] [] w); reflexivity.
Defined.

Lemma seed_database_outcome_witness :
  let s' := (fixture.failing_loader (main.db sample.app)).2 in
  length (users (committed s')) = 3%nat
  ∧ main_item.seed_database fixture.failing_loader
      (main.mkApp sample.session fixture.warm)
    = (Raise (HTTPException 500 "connection lost"),
       main.mkApp s' fixture.warm).
Proof.
  intros s'. split; [reflexivity|].
  apply (proj1 (seed_database_outcome fixture.failing_loader
                  (main.mkApp sample.session fixture.warm) s')
           (SQLAlchemyError "connection lost")).
  reflexivity.
Defined.

Lemma null_timestamp_fails_list_witness :
  let a := main.mkApp (SessionLocal fixture.undated_tables []) sample.server in
  let key := reads.cache_key (reads.ListProducts fixture.first_page) in
  main.get_products fixture.first_page a
  = (Raise (AttributeError "'NoneType' object has no attribute 'isoformat'"),
     main.mkApp
       (spec.issued (Select "products")
          (spec.issued (Count "products") (main.db a)))
       (spec.sent (cache.GET key) (main.redis a))).
Proof.
  intros a key.
  apply (proj1 (null_timestamp_fails_list a) fixture.first_page
           (crud.mkPage (products fixture.undated_tables) 6 1 10 1)).
  - reflexivity.
  - exists PNone. split; vm_compute; reflexivity.
  - vm_compute. reflexivity.
  - reflexivity.
Defined.

Lemma schema_valid_is_accepted_witness :
  reads.accepted (reads.ListProducts fixture.priced) = true
  ∧ ∀ lo hi, schemas.ProductQueryParams.min_price fixture.priced = Some lo →
      schemas.ProductQueryParams.max_price fixture.priced = Some hi →
      (lo <= hi)%Q.
Proof.
  apply (proj1 schema_valid_is_accepted fixture.priced). reflexivity.
Defined.

End further_concrete.

(** ** Rows that tie on the sort key

    The order of rows that compare equal is the store's choice, statement
    by statement.  With a store that scans backwards for a positive
    OFFSET, the pages of the three electronics products by category show
    the camera twice and the laptop never. *)

Section tied_keys.
#[local] Existing Instance runtime.base.
#[local] Existing Instance fixture.backward_engine.

Example pages_of_tied_rows :
  let call (k : nat) :=
    crud.get_products (Z.of_nat k * 1) 1 None (Some "Electronics") None None
      None "category" "asc" sample.session in
  props.items_of (call 0%nat) = [sample.camera]
  ∧ props.items_of (call 1%nat) = [sample.camera]
  ∧ props.items_of (call 2%nat) = [sample.phone]
  ∧ props.items_of (call 3%nat) = [].
Proof. vm_compute. by split_and!. Qed.

End tied_keys.
